(** * GN to Shape Keys: a shallow embedding of the three operators

    This development models the Blender add-on [__init__.py]: the operator
    [GEO_OT_GeoNodesPrep] bakes copies of a Geometry Nodes object at evenly
    spaced frames, [GEO_OT_MergeToShapeKeys] folds the copies into shape keys
    of the first one and keyframes them, and [GEO_OT_RenameAndDelete] renames
    the first copy and removes the others.

    The operators are pure functions from a host state to an outcome (the
    returned status, the reports made, and the state left behind).  The host
    calls they make ([bpy.data], [bpy.ops], [keyframe_insert], ...) are given
    by a small model of the part of Blender that the add-on reads and writes:

    - every object is a mesh object that owns its mesh; it is in the scene
      or only in the file; a reference to an object is a number, distinct for
      distinct objects;
    - coordinates are finite single-precision numbers, held as the rationals
      they are; keyed values are integers;
    - of the properties of an object only the location is animated, and the
      frames set stay within the range the host allows;
    - names are ASCII strings, and the host keeps the names of the objects
      of the file, and of the shape keys of one key, distinct. *)

From Stdlib Require Import ZArith QArith Qround Qabs Qpower Qreduction.
From Stdlib Require Import List String Ascii Bool Lia.
From Stdlib Require Import Sorting.Sorted Sorting.Permutation.
From Stdlib Require Import Decimal DecimalString DecimalNat.
Import ListNotations.

Local Open Scope string_scope.
Local Open Scope Z_scope.

(** ** Python strings and integers *)

Module PyStr.

(** [s.startswith(p)] *)
Definition startswith (s p : string) : bool := String.prefix p s.

(** [s.replace(old, new)] for a non-empty [old]: the occurrences of [old] are
    replaced from left to right, without overlap.  [skip] counts the
    characters of a matched occurrence that are still to be dropped. *)
Fixpoint replace_aux (old new : string) (skip : nat) (s : string) : string :=
  match s with
  | EmptyString => EmptyString
  | String c s' =>
      match skip with
      | S k => replace_aux old new k s'
      | O =>
          if String.prefix old s
          then new ++ replace_aux old new (String.length old - 1) s'
          else String c (replace_aux old new 0 s')
      end
  end.

Definition replace (s old new : string) : string := replace_aux old new 0 s.

(** The blanks that [int] strips off an ASCII text: tab to carriage return,
    and the space.  (The separators 28 to 31 are blanks for [str.isspace]
    but not for [int].) *)
Definition is_space (c : ascii) : bool :=
  let n := nat_of_ascii c in
  ((9 <=? n) && (n <=? 13) || (n =? 32))%nat.

Fixpoint lstrip (s : string) : string :=
  match s with
  | EmptyString => EmptyString
  | String c s' => if is_space c then lstrip s' else s
  end.

Fixpoint rstrip (s : string) : string :=
  match s with
  | EmptyString => EmptyString
  | String c s' =>
      match rstrip s' with
      | EmptyString => if is_space c then EmptyString else String c EmptyString
      | r => String c r
      end
  end.

Definition strip (s : string) : string := rstrip (lstrip s).

Definition digit_of (c : ascii) : option Z :=
  let n := nat_of_ascii c in
  if ((48 <=? n) && (n <=? 57))%nat then Some (Z.of_nat n - 48) else None.

(** The digits of a decimal literal: at least one digit, and single
    underscores allowed between digits only.  [prev] tells whether the
    previous character was a digit. *)
Fixpoint digits_acc (acc : Z) (prev : bool) (s : string) : option Z :=
  match s with
  | EmptyString => if prev then Some acc else None
  | String c s' =>
      match digit_of c with
      | Some d => digits_acc (10 * acc + d) true s'
      | None =>
          if Ascii.eqb c "_" && prev then digits_acc acc false s' else None
      end
  end.

(** [int(s)] in base ten on an ASCII text; [None] stands for [ValueError]. *)
Definition int (s : string) : option Z :=
  match strip s with
  | String "+" r => digits_acc 0 false r
  | String "-" r => option_map Z.opp (digits_acc 0 false r)
  | r => digits_acc 0 false r
  end.

(** [str(n)] for a natural number, as the f-strings of the add-on print it. *)
Definition str_nat (n : nat) : string := NilZero.string_of_uint (Nat.to_uint n).

(** [str(z)] for an integer. *)
Definition str (z : Z) : string :=
  if z <? 0 then "-" ++ str_nat (Z.to_nat (- z)) else str_nat (Z.to_nat z).

End PyStr.

(** The sort key shared by the merge and the cleanup operators:
<<
    def idx(o):
        try:
            return int(o.name.replace("copy", ""))
        except:
            return 0
>>
    It reads nothing of the object but its name. *)
Definition idx_of_name (name : string) : Z :=
  match PyStr.int (PyStr.replace name "copy" "") with
  | Some n => n
  | None => 0
  end.

(** ** The host data the add-on reads and writes *)

(** ** Single and double precision

    The host stores a coordinate as a binary32 number and Python computes
    with binary64 numbers; both round to the nearest number of the format,
    to the one with an even significand when two are equally near.  A finite
    number of either format is a rational, and is held as that rational in
    lowest terms.  Infinities and NaN are left out. *)
Module Float.

(** The largest [e] with [2 ^ e <= q], for a positive [q]. *)
Definition floor_log2 (q : Q) : Z :=
  let e := Z.log2 (Qnum q) - Z.log2 (Zpos (Qden q)) in
  if Qle_bool (2 ^ e) q then e else e - 1.

(** The integer nearest to [q], the even one of two equally near. *)
Definition round_even (q : Q) : Z :=
  let f := Qfloor q in
  match (q - inject_Z f ?= 1 # 2)%Q with
  | Lt => f
  | Gt => f + 1
  | Eq => if Z.even f then f else f + 1
  end.

(** [q] rounded to [prec] significant bits, the least exponent of a normal
    number being [emin]. *)
Definition round (prec emin : Z) (q : Q) : Q :=
  if Qeq_bool q 0 then 0%Q
  else
    let e := Z.max (floor_log2 (Qabs q)) emin in
    let ulp := (2 ^ (e - prec + 1))%Q in
    Qred (inject_Z (round_even (q / ulp)) * ulp).

(** The C cast [(float) x]. *)
Definition single : Q -> Q := round 24 (-126).

(** The result of an operation on Python floats. *)
Definition double : Q -> Q := round 53 (-1022).

End Float.

(** A location or a vertex position: three single-precision numbers. *)
Record Vector := mkVector { vx : Q; vy : Q; vz : Q }.

Inductive Interpolation := CONSTANT | LINEAR | BEZIER.

(** A keyframe point of an F-curve: [co = (frame, value)] and the
    interpolation towards the next point. *)
Record Keyframe := mkKeyframe {
  kf_frame : Z;
  kf_value : Z;
  interpolation : Interpolation
}.

(** The RNA paths the add-on animates: ["eval_time"] and
    ['key_blocks["<name>"].value'].  The host keeps the names of the blocks of
    one key distinct, so the second path is given by the position of the block
    it resolves to. *)
Inductive DataPath :=
  | DP_eval_time
  | DP_key_block_value (block : nat).

Record FCurve := mkFCurve {
  data_path : DataPath;
  keyframe_points : list Keyframe
}.

(** [animation_data]; its [action] is [None] until a keyframe is inserted. *)
Record AnimData := mkAnimData { action : option (list FCurve) }.

Record ShapeKey := mkShapeKey {
  sk_name : string;
  sk_value : Z;
  sk_data : list Vector
}.

(** The shape-key datablock of a mesh ([bpy.types.Key]). *)
Record Key := mkKey {
  use_relative : bool;
  eval_time : Z;
  key_blocks : list ShapeKey;
  animation_data : option AnimData
}.

Record Mesh := mkMesh {
  vertices : list Vector;
  shape_keys : option Key
}.

Inductive ModifierType := NODES | SUBSURF | MIRROR | ARMATURE.

(** A mesh object.  [ob_id] stands for the identity of the Python reference;
    [evaluated f] is the geometry the dependency graph gives the object at
    frame [f] once its modifiers are applied.  Every object owns its mesh.

    [location] is the stored value of the property; when the location is
    animated (or driven), [location_curve] gives its value at every frame and
    the host overwrites the property with it whenever the scene goes to a
    frame: see [location_now].  [linked] tells whether the object is in the
    scene; [select] is its selection in the view layer. *)
Record Object := mkObject {
  ob_id : nat;
  name : string;
  location : Vector;
  location_curve : option (Z -> Vector);
  linked : bool;
  modifiers : list ModifierType;
  data : Mesh;
  evaluated : Z -> list Vector;
  select : bool
}.

(** [o.location] as it reads once the scene has gone to [frame]. *)
Definition location_now (frame : Z) (o : Object) : Vector :=
  match location_curve o with
  | Some curve => curve frame
  | None => location o
  end.

(** The settings attached to the scene ([scene.geonodes_to_shapekey_props]);
    [selected_object] is a reference to an object, [total_frames] is kept at
    1 or more by the host ([min=1]). *)
Module GEO_Props.
Record t := mk {
  selected_object : option nat;
  total_frames : Z;
  use_relative : bool
}.
End GEO_Props.

Inductive Mode := OBJECT | EDIT_MESH | SCULPT | PAINT_WEIGHT.

(** The host state: the objects of the file ([bpy.data.objects]), those of
    the scene among them in the order [scene.objects] yields them, the
    current frame, the active object, the interaction mode, the settings,
    and the interpolation the user preferences give to new keyframes. *)
Record Blend := mkBlend {
  objects : list Object;
  frame_current : Z;
  active : option nat;
  mode : Mode;
  props : GEO_Props.t;
  ipo_new : Interpolation
}.

Inductive ReportType := INFO | WARNING | ERROR.
Definition Report : Type := ReportType * string.

Inductive Exception :=
  | UnboundLocalError | AttributeError | IndexError | RuntimeError.

(** What an operator invocation ends with: the set it returns, or an
    exception that leaves [execute]. *)
Inductive Status := FINISHED | CANCELLED | RAISED (e : Exception).

Record Outcome := mkOutcome {
  status : Status;
  reports : list Report;
  final : Blend
}.

(** ** Operator bodies: state, reports, early exit *)

Section OpMonad.
Context {St : Type}.

(** A statement either goes on with a value or leaves [execute] (a
    [return] or an exception); both keep the state reached so far. *)
Inductive Step (A : Type) :=
  | Next (a : A) (s : St) (rs : list Report)
  | Stop (st : Status) (s : St) (rs : list Report).

Definition Op (A : Type) := St -> list Report -> Step A.

Definition ret {A} (a : A) : Op A := fun s rs => Next A a s rs.

Definition bind {A B} (m : Op A) (k : A -> Op B) : Op B :=
  fun s rs =>
    match m s rs with
    | Next _ a s' rs' => k a s' rs'
    | Stop _ st s' rs' => Stop B st s' rs'
    end.

Definition gets {A} (f : St -> A) : Op A := fun s rs => Next A (f s) s rs.

Definition modify (f : St -> St) : Op unit := fun s rs => Next unit tt (f s) rs.

(** [self.report({ty}, msg)] *)
Definition report (ty : ReportType) (msg : string) : Op unit :=
  fun s rs => Next unit tt s (rs ++ [(ty, msg)]).

(** [return {st}] *)
Definition return_ {A} (st : Status) : Op A := fun s rs => Stop A st s rs.

Definition raise {A} (e : Exception) : Op A := return_ (RAISED e).

(** [for x in l: body x] *)
Fixpoint for_each {A} (l : list A) (body : A -> Op unit) : Op unit :=
  match l with
  | [] => ret tt
  | x :: l' => bind (body x) (fun _ => for_each l' body)
  end.
End OpMonad.

Arguments Step : clear implicits.
Arguments Op : clear implicits.
Arguments Next {St A}.
Arguments Stop {St A}.

Declare Scope op_scope.
Delimit Scope op_scope with op.
Notation "x <- m ;; k" := (bind m (fun x => k))
  (at level 61, m at next level, right associativity) : op_scope.
Notation "m ;; k" := (bind m (fun _ => k))
  (at level 61, right associativity) : op_scope.

(** Statements on a part of the state: [m] runs on the part [get s] and the
    part it leaves is written back with [set], also when [m] leaves
    [execute]. *)
Definition zoom {St Sub A} (get : St -> option Sub) (set : Sub -> St -> St)
    (missing : Exception) (m : Op Sub A) : Op St A :=
  fun s rs =>
    match get s with
    | None => Stop (RAISED missing) s rs
    | Some sub =>
        match m sub rs with
        | Next a sub' rs' => Next a (set sub' s) rs'
        | Stop st sub' rs' => Stop st (set sub' s) rs'
        end
    end.

Definition outcome (r : Step Blend Status) : Outcome :=
  match r with
  | Next st s' rs => mkOutcome st rs s'
  | Stop st s' rs => mkOutcome st rs s'
  end.

(** An operator invocation from a state. *)
Definition run (m : Op Blend Status) (s : Blend) : Outcome := outcome (m s []).

(** ** The host calls *)

Local Open Scope op_scope.

(** [list.sort(key=...)]: Python's sort is stable, and a stable sort has one
    result; here by insertion, an element going before the later elements of
    equal key. *)
Section Sort.
Context {A : Type} (key : A -> Z).

Fixpoint insert_by (x : A) (l : list A) : list A :=
  match l with
  | [] => [x]
  | y :: l' => if key x <=? key y then x :: l else y :: insert_by x l'
  end.

Definition sort_by (l : list A) : list A := fold_right insert_by [] l.

(** The order the sort arranges the elements in. *)
Definition le_by (a b : A) : Prop := key a <= key b.
End Sort.

(** [enumerate(l)] *)
Definition enumerate {A} (l : list A) : list (nat * A) :=
  combine (seq 0 (List.length l)) l.

(** [range(n)] *)
Definition range (n : Z) : list Z := map Z.of_nat (seq 0 (Z.to_nat n)).

(** *** Names of datablocks

    The host keeps names distinct: a requested name that is taken gets the
    first free suffix [.001], [.002], ...  (The requested names of this
    add-on carry no such suffix of their own, and the limit on the length of
    names is left out.) *)
Definition pad3 (n : nat) : string :=
  if (n <? 10)%nat then "00" ++ PyStr.str_nat n
  else if (n <? 100)%nat then "0" ++ PyStr.str_nat n
  else PyStr.str_nat n.

Definition name_taken (used : list string) (n : string) : bool :=
  existsb (String.eqb n) used.

Fixpoint first_free (used : list string) (base : string) (k fuel : nat) : string :=
  let candidate := base ++ "." ++ pad3 k in
  match fuel with
  | O => candidate
  | S fuel' =>
      if name_taken used candidate then first_free used base (S k) fuel'
      else candidate
  end.

Definition unique_name (used : list string) (n : string) : string :=
  if name_taken used n then first_free used n 1 (List.length used) else n.

(** *** Objects *)

Definition get_object (id : nat) (objs : list Object) : option Object :=
  find (fun o => (ob_id o =? id)%nat) objs.

Definition update_object (id : nat) (f : Object -> Object) (objs : list Object)
    : list Object :=
  map (fun o => if (ob_id o =? id)%nat then f o else o) objs.

Definition with_name (n : string) (o : Object) : Object :=
  mkObject (ob_id o) n (location o) (location_curve o) (linked o) (modifiers o)
           (data o) (evaluated o) (select o).

Definition with_location (l : Vector) (o : Object) : Object :=
  mkObject (ob_id o) (name o) l (location_curve o) (linked o) (modifiers o)
           (data o) (evaluated o) (select o).

Definition with_linked (b : bool) (o : Object) : Object :=
  mkObject (ob_id o) (name o) (location o) (location_curve o) b (modifiers o)
           (data o) (evaluated o) (select o).

Definition with_data (m : Mesh) (o : Object) : Object :=
  mkObject (ob_id o) (name o) (location o) (location_curve o) (linked o)
           (modifiers o) m (evaluated o) (select o).

Definition with_select (b : bool) (o : Object) : Object :=
  mkObject (ob_id o) (name o) (location o) (location_curve o) (linked o)
           (modifiers o) (data o) (evaluated o) b.

(** [scene.objects] *)
Definition scene_objects (s : Blend) : list Object := filter linked (objects s).

Definition set_objects (objs : list Object) (s : Blend) : Blend :=
  mkBlend objs (frame_current s) (active s) (mode s) (props s) (ipo_new s).

Definition set_frame_current (f : Z) (s : Blend) : Blend :=
  mkBlend (objects s) f (active s) (mode s) (props s) (ipo_new s).

Definition set_active (a : option nat) (s : Blend) : Blend :=
  mkBlend (objects s) (frame_current s) a (mode s) (props s) (ipo_new s).

Definition set_mode (m : Mode) (s : Blend) : Blend :=
  mkBlend (objects s) (frame_current s) (active s) m (props s) (ipo_new s).

Definition set_props (p : GEO_Props.t) (s : Blend) : Blend :=
  mkBlend (objects s) (frame_current s) (active s) (mode s) p (ipo_new s).

Definition mode_eqb (a b : Mode) : bool :=
  match a, b with
  | OBJECT, OBJECT | EDIT_MESH, EDIT_MESH | SCULPT, SCULPT
  | PAINT_WEIGHT, PAINT_WEIGHT => true
  | _, _ => false
  end.

(** [scene.frame_set(frame)]: the scene goes to the frame, and the host
    evaluates what is animated there.  The state keeps the frame; the
    evaluated geometry and the animated locations are functions of it, read
    through [evaluated] and [location_now]. *)
Definition frame_set (frame : Z) : Op Blend unit := modify (set_frame_current frame).

(** [bpy.data.meshes.new_from_object(eval_obj, ...)] with [eval_obj] the
    object evaluated at the current frame: a new mesh without shape keys. *)
Definition new_from_object (o : Object) : Op Blend Mesh :=
  gets (fun s => mkMesh (evaluated o (frame_current s)) None).

Definition fresh_id (objs : list Object) : nat := S (list_max (map ob_id objs)).

(** [bpy.data.objects.new(name, mesh)]: an object at the origin, not
    animated, without modifiers, in no scene yet and not selected; the host
    makes its name unique among the objects of the file.  The object enters
    [objects] when it is linked, which is the next thing the add-on does
    with it but for setting its location. *)
Definition objects_new (n : string) (mesh : Mesh) : Op Blend Object :=
  gets (fun s =>
    mkObject (fresh_id (objects s)) (unique_name (map name (objects s)) n)
             (mkVector 0 0 0) None false [] mesh (fun _ => vertices mesh) false).

(** [scene.collection.objects.link(o)]: the object comes last in
    [scene.objects]. *)
Definition link (o : Object) : Op Blend unit :=
  modify (fun s => set_objects (objects s ++ [with_linked true o]) s).

(** [o.name = n]: the host makes the name unique among the other objects of
    the file. *)
Definition set_name (id : nat) (n : string) : Op Blend unit :=
  modify (fun s =>
    let others := filter (fun o => negb (ob_id o =? id)%nat) (objects s) in
    set_objects (update_object id (with_name (unique_name (map name others) n))
                               (objects s)) s).

Definition clear_pointer (id : nat) (p : option nat) : option nat :=
  match p with
  | Some i => if (i =? id)%nat then None else p
  | None => None
  end.

(** [bpy.data.objects.remove(o, do_unlink=True)]: the object leaves the scene
    and the file, and the references the host holds to it are cleared. *)
Definition remove_object (id : nat) (s : Blend) : Blend :=
  mkBlend (filter (fun o => negb (ob_id o =? id)%nat) (objects s))
          (frame_current s) (clear_pointer id (active s)) (mode s)
          (GEO_Props.mk (clear_pointer id (GEO_Props.selected_object (props s)))
                    (GEO_Props.total_frames (props s))
                    (GEO_Props.use_relative (props s)))
          (ipo_new s).

Definition objects_remove (id : nat) : Op Blend unit := modify (remove_object id).

(** [bpy.ops.object.mode_set(mode=m)] *)
Definition mode_set (m : Mode) : Op Blend unit := modify (set_mode m).

(** [bpy.ops.object.select_all(action="DESELECT")]; an object outside the
    scene has no selection to lose. *)
Definition select_all_deselect : Op Blend unit :=
  modify (fun s => set_objects (map (with_select false) (objects s)) s).

(** [o.select_set(b)] *)
Definition select_set (id : nat) (b : bool) : Op Blend unit :=
  modify (fun s => set_objects (update_object id (with_select b) (objects s)) s).

(** *** Shape keys *)

Definition add_block (b : ShapeKey) (k : Key) : Key :=
  mkKey (use_relative k) (eval_time k) (key_blocks k ++ [b]) (animation_data k).

(** What [shape_key_add(from_mix=False)] does to the mesh: the first block of
    a mesh is "Basis" in a new, relative key; a later one is "Key n". *)
Definition mesh_shape_key_add (m : Mesh) : Mesh :=
  match shape_keys m with
  | None =>
      mkMesh (vertices m)
             (Some (mkKey true 0 [mkShapeKey "Basis" 0 (vertices m)] None))
  | Some k =>
      let n := unique_name (map sk_name (key_blocks k))
                           ("Key " ++ PyStr.str_nat (List.length (key_blocks k))) in
      mkMesh (vertices m) (Some (add_block (mkShapeKey n 0 (vertices m)) k))
  end.

(** [bpy.ops.object.shape_key_add(from_mix=False)], on the active object. *)
Definition shape_key_add : Op Blend unit :=
  a <- gets active ;;
  match a with
  | None => raise RuntimeError
  | Some id =>
      modify (fun s =>
        set_objects
          (update_object id (fun o => with_data (mesh_shape_key_add (data o)) o)
                         (objects s)) s)
  end.

(** One source object joined into the mesh as a block named after it. *)
Definition mesh_join_shape (m : Mesh) (src : Object) : Mesh :=
  let m' := match shape_keys m with
            | None => mesh_shape_key_add m
            | Some _ => m
            end in
  match shape_keys m' with
  | None => m'
  | Some k =>
      let n := unique_name (map sk_name (key_blocks k)) (name src) in
      mkMesh (vertices m')
             (Some (add_block (mkShapeKey n 0 (vertices (data src))) k))
  end.

(** [bpy.ops.object.join_shapes()]: every other selected object whose mesh has
    the vertex count of the active one becomes a shape key of the active
    object; with no such object the host warns and changes nothing. *)
Definition join_shapes : Op Blend unit :=
  a <- gets active ;;
  match a with
  | None => raise RuntimeError
  | Some id =>
      modify (fun s =>
        match get_object id (objects s) with
        | None => s
        | Some act =>
            let fits o :=
              select o && negb (ob_id o =? id)%nat
              && (List.length (vertices (data o)) =? List.length (vertices (data act)))%nat in
            let m := fold_left mesh_join_shape (filter fits (objects s)) (data act) in
            match filter fits (objects s) with
            | [] => s
            | _ => set_objects (update_object id (with_data m) (objects s)) s
            end
        end)
  end.

(** *** Animation of a key *)

Definition path_eqb (p q : DataPath) : bool :=
  match p, q with
  | DP_eval_time, DP_eval_time => true
  | DP_key_block_value a, DP_key_block_value b => (a =? b)%nat
  | _, _ => false
  end.

(** [fcu.data_path.startswith("key_blocks[") and
     fcu.data_path.endswith("].value")] *)
Definition is_value_path (p : DataPath) : bool :=
  match p with
  | DP_key_block_value _ => true
  | DP_eval_time => false
  end.

(** A point enters the curve at its place in frame order; a point already at
    that frame takes the new value and keeps its interpolation. *)
Fixpoint insert_keyframe (kp : Keyframe) (l : list Keyframe) : list Keyframe :=
  match l with
  | [] => [kp]
  | k :: l' =>
      if kf_frame kp <? kf_frame k then kp :: l
      else if kf_frame kp =? kf_frame k
           then mkKeyframe (kf_frame k) (kf_value kp) (interpolation k) :: l'
           else k :: insert_keyframe kp l'
  end.

(** The curve of the path receives the point; a path without a curve gets a
    new curve at the end of [action.fcurves]. *)
Fixpoint fcurves_insert (p : DataPath) (kp : Keyframe) (fcs : list FCurve)
    : list FCurve :=
  match fcs with
  | [] => [mkFCurve p [kp]]
  | f :: fcs' =>
      if path_eqb (data_path f) p
      then mkFCurve p (insert_keyframe kp (keyframe_points f)) :: fcs'
      else f :: fcurves_insert p kp fcs'
  end.

Definition set_use_relative (b : bool) (k : Key) : Key :=
  mkKey b (eval_time k) (key_blocks k) (animation_data k).

Definition set_eval_time (t : Z) (k : Key) : Key :=
  mkKey (use_relative k) t (key_blocks k) (animation_data k).

Definition set_animation_data (a : option AnimData) (k : Key) : Key :=
  mkKey (use_relative k) (eval_time k) (key_blocks k) a.

Definition set_key_blocks (bs : list ShapeKey) (k : Key) : Key :=
  mkKey (use_relative k) (eval_time k) bs (animation_data k).

(** [sk_block.animation_data_create()] *)
Definition animation_data_create : Op Key unit :=
  modify (fun k =>
    match animation_data k with
    | None => set_animation_data (Some (mkAnimData None)) k
    | Some _ => k
    end).

Definition fcurves_of (k : Key) : list FCurve :=
  match animation_data k with
  | Some (mkAnimData (Some fcs)) => fcs
  | _ => []
  end.

(** The current value of the property a path names. *)
Definition path_value (p : DataPath) (k : Key) : option Z :=
  match p with
  | DP_eval_time => Some (eval_time k)
  | DP_key_block_value b => option_map sk_value (nth_error (key_blocks k) b)
  end.

(** [keyframe_insert(data_path, frame=frame)] on the key or on one of its
    blocks: the current value of the property is keyed at [frame]; animation
    data and an action are made when missing. *)
Definition keyframe_insert (ipo : Interpolation) (p : DataPath) (frame : Z)
    : Op Key unit :=
  modify (fun k =>
    match path_value p k with
    | None => k
    | Some v =>
        set_animation_data
          (Some (mkAnimData
             (Some (fcurves_insert p (mkKeyframe frame v ipo) (fcurves_of k))))) k
    end).

(** [sk.value = v] for the block at position [b]. *)
Definition set_block_value (b : nat) (v : Z) : Op Key unit :=
  modify (fun k =>
    set_key_blocks
      (map (fun '(i, sk) =>
              if (i =? b)%nat then mkShapeKey (sk_name sk) v (sk_data sk) else sk)
           (enumerate (key_blocks k))) k).

(** [sk_block.animation_data.action.fcurves]; [AttributeError] when the
    animation data or the action is [None]. *)
Definition action_fcurves : Op Key (list FCurve) :=
  ad <- gets animation_data ;;
  match ad with
  | Some (mkAnimData (Some fcs)) => ret fcs
  | _ => raise AttributeError
  end.

Definition linear (kp : Keyframe) : Keyframe :=
  mkKeyframe (kf_frame kp) (kf_value kp) LINEAR.

(** [for fcu in action.fcurves: if sel(fcu.data_path):
       for kp in fcu.keyframe_points: kp.interpolation = "LINEAR"] *)
Definition force_linear (sel : DataPath -> bool) : Op Key unit :=
  fcs <- action_fcurves ;;
  modify (set_animation_data
    (Some (mkAnimData (Some
       (map (fun fcu =>
               if sel (data_path fcu)
               then mkFCurve (data_path fcu) (map linear (keyframe_points fcu))
               else fcu) fcs))))).

(** The positions of the blocks [sk] of [key_blocks] with
    [sk.name != "Basis"]. *)
Definition non_basis (bs : list ShapeKey) : list nat :=
  map fst (filter (fun p => negb (String.eqb (sk_name (snd p)) "Basis"))
                  (enumerate bs)).

Definition is_copy (o : Object) : bool := PyStr.startswith (name o) "copy".

Definition idx (o : Object) : Z := idx_of_name (name o).

(** [copies = [o for o in scene.objects if o.name.startswith("copy")]]
    followed by [copies.sort(key=idx)], [objs] being the objects of the
    file. *)
Definition sorted_copies (objs : list Object) : list Object :=
  sort_by idx (filter is_copy (filter linked objs)).

(** [props.selected_object]: the object of the file the pointer property
    refers to, [None] when it is empty. *)
Definition selected (s : Blend) : option Object :=
  match GEO_Props.selected_object (props s) with
  | Some id => get_object id (objects s)
  | None => None
  end.

(** [m.type == "NODES"] *)
Definition is_nodes (m : ModifierType) : bool :=
  match m with
  | NODES => true
  | _ => false
  end.

(** ** The operators *)

(** *** Prep: bake the copies *)
Module GEO_OT_GeoNodesPrep.

(** The body of [for i in range(total)].  [base_obj] is a reference to an
    object the loop does not write to; its geometry and its location are
    read at the frame the pass has set.  The sum for Y is a Python float and
    is stored in single precision. *)
Definition bake (base_obj : Object) (i : Z) : Op Blend unit :=
  let frame := i * 10 in
  frame_set frame ;;
  mesh <- new_from_object base_obj ;;
  new_obj <- objects_new ("copy" ++ PyStr.str (i + 1)) mesh ;;
  base_location <- gets (fun s => location_now (frame_current s) base_obj) ;;
  let new_obj := with_location base_location new_obj in
  let new_obj :=
    with_location
      (mkVector (vx (location new_obj))
                (Float.single
                   (Float.double
                      (vy (location new_obj) + inject_Z (2 * (i + 1)))))
                (vz (location new_obj))) new_obj in
  link new_obj.

Definition execute : Op Blend Status :=
  props <- gets props ;;
  base_obj <- gets selected ;;
  let total := GEO_Props.total_frames props in
  match base_obj with
  | None => report ERROR "No object selected." ;; return_ CANCELLED
  | Some base_obj =>
      let geo_mod := find is_nodes (modifiers base_obj) in
      match geo_mod with
      | None =>
          report ERROR "Selected object has no Geometry Nodes modifier." ;;
          return_ CANCELLED
      | Some _ =>
          original_active <- gets active ;;
          for_each (range total) (bake base_obj) ;;
          match original_active with
          | Some a => modify (set_active (Some a))
          | None => ret tt
          end ;;
          report INFO ("Prepared " ++ PyStr.str total
                       ++ " copies with evaluated meshes.") ;;
          return_ FINISHED
      end
  end.

End GEO_OT_GeoNodesPrep.

(** *** Merge: shape keys and their animation *)
Module GEO_OT_MergeToShapeKeys.

(** The body of [for i, sk in enumerate(shape_keys)]; [len_shape_keys] is
    [len(shape_keys)] and [sk] the position of the block in [key_blocks]. *)
Definition keyframe_values (ipo : Interpolation) (step : Z)
    (len_shape_keys len_rest : nat) (copy1_name : string) (item : nat * nat)
    : Op Key unit :=
  let '(i, sk) := item in
  let start := Z.of_nat i * step in
  let peak := start + step in
  let end_ := start + 2 * step in
  set_block_value sk 0 ;;
  keyframe_insert ipo (DP_key_block_value sk) start ;;
  set_block_value sk 1 ;;
  keyframe_insert ipo (DP_key_block_value sk) peak ;;
  (if Z.of_nat i <? Z.of_nat len_shape_keys - 1 then
     set_block_value sk 0 ;;
     keyframe_insert ipo (DP_key_block_value sk) end_
   else ret tt) ;;
  force_linear is_value_path ;;
  report INFO ("Merged " ++ PyStr.str_nat len_rest ++ " copies into '"
               ++ copy1_name ++ "' with relative shape keys").

(** The statements of [execute] from [sk_block = copy1.data.shape_keys] on,
    on the key.  The local [shape_keys] is bound in the relative branch only:
    [None] stands for the unbound name. *)
Definition animate (ipo : Interpolation) (use_relative : bool)
    (len_copies len_rest : nat) (copy1_name : string) : Op Key Status :=
  shape_keys <-
    (if negb use_relative then
       modify (set_use_relative false) ;;
       let start_frame := 1 in
       let end_frame := (Z.of_nat len_copies - 1) * 24 in
       ad <- gets animation_data ;;
       match ad with None => animation_data_create | Some _ => ret tt end ;;
       modify (set_eval_time 0) ;;
       keyframe_insert ipo DP_eval_time start_frame ;;
       modify (set_eval_time ((Z.of_nat len_copies - 1) * 10)) ;;
       keyframe_insert ipo DP_eval_time end_frame ;;
       force_linear (fun p => path_eqb p DP_eval_time) ;;
       report INFO ("Merged " ++ PyStr.str_nat len_rest ++ " copies into '"
                    ++ copy1_name ++ "', eval_time keyed @ "
                    ++ PyStr.str start_frame ++ " → " ++ PyStr.str end_frame) ;;
       ret None
     else
       ad <- gets animation_data ;;
       match ad with None => animation_data_create | Some _ => ret tt end ;;
       blocks <- gets key_blocks ;;
       ret (Some (non_basis blocks))) ;;
  let step := 10 in
  shape_keys <- match shape_keys with
                | None => raise UnboundLocalError
                | Some l => ret l
                end ;;
  for_each (enumerate shape_keys)
           (keyframe_values ipo step (List.length shape_keys) len_rest copy1_name) ;;
  return_ FINISHED.

(** [copy1.data.shape_keys], read and written through the reference. *)
Definition shape_keys_of (id : nat) (s : Blend) : option Key :=
  match get_object id (objects s) with
  | Some o => shape_keys (data o)
  | None => None
  end.

Definition set_shape_keys (id : nat) (k : Key) (s : Blend) : Blend :=
  set_objects
    (update_object id (fun o => with_data (mkMesh (vertices (data o)) (Some k)) o)
                   (objects s)) s.

(** The statements of [execute] from "Select copy1 and make active" to the
    end of "Join each other copy as its own shape key". *)
Definition join_copies (copy1 : Object) (rest : list Object) : Op Blend unit :=
  select_all_deselect ;;
  select_set (ob_id copy1) true ;;
  modify (set_active (Some (ob_id copy1))) ;;
  shape_key_add ;;
  for_each rest (fun o =>
    select_set (ob_id o) true ;;
    join_shapes ;;
    select_set (ob_id o) false).

Definition execute : Op Blend Status :=
  m <- gets mode ;;
  (if negb (mode_eqb m OBJECT) then mode_set OBJECT else ret tt) ;;
  props <- gets props ;;
  let use_relative := GEO_Props.use_relative props in
  copies <- gets (fun s => filter is_copy (scene_objects s)) ;;
  if (List.length copies <? 2)%nat then
    report ERROR "Need at least copy1 and copy2 present." ;;
    return_ CANCELLED
  else
    let copies := sort_by idx copies in
    match copies with
    | [] => raise IndexError
    | copy1 :: rest =>
        join_copies copy1 rest ;;
        ipo <- gets ipo_new ;;
        zoom (shape_keys_of (ob_id copy1)) (set_shape_keys (ob_id copy1))
             AttributeError
             (animate ipo use_relative (List.length copies) (List.length rest)
                      (name copy1))
    end.

End GEO_OT_MergeToShapeKeys.

(** *** Cleanup: rename the first copy, remove the others *)
Module GEO_OT_RenameAndDelete.

Definition execute : Op Blend Status :=
  copies <- gets (fun s => filter is_copy (scene_objects s)) ;;
  match copies with
  | [] =>
      report ERROR "No objects named 'copy1', 'copy2', etc. found." ;;
      return_ CANCELLED
  | _ :: _ =>
      let copies := sort_by idx copies in
      match copies with
      | [] => raise IndexError
      | copy1 :: other_copies =>
          let old_name := name copy1 in
          set_name (ob_id copy1) "shapekey_object" ;;
          for_each other_copies (fun obj => objects_remove (ob_id obj)) ;;
          report INFO ("Renamed '" ++ old_name
                       ++ "' → 'shapekey_object', deleted "
                       ++ PyStr.str_nat (List.length other_copies) ++ " copies.") ;;
          return_ FINISHED
      end
  end.

End GEO_OT_RenameAndDelete.

(** ** Auxiliary notions for the statements *)

(** The name the [i]-th pass of the loop asks for (0-based [i]). *)
Definition copy_name (i : Z) : string := "copy" ++ PyStr.str (i + 1).

(** The location of the source at the frame of pass [i], moved by
    [2 * (i + 1)] along Y: the sum is rounded as a Python float and then to
    single precision. *)
Definition offset_location (base : Object) (i : Z) : Vector :=
  mkVector (vx (location_now (i * 10) base))
           (Float.single
              (Float.double
                 (vy (location_now (i * 10) base) + inject_Z (2 * (i + 1)))))
           (vz (location_now (i * 10) base)).

(** What one object made by pass [i] looks like, given the objects [before]
    it in the scene. *)
Definition baked_from (base : Object) (before : list Object) (i : Z)
    (o : Object) : Prop :=
  name o = unique_name (map name before) (copy_name i) /\
  location o = offset_location base i /\
  location_curve o = None /\ linked o = true /\
  data o = mkMesh (evaluated base (i * 10)) None.

(** What identifies an object of the scene: its reference and its name. *)
Definition ident (o : Object) : nat * string := (ob_id o, name o).

(** What the joining of the copies keeps true of the state it started from
    ([s0]): the active object is the base [id], the objects are the same, the
    base has a key, and [R] holds of the animation data of that key. *)
Definition joined (id : nat) (s0 : Blend) (R : option AnimData -> Prop)
    (s : Blend) : Prop :=
  active s = Some id /\
  map ident (objects s) = map ident (objects s0) /\
  frame_current s = frame_current s0 /\ mode s = mode s0 /\
  props s = props s0 /\ ipo_new s = ipo_new s0 /\
  exists k, GEO_OT_MergeToShapeKeys.shape_keys_of id s = Some k /\
            R (animation_data k).

(** The keyframes of the curve that animates the value of the block [b]. *)
Definition value_curve (b : nat) (k : Key) : option (list Keyframe) :=
  option_map keyframe_points
    (find (fun f => path_eqb (data_path f) (DP_key_block_value b)) (fcurves_of k)).

(** The rise and fall of the target at ordinal [i] among [K] targets: 0 at
    frame 10 i, 1 at frame 10 i + 10 and, but for the last target, 0 again at
    frame 10 i + 20, all linear. *)
Definition triangle (i K : nat) : list Keyframe :=
  [mkKeyframe (Z.of_nat i * 10) 0 LINEAR;
   mkKeyframe (Z.of_nat i * 10 + 10) 1 LINEAR]
  ++ (if Z.of_nat i <? Z.of_nat K - 1
      then [mkKeyframe (Z.of_nat i * 10 + 20) 0 LINEAR]
      else []).

(** A shape key that the relative branch animates: any but "Basis". *)
Definition is_target (sk : ShapeKey) : bool :=
  negb (String.eqb (sk_name sk) "Basis").

(** The number of targets among the blocks, and the ordinal of the block at
    position [b] among them: the number of targets before it. *)
Definition targets (bs : list ShapeKey) : nat :=
  List.length (filter is_target bs).

Definition ordinal (b : nat) (bs : list ShapeKey) : nat :=
  List.length (filter is_target (firstn b bs)).

(** The points of the curve of a path, none when the path has no curve. *)
Definition points (p : DataPath) (fcs : list FCurve) : list Keyframe :=
  match find (fun f => path_eqb (data_path f) p) fcs with
  | Some f => keyframe_points f
  | None => []
  end.

(** What [force_linear is_value_path] makes of the curves. *)
Definition linearise (fcs : list FCurve) : list FCurve :=
  map (fun fcu =>
         if is_value_path (data_path fcu)
         then mkFCurve (data_path fcu) (map linear (keyframe_points fcu))
         else fcu) fcs.

(** The keyframes one pass of the relative loop inserts for the block [b]
    at ordinal [i] among [K], in the order it inserts them. *)
Definition pass_inserts (ipo : Interpolation) (i K b : nat)
    (fcs : list FCurve) : list FCurve :=
  let p := DP_key_block_value b in
  let fcs := fcurves_insert p (mkKeyframe (Z.of_nat i * 10) 0 ipo) fcs in
  let fcs := fcurves_insert p (mkKeyframe (Z.of_nat i * 10 + 10) 1 ipo) fcs in
  if Z.of_nat i <? Z.of_nat K - 1
  then fcurves_insert p (mkKeyframe (Z.of_nat i * 10 + 20) 0 ipo) fcs
  else fcs.

(** The curve holds a linear keyframe of that frame and value. *)
Definition keyed (frame value : Z) (curve : list Keyframe) : Prop :=
  In (mkKeyframe frame value LINEAR) curve.

(** The curve is linear and holds the keyframes of the triangle of ordinal
    [i] among [K]: 0 at frame 10 i, 1 at frame 10 i + 10 and, when the target
    is not the last, 0 at frame 10 i + 20. *)
Definition holds_triangle (i K : nat) (curve : list Keyframe) : Prop :=
  Forall (fun kp => interpolation kp = LINEAR) curve /\
  keyed (Z.of_nat i * 10) 0 curve /\
  keyed (Z.of_nat i * 10 + 10) 1 curve /\
  (Z.of_nat i < Z.of_nat K - 1 -> keyed (Z.of_nat i * 10 + 20) 0 curve).

(** Every keyframe of every curve is linear. *)
Definition all_linear (fcs : list FCurve) : Prop :=
  Forall (fun f => Forall (fun kp => interpolation kp = LINEAR) (keyframe_points f))
         fcs.

(** No curve animates the value of the block [b]. *)
Definition not_animated (b : nat) (fcs : list FCurve) : Prop :=
  Forall (fun f => path_eqb (data_path f) (DP_key_block_value b) = false) fcs.

(** The text holds ASCII characters only.  The operators are modelled on such
    names: on them a character is a byte, and [int] reads no digits and no
    blanks but the ASCII ones. *)
Definition ascii_only (s : string) : bool :=
  forallb (fun c => (nat_of_ascii c <? 128)%nat) (list_ascii_of_string s).

Definition few_copies_message : string := "Need at least copy1 and copy2 present.".

Definition prepared_message (total : Z) : string :=
  "Prepared " ++ PyStr.str total ++ " copies with evaluated meshes.".

(** The frame the scene is left at after [n] passes of the loop. *)
Definition frame_after (n : nat) (before : Z) : Z :=
  match n with
  | O => before
  | S n' => Z.of_nat n' * 10
  end.

(** ** Scenes used as examples *)

Module Scenes.

(** A source object: one vertex that the node tree moves along X with the
    frame. *)
Definition cube : Object :=
  mkObject 1 "Cube" (mkVector 1 2 3) None true [NODES]
           (mkMesh [mkVector 0 0 0] None)
           (fun f => [mkVector (inject_Z f) 0 0]) true.

(** An object with a subdivision modifier only. *)
Definition plain : Object :=
  mkObject 1 "Plane" (mkVector 0 0 0) None true [SUBSURF]
           (mkMesh [mkVector 0 0 0] None)
           (fun _ => [mkVector 0 0 0]) true.

Definition snapshot (id : nat) (n : string) (x : Z) : Object :=
  mkObject id n (mkVector 0 0 0) None true []
           (mkMesh [mkVector (inject_Z x) 0 0] None)
           (fun _ => [mkVector (inject_Z x) 0 0]) false.

Definition scene (objs : list Object) (m : Mode) (sel : option nat)
    (total : Z) (relative : bool) : Blend :=
  mkBlend objs 7 sel m (GEO_Props.mk sel total relative) BEZIER.

(** The cube alone, three samples asked for. *)
Definition fresh : Blend := scene [cube] OBJECT (Some 1%nat) 3 true.

(** The cube next to a leftover "copy1". *)
Definition leftover : Blend :=
  scene [cube; snapshot 2 "copy1" 0] OBJECT (Some 1%nat) 1 true.

(** An object without a Geometry Nodes modifier is selected. *)
Definition unmodified : Blend := scene [plain] OBJECT (Some 1%nat) 3 true.

(** Three copies, as the prep operator leaves them. *)
Definition three_copies (relative : bool) : Blend :=
  scene [cube; snapshot 2 "copy1" 0; snapshot 3 "copy2" 10;
         snapshot 4 "copy3" 20]
        OBJECT (Some 1%nat) 3 relative.


(** A single copy in object mode. *)
Definition one_copy : Blend :=
  scene [cube; snapshot 2 "copy1" 0] OBJECT (Some 1%nat) 1 true.

(** A result of an earlier run next to the copies of a second run. *)
Definition second_run : Blend :=
  scene [snapshot 5 "shapekey_object" 0; snapshot 2 "copy1" 0;
         snapshot 3 "copy2" 10]
        OBJECT None 2 true.

(** A source whose location is animated: it moves along X with the frame. *)
Definition slider : Object :=
  mkObject 1 "Cube" (mkVector 7 2 3)
           (Some (fun f => mkVector (inject_Z f) 2 3)) true [NODES]
           (mkMesh [mkVector 0 0 0] None)
           (fun f => [mkVector (inject_Z f) 0 0]) true.

(** The animated source alone, at frame 7, three samples asked for. *)
Definition moving : Blend := scene [slider] OBJECT (Some 1%nat) 3 true.

(** A source at Y = 0.1, as single precision holds it. *)
Definition tenth : Object :=
  mkObject 1 "Cube" (mkVector 0 (13421773 # 134217728) 0) None true [NODES]
           (mkMesh [mkVector 0 0 0] None)
           (fun _ => [mkVector 0 0 0]) true.

(** A source far out on Y. *)
Definition far : Object :=
  mkObject 1 "Cube" (mkVector 0 1000000000 0) None true [NODES]
           (mkMesh [mkVector 0 0 0] None)
           (fun _ => [mkVector 0 0 0]) true.

(** One source alone, one sample asked for. *)
Definition alone (o : Object) : Blend := scene [o] OBJECT (Some 1%nat) 1 true.

(** The cube, and a "copy1" of the file that is in no scene. *)
Definition stray : Blend :=
  scene [cube; with_linked false (snapshot 2 "copy1" 0)]
        OBJECT (Some 1%nat) 1 true.

(** Copies created out of order. *)
Definition shuffled : list Object :=
  [snapshot 4 "copy3" 20; snapshot 2 "copy1" 0; snapshot 3 "copy2" 10].

(** The cube and the copies created out of order. *)
Definition shuffled_scene : Blend :=
  scene (cube :: shuffled) OBJECT (Some 1%nat) 3 true.

(** Snapshots two of which carry a suffix the host gave them. *)
Definition ties : Blend :=
  scene [snapshot 2 "copy2" 0; snapshot 3 "copy1.002" 0;
         snapshot 4 "copy1" 0; snapshot 5 "copy1.001" 0]
        OBJECT None 4 true.

(** The same snapshots, the two with a suffix in the other order. *)
Definition ties_swapped : Blend :=
  scene [snapshot 2 "copy2" 0; snapshot 5 "copy1.001" 0;
         snapshot 4 "copy1" 0; snapshot 3 "copy1.002" 0]
        OBJECT None 4 true.

End Scenes.

(** ** What a statement leaves behind *)

(** The state a statement leaves, whether it goes on or leaves [execute]. *)
Definition state_of {St A} (r : Step St A) : St :=
  match r with
  | Next _ s _ => s
  | Stop _ s _ => s
  end.

(** [m] never changes the part [f] of the state, however it ends. *)
Definition keeps {St A B} (f : St -> B) (m : Op St A) : Prop :=
  forall s rs, f (state_of (m s rs)) = f s.

(** [m], when it goes on, has added the reports [l] and no other. *)
Definition says {St A} (l : list Report) (m : Op St A) : Prop :=
  forall s rs,
    match m s rs with
    | Next _ _ rs' => rs' = (rs ++ l)%list
    | Stop _ _ _ => True
    end.

(** An object as the prep operator makes it: not selected, without
    modifiers and without shape keys. *)
Definition bare (o : Object) : Prop :=
  select o = false /\ modifiers o = [] /\ shape_keys (data o) = None.

Definition no_copies_message : string :=
  "No objects named 'copy1', 'copy2', etc. found.".

(** A reference once the objects [removed] are gone: it is cleared when it
    pointed at one of them. *)
Definition cleared (removed : list Object) (p : option nat) : option nat :=
  match p with
  | Some a => if existsb (fun x => (a =? ob_id x)%nat) removed then None else Some a
  | None => None
  end.

(** [o] has the vertex count of [base]: [join_shapes] takes it. *)
Definition count_fits (base o : Object) : bool :=
  (List.length (vertices (data o)) =? List.length (vertices (data base)))%nat.

(** The mesh of the base once the copies [done] went through the joining
    loop: a new block first, then one block for each copy that fits. *)
Definition joined_mesh (copy1 : Object) (done : list Object) : Mesh :=
  fold_left mesh_join_shape (filter (count_fits copy1) done)
            (mesh_shape_key_add (data copy1)).

(** The objects of the scene at that point: the base selected, with that
    mesh, and every other object deselected. *)
Definition joined_objects (copy1 : Object) (done : list Object)
    (objs : list Object) : list Object :=
  map (fun o => if (ob_id o =? ob_id copy1)%nat
                then with_select true (with_data (joined_mesh copy1 done) o)
                else with_select false o) objs.

(** The name and the geometry of a shape key. *)
Definition name_and_data (b : ShapeKey) : string * list Vector :=
  (sk_name b, sk_data b).

(** The report each pass of the relative loop makes. *)
Definition relative_report (len_rest : nat) (copy1_name : string) : Report :=
  (INFO, "Merged " ++ PyStr.str_nat len_rest ++ " copies into '"
         ++ copy1_name ++ "' with relative shape keys").

(** ** Registration

    The part of the host that [register] and [unregister] act on: the
    classes registered with [bpy.utils], by class name and in the order of
    their registration, and the attribute [geonodes_to_shapekey_props] of
    [bpy.types.Scene], which holds the name of the property group it points
    to when it is set.  The registry also holds the classes of the host and
    of other add-ons. *)
Module Registration.

Record Bpy := mkBpy {
  registered : list string;
  scene_props : option string
}.

Inductive Error := ValueError | RuntimeError | AttributeError.

(** How a call ends: normally, or with an exception, in the state reached
    when it was raised. *)
Inductive Result :=
  | Done (h : Bpy)
  | Raised (e : Error) (h : Bpy).

Definition state (r : Result) : Bpy :=
  match r with
  | Done h => h
  | Raised _ h => h
  end.

Definition is_registered (cls : string) (h : Bpy) : bool :=
  existsb (String.eqb cls) (registered h).

(** [bpy.utils.register_class(cls)]: a class that is registered already is
    refused with a [ValueError]. *)
Definition register_class (cls : string) (h : Bpy) : Result :=
  if is_registered cls h then Raised ValueError h
  else Done (mkBpy (registered h ++ [cls]) (scene_props h)).

(** [bpy.utils.unregister_class(cls)]: a class that is not registered is
    refused with a [RuntimeError]. *)
Definition unregister_class (cls : string) (h : Bpy) : Result :=
  if is_registered cls h
  then Done (mkBpy (filter (fun c => negb (String.eqb cls c)) (registered h))
                   (scene_props h))
  else Raised RuntimeError h.

(** [for cls in l: f(cls)]: the first exception ends the loop. *)
Fixpoint each (f : string -> Bpy -> Result) (l : list string) (h : Bpy)
    : Result :=
  match l with
  | [] => Done h
  | cls :: l' =>
      match f cls h with
      | Done h' => each f l' h'
      | Raised e h' => Raised e h'
      end
  end.

Definition classes : list string :=
  ["GEO_Props"; "GEO_OT_GeoNodesPrep"; "GEO_OT_MergeToShapeKeys";
   "GEO_OT_RenameAndDelete"; "GEO_PT_GeoNodesToShapeKey"].

Definition register (h : Bpy) : Result :=
  match each register_class classes h with
  | Done h' => Done (mkBpy (registered h') (Some "GEO_Props"))
  | Raised e h' => Raised e h'
  end.

(** [del] of an attribute that is not there raises [AttributeError]. *)
Definition unregister (h : Bpy) : Result :=
  match scene_props h with
  | None => Raised AttributeError h
  | Some _ => each unregister_class (List.rev classes) (mkBpy (registered h) None)
  end.

End Registration.

(** The character [c] occurs in [s]. *)
Fixpoint mentions (c : ascii) (s : string) : bool :=
  match s with
  | EmptyString => false
  | String x s' => Ascii.eqb x c || mentions c s'
  end.


(** ** Whole numbers in single and double precision *)

Lemma Qred_whole (z : Z) : Qred (inject_Z z) = inject_Z z.
Proof.
  pose proof (Qred_correct (inject_Z z)) as E.
  pose proof (gcd_Qred (inject_Z z)) as G.
  destruct (Qred (inject_Z z)) as [n d].
  unfold Qeq in E. cbn [Qnum Qden inject_Z] in E, G.
  rewrite Z.mul_1_r in E. subst n.
  assert (Hd : (Zpos d | 1)).
  { rewrite <- G. apply Z.gcd_greatest; [apply Z.divide_factor_r | reflexivity]. }
  apply Z.divide_1_r_nonneg in Hd; [|lia].
  injection Hd as ->. rewrite Z.mul_1_r. reflexivity.
Qed.

Lemma floor_log2_whole (z : Z) :
  0 < z -> Float.floor_log2 (inject_Z z) = Z.log2 z.
Proof.
  intros Hz. unfold Float.floor_log2. cbn [Qnum Qden inject_Z].
  change (Z.log2 1) with 0. rewrite Z.sub_0_r.
  assert (H : Qle_bool (2 ^ Z.log2 z) (inject_Z z) = true).
  { apply Qle_bool_iff.
    change (2%Q) with (inject_Z 2).
    rewrite <- Zpower_Qpower by apply Z.log2_nonneg.
    rewrite <- Zle_Qle.
    apply Z.log2_spec. exact Hz. }
  rewrite H. reflexivity.
Qed.

Lemma round_even_whole (q : Q) (m : Z) :
  (q == inject_Z m)%Q -> Float.round_even q = m.
Proof.
  intros E. unfold Float.round_even.
  rewrite (Qfloor_comp _ _ E), Qfloor_Z.
  assert (H : (q - inject_Z m ?= 1 # 2)%Q = Lt).
  { apply Qlt_alt. rewrite E. unfold Qminus. rewrite Qplus_opp_r. reflexivity. }
  rewrite H. reflexivity.
Qed.

(** A whole number below [2 ^ prec] in size is a number of the format. *)
Lemma round_whole (prec emin z : Z) :
  0 < prec -> emin <= 0 -> Z.abs z < 2 ^ prec ->
  Float.round prec emin (inject_Z z) = inject_Z z.
Proof.
  intros Hprec Hemin Hz. unfold Float.round.
  destruct (Z.eq_dec z 0) as [-> | Hnz]; [reflexivity|].
  assert (Hq : Qeq_bool (inject_Z z) 0 = false).
  { destruct (Qeq_bool (inject_Z z) 0) eqn:E; [|reflexivity].
    apply Qeq_bool_iff in E. unfold Qeq in E. cbn in E. lia. }
  rewrite Hq.
  change (Qabs (inject_Z z)) with (inject_Z (Z.abs z)).
  rewrite floor_log2_whole by lia.
  set (L := Z.log2 (Z.abs z)).
  assert (HL : 0 <= L < prec).
  { split; [apply Z.log2_nonneg|]. apply Z.log2_lt_pow2; lia. }
  rewrite Z.max_l by lia.
  set (k := prec - 1 - L).
  replace (L - prec + 1) with (- k) by (unfold k; lia).
  assert (Hk : 0 <= k) by (unfold k; lia).
  assert (Hulp : (2 ^ (- k) == / inject_Z (2 ^ k))%Q).
  { rewrite Qpower_opp. change (2%Q) with (inject_Z 2).
    rewrite <- Zpower_Qpower by exact Hk. reflexivity. }
  assert (Hpos : ~ (inject_Z (2 ^ k) == 0)%Q).
  { unfold Qeq. cbn. pose proof (Z.pow_pos_nonneg 2 k). lia. }
  transitivity (Qred (inject_Z z)); [|apply Qred_whole].
  apply Qred_complete.
  rewrite (round_even_whole _ (z * 2 ^ k)).
  - rewrite Hulp, inject_Z_mult. field. exact Hpos.
  - rewrite Hulp, inject_Z_mult. field. exact Hpos.
Qed.

Lemma single_double_sum (y n : Z) :
  Z.abs (y + n) < 2 ^ 24 ->
  Float.single (Float.double (inject_Z y + inject_Z n)) = inject_Z (y + n).
Proof.
  intros H.
  replace (inject_Z y + inject_Z n)%Q with (inject_Z (y + n)).
  - unfold Float.single, Float.double.
    rewrite (round_whole 53 (-1022)); [apply round_whole| | |]; try lia.
  - unfold Qplus, inject_Z. cbn [Qnum Qden]. rewrite !Z.mul_1_r. reflexivity.
Qed.

(** ** Lists *)

Lemma filter_none {A} (keep : A -> bool) (l : list A) :
  (forall x, In x l -> keep x = false) -> filter keep l = [].
Proof.
  induction l as [|x l IH]; intros H; [reflexivity|].
  cbn [filter]. rewrite (H x (or_introl eq_refl)).
  apply IH. intros y Hy. apply H. right. exact Hy.
Qed.

Lemma filter_all {A} (keep : A -> bool) (l : list A) :
  (forall x, In x l -> keep x = true) -> filter keep l = l.
Proof.
  induction l as [|x l IH]; intros H; [reflexivity|].
  cbn [filter]. rewrite (H x (or_introl eq_refl)). f_equal.
  apply IH. intros y Hy. apply H. right. exact Hy.
Qed.

(** * Properties *)

(** ** The sort key on examples *)

Example idx_copy12 : idx_of_name "copy12" = 12.
Proof. reflexivity. Qed.

Example idx_suffixed : idx_of_name "copy1.001" = 0.
Proof. reflexivity. Qed.

Example idx_bare : idx_of_name "copy" = 0.
Proof. reflexivity. Qed.

Example idx_spaces_sign : idx_of_name "copy -1_0 " = -10.
Proof. reflexivity. Qed.

Example idx_twice : idx_of_name "copy1copy2" = 12.
Proof. reflexivity. Qed.

(** The separators 28 to 31 are no blanks for [int]: the name "copy" followed
    by the character 28 and "5" has index 0, and after a tab the 5 is read. *)
Example idx_separator :
  idx_of_name ("copy" ++ String (ascii_of_nat 28) "5") = 0 /\
  idx_of_name ("copy" ++ String (ascii_of_nat 9) "5") = 5.
Proof. split; reflexivity. Qed.

Example str_examples : PyStr.str 0 = "0" /\ PyStr.str 48 = "48" /\ PyStr.str (-7) = "-7".
Proof. repeat split. Qed.

(** ** Statements and loops *)

(** A loop whose body always goes on and keeps an invariant of the state
    and the reports goes on and keeps the invariant. *)
Lemma for_each_invariant {St A} (P : St -> list Report -> Prop)
    (body : A -> Op St unit) (l : list A) :
  (forall x s rs, In x l -> P s rs ->
     exists s' rs', body x s rs = Next tt s' rs' /\ P s' rs') ->
  forall s rs, P s rs ->
    exists s' rs', for_each l body s rs = Next tt s' rs' /\ P s' rs'.
Proof.
  induction l as [|x l IH]; intros Hbody s rs HP.
  - exists s, rs. split; [reflexivity | exact HP].
  - destruct (Hbody x s rs (or_introl eq_refl) HP) as (s1 & rs1 & E1 & HP1).
    destruct (IH (fun y s0 rs0 Hy => Hbody y s0 rs0 (or_intror Hy)) s1 rs1 HP1)
      as (s2 & rs2 & E2 & HP2).
    exists s2, rs2. split; [|exact HP2].
    cbn [for_each]. unfold bind. rewrite E1. exact E2.
Qed.

Lemma find_is_nodes_none (ms : list ModifierType) :
  ~ In NODES ms -> find is_nodes ms = None.
Proof.
  induction ms as [|m ms IH]; intros H; [reflexivity|].
  cbn [find]. destruct m; cbn [is_nodes];
    try (apply IH; intros Hin; apply H; right; exact Hin).
  exfalso. apply H. left. reflexivity.
Qed.

Lemma find_is_nodes_some (ms : list ModifierType) :
  In NODES ms -> exists m, find is_nodes ms = Some m.
Proof.
  induction ms as [|m ms IH]; intros H; [destruct H|].
  cbn [find]. destruct m; cbn [is_nodes]; try (eexists; reflexivity);
    apply IH; destruct H as [H|H]; try discriminate; exact H.
Qed.

(** ** The prep operator refuses a missing source or modifier *)

Lemma prep_no_selection (s : Blend) :
  selected s = None ->
  run GEO_OT_GeoNodesPrep.execute s
  = mkOutcome CANCELLED [(ERROR, "No object selected.")] s.
Proof.
  intros Hnone. unfold run, GEO_OT_GeoNodesPrep.execute, bind, gets.
  rewrite Hnone. reflexivity.
Qed.

Lemma prep_no_modifier (s : Blend) (o : Object) :
  selected s = Some o -> ~ In NODES (modifiers o) ->
  run GEO_OT_GeoNodesPrep.execute s
  = mkOutcome CANCELLED
      [(ERROR, "Selected object has no Geometry Nodes modifier.")] s.
Proof.
  intros Hsel Hmod. unfold run, GEO_OT_GeoNodesPrep.execute, bind, gets.
  rewrite Hsel, (find_is_nodes_none _ Hmod). reflexivity.
Qed.

(** C5. When no source object is selected, or the selected object has no
    Geometry Nodes modifier, the prep operator reports one error, returns
    CANCELLED and leaves the whole host state as it was: no object is
    created and nothing else changes. *)
Theorem prep_rejects_without_mutation (s : Blend) :
  selected s = None \/
  (exists o, selected s = Some o /\ ~ In NODES (modifiers o)) ->
  exists msg,
    run GEO_OT_GeoNodesPrep.execute s = mkOutcome CANCELLED [(ERROR, msg)] s.
Proof.
  intros [Hnone | (o & Hsel & Hmod)].
  - eexists. apply prep_no_selection. exact Hnone.
  - eexists. apply (prep_no_modifier s o); assumption.
Qed.

(** ** The baking loop *)

Lemma bake_step (base : Object) (i : Z) (s : Blend) (rs : list Report) :
  GEO_OT_GeoNodesPrep.bake base i s rs =
  Next tt
    (set_objects
       (objects s ++
        [mkObject (fresh_id (objects s))
                  (unique_name (map name (objects s)) (copy_name i))
                  (offset_location base i) None true []
                  (mkMesh (evaluated base (i * 10)) None)
                  (fun _ => evaluated base (i * 10)) false])
       (set_frame_current (i * 10) s)) rs.
Proof. reflexivity. Qed.

Lemma bake_loop (base : Object) (m : nat) :
  forall (a : nat) (s : Blend) (rs : list Report),
  exists created,
    for_each (map Z.of_nat (seq a m)) (GEO_OT_GeoNodesPrep.bake base) s rs =
    Next tt
      (set_objects (objects s ++ created)
         (set_frame_current
            (match m with
             | O => frame_current s
             | S m' => Z.of_nat (a + m') * 10
             end) s)) rs
    /\ List.length created = m
    /\ forall k o, nth_error created k = Some o ->
         baked_from base (objects s ++ firstn k created) (Z.of_nat (a + k)) o.
Proof.
  induction m as [|m IH]; intros a s rs.
  - exists []. split; [|split].
    + cbn. unfold ret. rewrite app_nil_r. destruct s; reflexivity.
    + reflexivity.
    + intros [|k] o H; discriminate H.
  - cbn [seq map for_each]. unfold bind at 1. rewrite bake_step.
    match goal with
    | |- context [for_each _ _ ?s1 _] =>
        destruct (IH (S a) s1 rs) as (created & E & Hlen & Hnth)
    end.
    eexists (_ :: created). split; [|split].
    + rewrite E. f_equal. cbn [objects set_objects set_frame_current frame_current
                                active mode props ipo_new].
      rewrite <- app_assoc. cbn [app].
      destruct m as [|m']; unfold set_objects, set_frame_current; cbn;
        repeat f_equal; lia.
    + cbn [List.length]. rewrite Hlen. reflexivity.
    + intros [|k] o H.
      * cbn in H. injection H as <-. cbn [firstn]. rewrite app_nil_r.
        rewrite Nat.add_0_r. repeat split.
      * cbn [nth_error] in H. apply Hnth in H.
        cbn [objects set_objects] in H. rewrite <- app_assoc in H. cbn [app] in H.
        cbn [firstn]. replace (a + S k)%nat with (S a + k)%nat by lia. exact H.
Qed.

(** ** The index of a numbered copy *)

Module Digits.

Lemma lstrip_uint (d : uint) :
  PyStr.lstrip (NilEmpty.string_of_uint d) = NilEmpty.string_of_uint d.
Proof. destruct d; reflexivity. Qed.

Lemma rstrip_uint (d : uint) :
  PyStr.rstrip (NilEmpty.string_of_uint d) = NilEmpty.string_of_uint d.
Proof.
  induction d; cbn [NilEmpty.string_of_uint PyStr.rstrip]; try reflexivity;
    rewrite IHd; destruct d; reflexivity.
Qed.

Lemma replace_uint (d : uint) :
  PyStr.replace_aux "copy" "" 0 (NilEmpty.string_of_uint d)
  = NilEmpty.string_of_uint d.
Proof.
  induction d; cbn [NilEmpty.string_of_uint]; try reflexivity;
    cbn; cbn in IHd; rewrite IHd; reflexivity.
Qed.

Lemma replace_after_copy (s : string) :
  PyStr.replace_aux "copy" "" 0 ("copy" ++ s) = PyStr.replace_aux "copy" "" 0 s.
Proof. destruct s; reflexivity. Qed.

Lemma digits_acc_uint (d : uint) :
  forall (acc : nat) (prev : bool),
    d <> Nil \/ prev = true ->
    PyStr.digits_acc (Z.of_nat acc) prev (NilEmpty.string_of_uint d)
    = Some (Z.of_nat (Nat.of_uint_acc d acc)).
Proof.
  induction d; intros acc prev H; cbn [NilEmpty.string_of_uint Nat.of_uint_acc];
    [ destruct H as [H | ->]; [congruence | reflexivity] | .. ];
    cbn [PyStr.digits_acc]; unfold PyStr.digit_of; cbn [nat_of_ascii];
    match goal with
    | |- context [if ?c then _ else _] =>
        let b := eval vm_compute in c in change c with b; cbv iota
    end;
    match goal with
    | |- PyStr.digits_acc ?z true _ = Some (Z.of_nat (Nat.of_uint_acc d ?n)) =>
        replace z with (Z.of_nat n)
          by (rewrite ?Nat.tail_mul_spec; cbn - [Z.mul Z.of_nat Nat.mul]; lia)
    end;
    apply IHd; right; reflexivity.
Qed.

Lemma to_uint_nonnil (n : nat) : Nat.to_uint n <> Nil.
Proof.
  rewrite <- (Unsigned.of_to n) at 1. rewrite Unsigned.to_of.
  apply DecimalFacts.unorm_nonnil.
Qed.

Lemma str_nat_uint (n : nat) :
  PyStr.str_nat n = NilEmpty.string_of_uint (Nat.to_uint n).
Proof.
  unfold PyStr.str_nat, NilZero.string_of_uint.
  pose proof (to_uint_nonnil n). destruct (Nat.to_uint n); congruence.
Qed.

Lemma int_str_nat (n : nat) : PyStr.int (PyStr.str_nat n) = Some (Z.of_nat n).
Proof.
  rewrite str_nat_uint. unfold PyStr.int, PyStr.strip.
  rewrite lstrip_uint, rstrip_uint.
  pose proof (to_uint_nonnil n) as Hn.
  pose proof (digits_acc_uint (Nat.to_uint n) 0 false (or_introl Hn)) as E.
  change (Z.of_nat 0) with 0 in E.
  fold (Nat.of_uint (Nat.to_uint n)) in E. rewrite Unsigned.of_to in E.
  destruct (Nat.to_uint n); try congruence; exact E.
Qed.

End Digits.

(** The name ["copy<n>"] has index [n]. *)
Lemma idx_of_numbered (n : nat) :
  idx_of_name ("copy" ++ PyStr.str_nat n) = Z.of_nat n.
Proof.
  unfold idx_of_name, PyStr.replace.
  rewrite Digits.replace_after_copy, Digits.str_nat_uint, Digits.replace_uint.
  rewrite <- Digits.str_nat_uint, Digits.int_str_nat. reflexivity.
Qed.

Lemma idx_of_copy_name (i : Z) : 0 <= i -> idx_of_name (copy_name i) = i + 1.
Proof.
  intros Hi. unfold copy_name, PyStr.str.
  destruct (Z.ltb_spec (i + 1) 0) as [H|H]; [lia|].
  rewrite idx_of_numbered. lia.
Qed.

Lemma copy_name_inj (i j : Z) :
  0 <= i -> 0 <= j -> copy_name i = copy_name j -> i = j.
Proof.
  intros Hi Hj E. apply (f_equal idx_of_name) in E.
  rewrite !idx_of_copy_name in E by assumption. lia.
Qed.

(** ** The prep operator on a source with a Geometry Nodes modifier *)

Lemma prep_run (s : Blend) (base : Object) :
  selected s = Some base -> In NODES (modifiers base) ->
  exists created,
    run GEO_OT_GeoNodesPrep.execute s =
    mkOutcome FINISHED [(INFO, prepared_message (GEO_Props.total_frames (props s)))]
      (set_objects (objects s ++ created)
         (set_frame_current
            (frame_after (Z.to_nat (GEO_Props.total_frames (props s)))
                         (frame_current s)) s))
    /\ List.length created = Z.to_nat (GEO_Props.total_frames (props s))
    /\ forall k o, nth_error created k = Some o ->
         baked_from base (objects s ++ firstn k created) (Z.of_nat k) o.
Proof.
  intros Hsel Hmod.
  destruct (find_is_nodes_some _ Hmod) as (gm & Hgm).
  destruct (bake_loop base (Z.to_nat (GEO_Props.total_frames (props s))) 0 s [])
    as (created & E & Hlen & Hnth).
  exists created. split; [|split; assumption].
  unfold run, GEO_OT_GeoNodesPrep.execute, bind, gets, range.
  rewrite Hsel, Hgm, E.
  unfold frame_after, prepared_message.
  destruct (active s) as [a|] eqn:Ha;
    unfold modify, ret, report, return_, set_active, set_objects,
      set_frame_current;
    cbn [objects frame_current active mode props ipo_new app];
    rewrite ?Ha; reflexivity.
Qed.

Lemma unique_name_free (used : list string) (n : string) :
  ~ In n used -> unique_name used n = n.
Proof.
  intros H. unfold unique_name, name_taken.
  destruct (existsb (String.eqb n) used) eqn:E; [|reflexivity].
  apply existsb_exists in E. destruct E as (x & Hx & Heq).
  apply String.eqb_eq in Heq. subst x. contradiction.
Qed.

(** When none of the names asked for is taken beforehand, every pass gets
    the name it asks for. *)
Lemma baked_names_free (base : Object) (objs created : list Object) :
  (forall k o, nth_error created k = Some o ->
     baked_from base (objs ++ firstn k created) (Z.of_nat k) o) ->
  (forall o k, In o objs -> (k < List.length created)%nat ->
     name o <> copy_name (Z.of_nat k)) ->
  forall k o, nth_error created k = Some o -> name o = copy_name (Z.of_nat k).
Proof.
  intros Hbaked Hfree k.
  induction k as [k IH] using lt_wf_ind. intros o Hk.
  destruct (Hbaked k o Hk) as (Hname & _). rewrite Hname.
  apply unique_name_free. intros Hin.
  assert (Hlt : (k < List.length created)%nat).
  { apply nth_error_Some. congruence. }
  apply in_map_iff in Hin. destruct Hin as (o' & Heq & Hin).
  apply in_app_or in Hin. destruct Hin as [Hin | Hin].
  - exact (Hfree o' k Hin Hlt Heq).
  - apply In_nth_error in Hin. destruct Hin as (j & Hj).
    rewrite nth_error_firstn in Hj.
    destruct (Nat.ltb_spec j k) as [Hjk|]; [|discriminate].
    rewrite (IH j Hjk o' Hj) in Heq.
    apply copy_name_inj in Heq; lia.
Qed.

(** C3 (amended). For every N >= 1, on a source object that carries a
    Geometry Nodes modifier, and when no object of the file is already named
    "copy1" ... "copyN", the prep operator finishes and appends exactly N
    objects, all in the scene; the i-th of them (1-based) is named "copy<i>",
    its mesh is the source evaluated at frame (i-1)*10, and its location is
    the location the source has at that frame with 2*i added to Y, the sum
    being a Python float stored in single precision.  The offset is 2*i
    exactly when the Y of the source is a whole number and the sum stays
    below 2^24 in size. *)
Theorem prep_creates_numbered_copies (s : Blend) (base : Object) (N : Z) :
  selected s = Some base -> In NODES (modifiers base) ->
  GEO_Props.total_frames (props s) = N -> 1 <= N ->
  (forall o i, In o (objects s) -> 1 <= i <= N ->
     name o <> "copy" ++ PyStr.str i) ->
  exists created,
    status (run GEO_OT_GeoNodesPrep.execute s) = FINISHED /\
    objects (final (run GEO_OT_GeoNodesPrep.execute s))
      = (objects s ++ created)%list /\
    scene_objects (final (run GEO_OT_GeoNodesPrep.execute s))
      = (scene_objects s ++ created)%list /\
    Z.of_nat (List.length created) = N /\
    forall i, 1 <= i <= N ->
      exists o, nth_error created (Z.to_nat (i - 1)) = Some o /\
        name o = "copy" ++ PyStr.str i /\
        data o = mkMesh (evaluated base ((i - 1) * 10)) None /\
        location o =
          mkVector (vx (location_now ((i - 1) * 10) base))
                   (Float.single
                      (Float.double
                         (vy (location_now ((i - 1) * 10) base)
                          + inject_Z (2 * i))))
                   (vz (location_now ((i - 1) * 10) base)) /\
        forall y, vy (location_now ((i - 1) * 10) base) = inject_Z y ->
                  Z.abs (y + 2 * i) < 2 ^ 24 ->
                  vy (location o) = inject_Z (y + 2 * i).
Proof.
  intros Hsel Hmod HN Hpos Hfree.
  destruct (prep_run s base Hsel Hmod) as (created & E & Hlen & Hnth).
  rewrite HN in *. exists created. rewrite E. cbn [status final].
  split; [reflexivity|]. split; [reflexivity|].
  split.
  { unfold scene_objects. cbn [objects set_objects]. rewrite filter_app.
    f_equal. apply filter_all. intros o Ho.
    apply In_nth_error in Ho. destruct Ho as (k & Hk).
    destruct (Hnth k o Hk) as (_ & _ & _ & Hl & _). exact Hl. }
  split; [lia|].
  intros i Hi.
  destruct (nth_error created (Z.to_nat (i - 1))) as [o|] eqn:Ho.
  2:{ apply nth_error_None in Ho. lia. }
  exists o. split; [reflexivity|].
  assert (Hnames : name o = copy_name (Z.of_nat (Z.to_nat (i - 1)))).
  { apply (baked_names_free base (objects s) created Hnth); [|exact Ho].
    intros o' k Hin Hk. unfold copy_name. apply Hfree; [exact Hin | lia]. }
  destruct (Hnth _ _ Ho) as (_ & Hloc & _ & _ & Hdata).
  rewrite Z2Nat.id in * by lia.
  unfold copy_name in Hnames. unfold offset_location in Hloc.
  replace (i - 1 + 1) with i in * by lia.
  split; [exact Hnames|]. split; [exact Hdata|]. split; [exact Hloc|].
  intros y Hy Hsmall. rewrite Hloc. cbn [vy]. rewrite Hy.
  apply single_double_sum. exact Hsmall.
Qed.

(** C9. After a prep invocation that finishes, with sample count N >= 1, the
    current frame of the scene is (N-1)*10, the frame of the last sample,
    whatever frame was current before: it is not set back. *)
Theorem prep_leaves_last_sample_frame (s : Blend) (N : Z) :
  status (run GEO_OT_GeoNodesPrep.execute s) = FINISHED ->
  GEO_Props.total_frames (props s) = N -> 1 <= N ->
  frame_current (final (run GEO_OT_GeoNodesPrep.execute s)) = (N - 1) * 10 /\
  (frame_current s <> (N - 1) * 10 ->
   frame_current (final (run GEO_OT_GeoNodesPrep.execute s)) <> frame_current s).
Proof.
  intros Hfin HN Hpos.
  assert (E : frame_current (final (run GEO_OT_GeoNodesPrep.execute s))
              = (N - 1) * 10).
  { destruct (selected s) as [base|] eqn:Hsel.
    - destruct (in_dec (fun a b : ModifierType =>
                          ltac:(decide equality) : {a = b} + {a <> b})
                       NODES (modifiers base)) as [Hmod | Hmod].
      + destruct (prep_run s base Hsel Hmod) as (created & E & _).
        rewrite E, HN. cbn [final frame_current set_objects set_frame_current].
        unfold frame_after. destruct (Z.to_nat N) as [|n'] eqn:En; lia.
      + rewrite (prep_no_modifier s base Hsel Hmod) in Hfin. discriminate Hfin.
    - rewrite (prep_no_selection s Hsel) in Hfin. discriminate Hfin. }
  split; [exact E | congruence].
Qed.

(** C10 (amended). An object a finished prep invocation appends has the X
    and the Z the source object has at the frame the object samples, frame
    10*k for the k-th object (0-based): only Y is written to, and it gets
    the Y of the source at that frame plus 2*(k+1), rounded to single
    precision.  When the location of the source is not animated these are
    the X and Z the source had when the operator was invoked. *)
Theorem prep_copies_keep_x_and_z (s : Blend) (base : Object) :
  selected s = Some base ->
  status (run GEO_OT_GeoNodesPrep.execute s) = FINISHED ->
  exists created,
    objects (final (run GEO_OT_GeoNodesPrep.execute s))
      = (objects s ++ created)%list /\
    forall k o, nth_error created k = Some o ->
      vx (location o) = vx (location_now (Z.of_nat k * 10) base) /\
      vz (location o) = vz (location_now (Z.of_nat k * 10) base) /\
      vy (location o)
        = Float.single
            (Float.double
               (vy (location_now (Z.of_nat k * 10) base)
                + inject_Z (2 * (Z.of_nat k + 1)))) /\
      (location_curve base = None ->
       vx (location o) = vx (location_now (frame_current s) base) /\
       vz (location o) = vz (location_now (frame_current s) base)).
Proof.
  intros Hsel Hfin.
  destruct (in_dec (fun a b : ModifierType =>
                      ltac:(decide equality) : {a = b} + {a <> b})
                   NODES (modifiers base)) as [Hmod | Hmod].
  2:{ rewrite (prep_no_modifier s base Hsel Hmod) in Hfin. discriminate Hfin. }
  destruct (prep_run s base Hsel Hmod) as (created & E & _ & Hnth).
  exists created. rewrite E. split; [reflexivity|].
  intros k o Hk.
  destruct (Hnth k o Hk) as (_ & Hloc & _). rewrite Hloc.
  unfold offset_location. cbn [vx vy vz].
  split; [reflexivity|]. split; [reflexivity|]. split; [reflexivity|].
  intros Hnone. unfold location_now. rewrite Hnone. split; reflexivity.
Qed.

(** *** The three claims above at concrete scenes *)

Lemma prep_rejects_without_mutation_witness :
  exists msg,
    run GEO_OT_GeoNodesPrep.execute Scenes.unmodified
    = mkOutcome CANCELLED [(ERROR, msg)] Scenes.unmodified.
Proof.
  apply prep_rejects_without_mutation. right. exists Scenes.plain.
  split; [reflexivity|]. cbn. intros [H|[]]. discriminate H.
Defined.

Lemma cube_name_not_numbered (o : Object) (i : Z) :
  In o (objects Scenes.fresh) -> name o <> "copy" ++ PyStr.str i.
Proof. intros [<-|[]]. cbn. discriminate. Defined.

Lemma prep_creates_numbered_copies_witness :
  exists created,
    status (run GEO_OT_GeoNodesPrep.execute Scenes.fresh) = FINISHED /\
    objects (final (run GEO_OT_GeoNodesPrep.execute Scenes.fresh))
      = (objects Scenes.fresh ++ created)%list /\
    scene_objects (final (run GEO_OT_GeoNodesPrep.execute Scenes.fresh))
      = (scene_objects Scenes.fresh ++ created)%list /\
    Z.of_nat (List.length created) = 3 /\
    forall i, 1 <= i <= 3 ->
      exists o, nth_error created (Z.to_nat (i - 1)) = Some o /\
        name o = "copy" ++ PyStr.str i /\
        data o = mkMesh (evaluated Scenes.cube ((i - 1) * 10)) None /\
        location o =
          mkVector (vx (location_now ((i - 1) * 10) Scenes.cube))
                   (Float.single
                      (Float.double
                         (vy (location_now ((i - 1) * 10) Scenes.cube)
                          + inject_Z (2 * i))))
                   (vz (location_now ((i - 1) * 10) Scenes.cube)) /\
        forall y, vy (location_now ((i - 1) * 10) Scenes.cube) = inject_Z y ->
                  Z.abs (y + 2 * i) < 2 ^ 24 ->
                  vy (location o) = inject_Z (y + 2 * i).
Proof.
  apply (prep_creates_numbered_copies Scenes.fresh Scenes.cube 3).
  - reflexivity.
  - left. reflexivity.
  - reflexivity.
  - lia.
  - intros o i Hin _. apply cube_name_not_numbered. exact Hin.
Defined.

Lemma prep_leaves_last_sample_frame_witness :
  frame_current (final (run GEO_OT_GeoNodesPrep.execute Scenes.fresh))
    = (3 - 1) * 10 /\
  (frame_current Scenes.fresh <> (3 - 1) * 10 ->
   frame_current (final (run GEO_OT_GeoNodesPrep.execute Scenes.fresh))
     <> frame_current Scenes.fresh).
Proof.
  apply (prep_leaves_last_sample_frame Scenes.fresh 3).
  - reflexivity.
  - reflexivity.
  - lia.
Defined.

Lemma prep_copies_keep_x_and_z_witness :
  exists created,
    objects (final (run GEO_OT_GeoNodesPrep.execute Scenes.fresh))
      = (objects Scenes.fresh ++ created)%list /\
    forall k o, nth_error created k = Some o ->
      vx (location o) = vx (location_now (Z.of_nat k * 10) Scenes.cube) /\
      vz (location o) = vz (location_now (Z.of_nat k * 10) Scenes.cube) /\
      vy (location o)
        = Float.single
            (Float.double
               (vy (location_now (Z.of_nat k * 10) Scenes.cube)
                + inject_Z (2 * (Z.of_nat k + 1)))) /\
      (location_curve Scenes.cube = None ->
       vx (location o) = vx (location_now (frame_current Scenes.fresh) Scenes.cube) /\
       vz (location o) = vz (location_now (frame_current Scenes.fresh) Scenes.cube)).
Proof.
  apply (prep_copies_keep_x_and_z Scenes.fresh Scenes.cube); reflexivity.
Defined.

(** The copies of the cube at (1, 2, 3): Y is 4, 6 and 8. *)
Example prep_cube_locations :
  map location
      (skipn 1 (objects (final (run GEO_OT_GeoNodesPrep.execute Scenes.fresh))))
  = [mkVector 1 4 3; mkVector 1 6 3; mkVector 1 8 3].
Proof. vm_compute. reflexivity. Qed.

(** C10 as stated fails for a source whose location is animated: with the
    scene at frame 7 the source is at X = 7, and the three copies get the X
    of the frames 0, 10 and 20 they sample. *)
Lemma prep_animated_source_counterexample :
  selected Scenes.moving = Some Scenes.slider /\
  status (run GEO_OT_GeoNodesPrep.execute Scenes.moving) = FINISHED /\
  vx (location_now (frame_current Scenes.moving) Scenes.slider) = 7%Q /\
  map (fun o => vx (location o))
      (skipn 1 (objects (final (run GEO_OT_GeoNodesPrep.execute Scenes.moving))))
  = [0%Q; 10%Q; 20%Q].
Proof. vm_compute. repeat split. Qed.

(** In single precision the offset is not always 2*i: next to a source at
    Y = 0.1 (the single-precision number nearest to it) the first copy is
    1.9999999 away, and next to a source at Y = 10^9 the first copy has the
    Y of the source. *)
Example prep_offset_rounded :
  map (fun o => Qred (vy (location o) - vy (location Scenes.tenth)))
      (skipn 1 (objects (final (run GEO_OT_GeoNodesPrep.execute
                                  (Scenes.alone Scenes.tenth)))))
  = [(268435443 # 134217728)%Q]
  /\
  map (fun o => vy (location o))
      (skipn 1 (objects (final (run GEO_OT_GeoNodesPrep.execute
                                  (Scenes.alone Scenes.far)))))
  = [vy (location Scenes.far)].
Proof. vm_compute. split; reflexivity. Qed.

(** A "copy1" that is in the file but not in the scene takes the name all
    the same: the new object is "copy1.001", and it is the only snapshot of
    the scene. *)
Example prep_name_taken_outside_scene :
  map name (objects (final (run GEO_OT_GeoNodesPrep.execute Scenes.stray)))
    = ["Cube"; "copy1"; "copy1.001"] /\
  map name (filter is_copy
              (scene_objects (final (run GEO_OT_GeoNodesPrep.execute Scenes.stray))))
    = ["copy1.001"].
Proof. split; reflexivity. Qed.

(** With "copy1" already in the scene the host does not give the new object
    the name asked for. *)
Example prep_leftover_names :
  map name (objects (final (run GEO_OT_GeoNodesPrep.execute Scenes.leftover)))
  = ["Cube"; "copy1"; "copy1.001"].
Proof. reflexivity. Qed.

(** C3 as stated fails on a scene that already holds an object named
    "copy1": with N = 1 the prep operator finishes and appends one object,
    and that object is not named "copy1". *)
Lemma prep_name_taken_counterexample :
  selected Scenes.leftover = Some Scenes.cube /\
  In NODES (modifiers Scenes.cube) /\
  GEO_Props.total_frames (props Scenes.leftover) = 1 /\
  status (run GEO_OT_GeoNodesPrep.execute Scenes.leftover) = FINISHED /\
  ~ (exists created o,
       objects (final (run GEO_OT_GeoNodesPrep.execute Scenes.leftover))
         = (objects Scenes.leftover ++ created)%list /\
       nth_error created 0 = Some o /\ name o = "copy1").
Proof.
  split; [reflexivity|]. split; [left; reflexivity|].
  split; [reflexivity|]. split; [reflexivity|].
  intros (created & o & E & Ho & Hname).
  change (objects (final (run GEO_OT_GeoNodesPrep.execute Scenes.leftover)))
    with (objects Scenes.leftover ++
          [mkObject 3 "copy1.001"
             (offset_location Scenes.cube 0) None true []
             (mkMesh (evaluated Scenes.cube 0) None)
             (fun _ => evaluated Scenes.cube 0) false])%list in E.
  apply app_inv_head in E. subst created.
  cbn in Ho. injection Ho as <-. cbn in Hname. discriminate Hname.
Qed.

(** ** The stable sort by key *)

Section SortFacts.
Context {A : Type} (key : A -> Z).

Lemma insert_by_perm (x : A) (l : list A) :
  Permutation (insert_by key x l) (x :: l).
Proof.
  induction l as [|y l IH]; cbn [insert_by]; [reflexivity|].
  destruct (key x <=? key y); [reflexivity|].
  rewrite IH. apply perm_swap.
Qed.

Lemma sort_by_perm (l : list A) : Permutation (sort_by key l) l.
Proof.
  induction l as [|x l IH]; cbn [sort_by fold_right]; [reflexivity|].
  fold (sort_by key l). rewrite insert_by_perm, IH. reflexivity.
Qed.

Lemma insert_by_sorted (x : A) (l : list A) :
  StronglySorted (le_by key) l -> StronglySorted (le_by key) (insert_by key x l).
Proof.
  induction l as [|y l IH]; intros Hs; cbn [insert_by].
  - constructor; constructor.
  - destruct (Z.leb_spec (key x) (key y)) as [Hle | Hgt].
    + constructor; [exact Hs|].
      apply StronglySorted_inv in Hs. destruct Hs as (_ & Hall).
      constructor; [exact Hle|].
      eapply Forall_impl; [|exact Hall]. unfold le_by. intros a Ha; cbn in *; lia.
    + apply StronglySorted_inv in Hs. destruct Hs as (Hs & Hall).
      constructor; [apply IH; exact Hs|].
      apply Forall_forall. intros a Ha.
      apply (Permutation_in _ (insert_by_perm x l)) in Ha.
      destruct Ha as [<- | Ha]; [unfold le_by; lia|].
      rewrite Forall_forall in Hall. apply Hall. exact Ha.
Qed.

Lemma sort_by_sorted (l : list A) : StronglySorted (le_by key) (sort_by key l).
Proof.
  induction l as [|x l IH]; cbn [sort_by fold_right]; [constructor|].
  apply insert_by_sorted. exact IH.
Qed.

(** Two sorted arrangements of the same elements show the same keys in
    the same order. *)
Lemma sorted_perm_keys (l1 : list A) :
  forall l2, StronglySorted (le_by key) l1 -> StronglySorted (le_by key) l2 ->
    Permutation l1 l2 -> map key l1 = map key l2.
Proof.
  induction l1 as [|a l1 IH]; intros l2 H1 H2 Hp.
  - apply Permutation_nil in Hp. subst. reflexivity.
  - destruct l2 as [|b l2].
    { apply Permutation_sym, Permutation_nil in Hp. discriminate Hp. }
    apply StronglySorted_inv in H1. destruct H1 as (H1 & Ha).
    apply StronglySorted_inv in H2. destruct H2 as (H2 & Hb).
    rewrite Forall_forall in Ha, Hb.
    assert (Hkey : key a = key b).
    { assert (Hab : (le_by key) a b).
      { assert (Hin : In b (a :: l1))
          by (apply (Permutation_in _ (Permutation_sym Hp)); left; reflexivity).
        destruct Hin as [<- | Hin]; [unfold le_by; lia | apply Ha, Hin]. }
      assert (Hba : (le_by key) b a).
      { assert (Hin : In a (b :: l2))
          by (apply (Permutation_in _ Hp); left; reflexivity).
        destruct Hin as [<- | Hin]; [unfold le_by; lia | apply Hb, Hin]. }
      unfold le_by in *. lia. }
    cbn [map]. rewrite Hkey. f_equal.
    (* the tails hold the same keys, sorted *)
    assert (Hpk : Permutation (map key l1) (map key l2)).
    { apply (Permutation_map key) in Hp. cbn [map] in Hp.
      rewrite Hkey in Hp. apply Permutation_cons_inv in Hp. exact Hp. }
    clear IH Hp Ha Hb Hkey.
    assert (S1 : StronglySorted Z.le (map key l1)).
    { clear - H1. induction H1; cbn [map]; constructor; [assumption|].
      rewrite Forall_map. assumption. }
    assert (S2 : StronglySorted Z.le (map key l2)).
    { clear - H2. induction H2; cbn [map]; constructor; [assumption|].
      rewrite Forall_map. assumption. }
    revert S1 S2 Hpk. generalize (map key l1) (map key l2). clear.
    intros k1. induction k1 as [|x k1 IH]; intros k2 S1 S2 Hp.
    + apply Permutation_nil in Hp. subst. reflexivity.
    + destruct k2 as [|y k2].
      { apply Permutation_sym, Permutation_nil in Hp. discriminate Hp. }
      apply StronglySorted_inv in S1. destruct S1 as (S1 & Hx).
      apply StronglySorted_inv in S2. destruct S2 as (S2 & Hy).
      rewrite Forall_forall in Hx, Hy.
      assert (E : x = y).
      { assert (In y (x :: k1))
          by (apply (Permutation_in _ (Permutation_sym Hp)); left; reflexivity).
        assert (In x (y :: k2))
          by (apply (Permutation_in _ Hp); left; reflexivity).
        assert (x <= y) by (destruct H as [<- | H]; [lia | apply Hx, H]).
        assert (y <= x) by (destruct H0 as [<- | H0]; [lia | apply Hy, H0]).
        lia. }
      subst y. f_equal. apply IH; try assumption.
      apply Permutation_cons_inv in Hp. exact Hp.
Qed.

(** With distinct keys two sorted arrangements of the same elements are
    the same list. *)
Lemma sorted_perm_unique (l1 : list A) :
  forall l2, NoDup (map key l1) ->
    StronglySorted (le_by key) l1 -> StronglySorted (le_by key) l2 ->
    Permutation l1 l2 -> l1 = l2.
Proof.
  induction l1 as [|a l1 IH]; intros l2 Hnd H1 H2 Hp.
  - apply Permutation_nil in Hp. subst. reflexivity.
  - destruct l2 as [|b l2].
    { apply Permutation_sym, Permutation_nil in Hp. discriminate Hp. }
    pose proof (sorted_perm_keys _ _ H1 H2 Hp) as Hk.
    cbn [map] in Hk. injection Hk as Hab Hk.
    assert (E : a = b).
    { assert (Hin : In b (a :: l1))
        by (apply (Permutation_in _ (Permutation_sym Hp)); left; reflexivity).
      destruct Hin as [E | Hin]; [exact E|].
      cbn [map] in Hnd. apply NoDup_cons_iff in Hnd. destruct Hnd as (Hnot & _).
      exfalso. apply Hnot. rewrite Hab. apply in_map. exact Hin. }
    subst b. f_equal.
    apply StronglySorted_inv in H1. apply StronglySorted_inv in H2.
    cbn [map] in Hnd. apply NoDup_cons_iff in Hnd.
    apply IH; try tauto.
    apply Permutation_cons_inv in Hp. exact Hp.
Qed.

(** The sort puts first the first of the elements of least key: those before
    it in the list have a greater key, those after it no smaller one. *)
Lemma sort_by_head (l : list A) :
  forall x xs, sort_by key l = x :: xs ->
    exists before after,
      l = (before ++ x :: after)%list /\
      (forall o, In o before -> key x < key o) /\
      (forall o, In o after -> key x <= key o).
Proof.
  induction l as [|a l IH]; intros x xs E; [discriminate E|].
  cbn [sort_by fold_right] in E. fold (sort_by key l) in E.
  destruct (sort_by key l) as [|y ys] eqn:Es.
  - assert (l = []).
    { apply Permutation_nil. rewrite <- Es. apply sort_by_perm. }
    subst l. cbn in E. injection E as <- <-.
    exists [], []. split; [reflexivity|]. split; intros o [].
  - destruct (IH y ys eq_refl) as (before & after & El & Hb & Ha).
    cbn [insert_by] in E. destruct (Z.leb_spec (key a) (key y)) as [Hle | Hgt].
    + injection E as <- <-. exists [], l. split; [reflexivity|].
      split; [intros o []|]. intros o Ho. rewrite El in Ho.
      apply in_app_or in Ho. destruct Ho as [Ho | [<- | Ho]].
      * specialize (Hb o Ho). lia.
      * exact Hle.
      * specialize (Ha o Ho). lia.
    + injection E as <- <-. exists (a :: before), after.
      split; [rewrite El; reflexivity|]. split; [|exact Ha].
      intros o [<- | Ho]; [lia | apply Hb, Ho].
Qed.
End SortFacts.

(** The sort is stable: the elements of one key keep their order. *)
Lemma filter_insert_by {A} (key : A -> Z) (v : Z) (x : A) (l : list A) :
  filter (fun a => key a =? v) (insert_by key x l)
  = filter (fun a => key a =? v) (x :: l).
Proof.
  induction l as [|y l IH]; [reflexivity|].
  cbn [insert_by]. destruct (Z.leb_spec (key x) (key y)) as [Hle | Hgt];
    [reflexivity|].
  cbn [filter] in *. rewrite IH.
  destruct (Z.eqb_spec (key x) v), (Z.eqb_spec (key y) v); try reflexivity.
  lia.
Qed.

Lemma filter_sort_by {A} (key : A -> Z) (v : Z) (l : list A) :
  filter (fun a => key a =? v) (sort_by key l) = filter (fun a => key a =? v) l.
Proof.
  induction l as [|x l IH]; [reflexivity|].
  cbn [sort_by fold_right]. fold (sort_by key l).
  rewrite filter_insert_by. cbn [filter]. rewrite IH. reflexivity.
Qed.


(** ** The merge operator: validation *)

Lemma set_mode_same (s : Blend) : mode s = OBJECT -> set_mode OBJECT s = s.
Proof. destruct s. cbn. intros ->. reflexivity. Qed.


Lemma merge_too_few (s : Blend) :
  (List.length (filter is_copy (scene_objects s)) < 2)%nat ->
  run GEO_OT_MergeToShapeKeys.execute s
  = mkOutcome CANCELLED [(ERROR, few_copies_message)] (set_mode OBJECT s).
Proof.
  intros Hlen. apply Nat.ltb_lt in Hlen.
  unfold run, GEO_OT_MergeToShapeKeys.execute, bind, gets.
  destruct (mode s) eqn:Hm; cbn [mode_eqb negb]; unfold mode_set, modify, ret;
    change (scene_objects (set_mode OBJECT s)) with (scene_objects s);
    rewrite Hlen;
    try rewrite <- (set_mode_same s Hm) at 1; reflexivity.
Qed.




(** ** The merge operator: joining the copies *)

Lemma get_object_update (id id' : nat) (f : Object -> Object) (l : list Object) :
  (forall o, ob_id (f o) = ob_id o) ->
  get_object id (update_object id' f l)
  = option_map (fun o => if (ob_id o =? id')%nat then f o else o)
               (get_object id l).
Proof.
  intros Hf. unfold get_object, update_object.
  induction l as [|o l IH]; [reflexivity|].
  cbn [map find].
  assert (E : ob_id (if (ob_id o =? id')%nat then f o else o) = ob_id o).
  { destruct (ob_id o =? id')%nat; [apply Hf | reflexivity]. }
  rewrite E. destruct (ob_id o =? id)%nat; [reflexivity | exact IH].
Qed.

Lemma get_object_id (id : nat) (l : list Object) (o : Object) :
  get_object id l = Some o -> ob_id o = id.
Proof.
  unfold get_object. intros H. apply find_some in H.
  destruct H as (_ & H). apply Nat.eqb_eq in H. exact H.
Qed.

Lemma get_object_in (c : Object) (l : list Object) :
  In c l -> exists o, get_object (ob_id c) l = Some o.
Proof.
  intros Hin. unfold get_object.
  destruct (find (fun o => (ob_id o =? ob_id c)%nat) l) as [o|] eqn:E.
  - exists o. reflexivity.
  - apply (find_none _ _ E) in Hin. rewrite Nat.eqb_refl in Hin. discriminate.
Qed.

Lemma map_ident_update (id : nat) (f : Object -> Object) (l : list Object) :
  (forall o, ident (f o) = ident o) ->
  map ident (update_object id f l) = map ident l.
Proof.
  intros Hf. unfold update_object. rewrite map_map. apply map_ext.
  intros o. destruct (ob_id o =? id)%nat; [apply Hf | reflexivity].
Qed.

(** An update of the objects that keeps references and meshes, such as a
    change of selection, keeps the key of every object. *)
Lemma shape_keys_of_update (id id' : nat) (f : Object -> Object) (s : Blend) :
  (forall o, ob_id (f o) = ob_id o) -> (forall o, data (f o) = data o) ->
  GEO_OT_MergeToShapeKeys.shape_keys_of id
    (set_objects (update_object id' f (objects s)) s)
  = GEO_OT_MergeToShapeKeys.shape_keys_of id s.
Proof.
  intros Hid Hdata. unfold GEO_OT_MergeToShapeKeys.shape_keys_of.
  cbn [objects set_objects]. rewrite get_object_update by exact Hid.
  destruct (get_object id (objects s)) as [o|]; [|reflexivity].
  cbn [option_map]. destruct (ob_id o =? id')%nat; [rewrite Hdata|]; reflexivity.
Qed.

(** A new mesh for the object [id] is the mesh read back through [id]. *)
Lemma shape_keys_of_with_data (id : nat) (m : Object -> Mesh) (s : Blend) (o : Object) :
  get_object id (objects s) = Some o ->
  GEO_OT_MergeToShapeKeys.shape_keys_of id
    (set_objects (update_object id (fun o => with_data (m o) o) (objects s)) s)
  = shape_keys (m o).
Proof.
  intros Hget. unfold GEO_OT_MergeToShapeKeys.shape_keys_of.
  cbn [objects set_objects]. rewrite get_object_update by reflexivity.
  rewrite Hget. cbn [option_map].
  rewrite (get_object_id _ _ _ Hget), Nat.eqb_refl. reflexivity.
Qed.

Lemma mesh_shape_key_add_key (m : Mesh) :
  exists k, shape_keys (mesh_shape_key_add m) = Some k /\
            animation_data k
            = match shape_keys m with
              | Some k0 => animation_data k0
              | None => None
              end.
Proof.
  unfold mesh_shape_key_add. destruct (shape_keys m) as [k0|];
    eexists; split; reflexivity.
Qed.

Lemma mesh_join_shape_key (m : Mesh) (src : Object) (k : Key) :
  shape_keys m = Some k ->
  exists k', shape_keys (mesh_join_shape m src) = Some k' /\
             animation_data k' = animation_data k.
Proof.
  intros Hk. unfold mesh_join_shape. rewrite Hk. cbn [shape_keys].
  rewrite Hk. eexists; split; reflexivity.
Qed.

Lemma fold_join_shape_key (srcs : list Object) :
  forall (m : Mesh) (k : Key),
    shape_keys m = Some k ->
    exists k', shape_keys (fold_left mesh_join_shape srcs m) = Some k' /\
               animation_data k' = animation_data k.
Proof.
  induction srcs as [|src srcs IH]; intros m k Hk.
  - exists k. split; [exact Hk | reflexivity].
  - cbn [fold_left].
    destruct (mesh_join_shape_key m src k Hk) as (k1 & Hk1 & Ha1).
    destruct (IH _ _ Hk1) as (k2 & Hk2 & Ha2).
    exists k2. split; [exact Hk2 | congruence].
Qed.

Lemma joined_select (id : nat) (s0 : Blend) (R : option AnimData -> Prop)
    (id' : nat) (b : bool) (s : Blend) (rs : list Report) :
  joined id s0 R s ->
  exists s', select_set id' b s rs = Next tt s' rs /\ joined id s0 R s'.
Proof.
  intros (Hact & Hids & Hfr & Hmode & Hprops & Hipo & k & Hk & HR).
  eexists. split; [reflexivity|].
  unfold joined. cbn [objects set_objects active frame_current mode props ipo_new].
  rewrite map_ident_update by reflexivity.
  rewrite shape_keys_of_update by reflexivity.
  repeat (split; [assumption|]). exists k. split; assumption.
Qed.

Lemma joined_join_shapes (id : nat) (s0 : Blend) (R : option AnimData -> Prop)
    (s : Blend) (rs : list Report) :
  joined id s0 R s ->
  exists s', join_shapes s rs = Next tt s' rs /\ joined id s0 R s'.
Proof.
  intros (Hact & Hids & Hfr & Hmode & Hprops & Hipo & k & Hk & HR).
  unfold join_shapes, bind, gets. rewrite Hact. unfold modify.
  eexists. split; [reflexivity|].
  pose proof Hk as Hk'. unfold GEO_OT_MergeToShapeKeys.shape_keys_of in Hk'.
  destruct (get_object id (objects s)) as [act|] eqn:Hget; [|discriminate Hk'].
  match goal with
  | |- joined _ _ _ (match ?l with [] => _ | _ :: _ => _ end) =>
      destruct l as [|src srcs] eqn:Hsrcs
  end.
  - unfold joined. repeat (split; [assumption|]). exists k. split; assumption.
  - destruct (fold_join_shape_key (src :: srcs) (data act) k Hk')
      as (k' & Hk1 & Ha).
    unfold joined. cbn [objects set_objects active frame_current mode props ipo_new].
    rewrite map_ident_update by reflexivity.
    rewrite (shape_keys_of_with_data id (fun _ => _) s act Hget).
    repeat (split; [assumption|]). exists k'. split; [exact Hk1|].
    rewrite Ha. exact HR.
Qed.

(** The joining of the copies goes on to the animation, makes no report, and
    leaves the base with a key whose animation data are those it had (none
    when it had no key). *)
Lemma join_copies_joined (copy1 : Object) (rest : list Object) (s : Blend)
    (rs : list Report) (R : option AnimData -> Prop) :
  In copy1 (objects s) ->
  R (match GEO_OT_MergeToShapeKeys.shape_keys_of (ob_id copy1) s with
     | Some k0 => animation_data k0
     | None => None
     end) ->
  exists s',
    GEO_OT_MergeToShapeKeys.join_copies copy1 rest s rs = Next tt s' rs /\
    joined (ob_id copy1) s R s'.
Proof.
  intros Hin HR.
  unfold GEO_OT_MergeToShapeKeys.join_copies.
  unfold bind at 1. unfold select_all_deselect at 1. unfold modify at 1.
  unfold bind at 1. unfold select_set at 1. unfold modify at 1.
  unfold bind at 1. unfold modify at 1.
  unfold bind at 1. unfold shape_key_add, bind, gets.
  cbn [active set_active set_objects objects frame_current mode props ipo_new].
  unfold modify at 1.
  cbn [active set_active set_objects objects frame_current mode props ipo_new].
  match goal with
  | |- exists s', for_each _ _ ?s4 _ = _ /\ _ =>
      assert (H4 : joined (ob_id copy1) s R s4)
  end.
  { unfold joined.
    cbn [active set_active set_objects objects frame_current mode props ipo_new].
    split; [reflexivity|]. split.
    { rewrite !map_ident_update by reflexivity.
      rewrite map_map. apply map_ext. reflexivity. }
    repeat (split; [reflexivity|]).
    set (l3 := update_object (ob_id copy1) (with_select true)
                 (map (with_select false) (objects s))).
    assert (Hget : exists o3 o, get_object (ob_id copy1) l3 = Some o3 /\
                     get_object (ob_id copy1) (objects s) = Some o /\
                     data o3 = data o).
    { destruct (get_object_in copy1 (objects s) Hin) as (o & Ho).
      subst l3. rewrite get_object_update by reflexivity.
      unfold get_object in *.
      assert (E : find (fun o0 => (ob_id o0 =? ob_id copy1)%nat)
                       (map (with_select false) (objects s))
                  = option_map (with_select false)
                      (find (fun o0 => (ob_id o0 =? ob_id copy1)%nat) (objects s))).
      { clear. induction (objects s) as [|x l IH]; [reflexivity|].
        cbn [map find with_select ob_id].
        destruct (ob_id x =? ob_id copy1)%nat; [reflexivity | exact IH]. }
      rewrite E, Ho. cbn [option_map].
      eexists. exists o. split; [reflexivity|]. split; [reflexivity|].
      destruct (ob_id (with_select false o) =? ob_id copy1)%nat; reflexivity. }
    destruct Hget as (o3 & o & Hget3 & Hget & Hdata).
    pose proof (shape_keys_of_with_data (ob_id copy1)
                  (fun o => mesh_shape_key_add (data o))
                  (set_objects l3 s) o3 Hget3) as Hsk.
    cbn [objects set_objects] in Hsk.
    destruct (mesh_shape_key_add_key (data o3)) as (k & Hk & Ha).
    exists k. split.
    - etransitivity; [|exact Hk]. etransitivity; [|exact Hsk].
      unfold GEO_OT_MergeToShapeKeys.shape_keys_of. reflexivity.
    - rewrite Ha, Hdata.
      unfold GEO_OT_MergeToShapeKeys.shape_keys_of in HR.
      rewrite Hget in HR. exact HR. }
  destruct (for_each_invariant
              (fun s' rs' => rs' = rs /\ joined (ob_id copy1) s R s')
              (fun o =>
                 select_set (ob_id o) true ;; join_shapes ;;
                 select_set (ob_id o) false)
              rest) with (s := 
    (set_objects
       (update_object (ob_id copy1)
          (fun o => with_data (mesh_shape_key_add (data o)) o)
          (update_object (ob_id copy1) (with_select true)
             (map (with_select false) (objects s))))
       (set_active (Some (ob_id copy1))
          (set_objects
             (update_object (ob_id copy1) (with_select true)
                (map (with_select false) (objects s)))
             (set_objects (map (with_select false) (objects s)) s))))) (rs := rs)
    as (s5 & rs5 & E5 & -> & H5).
  - intros o s1 rs1 _ (-> & H1).
    destruct (joined_select _ _ _ (ob_id o) true s1 rs H1) as (s2 & E2 & H2).
    destruct (joined_join_shapes _ _ _ s2 rs H2) as (s3 & E3 & H3).
    destruct (joined_select _ _ _ (ob_id o) false s3 rs H3) as (s4' & E4 & H4').
    exists s4', rs. split; [|split; [reflexivity | exact H4']].
    unfold bind. rewrite E2, E3. exact E4.
  - split; [reflexivity|]. exact H4.
  - exists s5. split; [|exact H5]. exact E5.
Qed.

(** ** The order in which the copies are taken *)

Lemma filter_perm {A} (keep : A -> bool) (xs ys : list A) :
  Permutation xs ys -> Permutation (filter keep xs) (filter keep ys).
Proof.
  induction 1 as [|x l l' _ IH|x y l|l l' l'' _ IH1 _ IH2]; cbn [filter].
  - constructor.
  - destruct (keep x); [constructor|]; exact IH.
  - destruct (keep x), (keep y); try reflexivity. apply perm_swap.
  - etransitivity; eassumption.
Qed.

Lemma sorted_copies_perm (objs : list Object) :
  Permutation (sorted_copies objs) (filter is_copy (filter linked objs)).
Proof. apply sort_by_perm. Qed.

Lemma sorted_copies_in (objs : list Object) (o : Object) :
  In o (sorted_copies objs) <-> In o objs /\ linked o = true /\ is_copy o = true.
Proof.
  transitivity (In o (filter is_copy (filter linked objs))).
  - split; apply Permutation_in; [|apply Permutation_sym];
      apply sorted_copies_perm.
  - rewrite !filter_In. tauto.
Qed.

Lemma numbered_is_copy (o : Object) (n : nat) :
  name o = "copy" ++ PyStr.str_nat n -> is_copy o = true /\ idx o = Z.of_nat n.
Proof.
  intros E. unfold is_copy, idx, PyStr.startswith. rewrite E.
  split; [|apply idx_of_numbered].
  destruct (PyStr.str_nat n); reflexivity.
Qed.

(** Created as copy3, copy1, copy2, the copies are taken as copy1, copy2,
    copy3. *)
Example shuffled_sorted :
  map name (sorted_copies Scenes.shuffled) = ["copy1"; "copy2"; "copy3"].
Proof. reflexivity. Qed.

(** Names that carry no number have index 0, and among equal indices the
    order of the scene is kept. *)
Example unnumbered_first :
  map name (sorted_copies
              [Scenes.snapshot 2 "copy2" 0; Scenes.snapshot 3 "copy1.002" 0;
               Scenes.snapshot 4 "copy1" 0; Scenes.snapshot 5 "copy1.001" 0])
  = ["copy1.002"; "copy1.001"; "copy1"; "copy2"].
Proof. reflexivity. Qed.

(** ** The cleanup operator *)

Lemma NoDup_map_filter {A B} (g : A -> B) (keep : A -> bool) (xs : list A) :
  NoDup (map g xs) -> NoDup (map g (filter keep xs)).
Proof.
  induction xs as [|x xs IH]; cbn [map filter]; intros Hnd; [constructor|].
  apply NoDup_cons_iff in Hnd. destruct Hnd as (Hnot & Hnd).
  destruct (keep x); [|apply IH; exact Hnd].
  cbn [map]. constructor; [|apply IH; exact Hnd].
  intros Hin. apply Hnot. apply in_map_iff in Hin.
  destruct Hin as (y & E & Hy). apply filter_In in Hy.
  rewrite <- E. apply in_map. tauto.
Qed.

Lemma NoDup_map_eq {A B} (f : A -> B) (l : list A) (a b : A) :
  NoDup (map f l) -> In a l -> In b l -> f a = f b -> a = b.
Proof.
  induction l as [|x l IH]; cbn [map]; intros Hnd Ha Hb E; [destruct Ha|].
  apply NoDup_cons_iff in Hnd. destruct Hnd as (Hnot & Hnd).
  destruct Ha as [-> | Ha], Hb as [-> | Hb].
  - reflexivity.
  - exfalso. apply Hnot. rewrite E. apply in_map. exact Hb.
  - exfalso. apply Hnot. rewrite <- E. apply in_map. exact Ha.
  - apply IH; assumption.
Qed.

Lemma filter_map_flat_map {A} (p : A -> bool) (f : A -> A) (g : A -> list A)
    (l : list A) :
  (forall x, In x l -> (if p (f x) then [f x] else []) = g x) ->
  filter p (map f l) = flat_map g l.
Proof.
  induction l as [|x l IH]; intros H; [reflexivity|].
  cbn [map filter flat_map]. rewrite <- (H x (or_introl eq_refl)).
  rewrite <- IH by (intros y Hy; apply H; right; exact Hy).
  destruct (p (f x)); reflexivity.
Qed.

(** The removal loop as one filter on the objects. *)
Lemma remove_loop_objects (l : list Object) :
  forall (s : Blend) (rs : list Report),
  exists s',
    for_each l (fun obj => objects_remove (ob_id obj)) s rs = Next tt s' rs /\
    objects s'
    = filter (fun o => negb (existsb (fun x => (ob_id o =? ob_id x)%nat) l))
             (objects s).
Proof.
  induction l as [|x l IH]; intros s rs.
  - exists s. split; [reflexivity|]. cbn [existsb negb].
    clear. induction (objects s) as [|o os IHo]; [reflexivity|].
    cbn [filter]. rewrite <- IHo. reflexivity.
  - cbn [for_each]. unfold bind at 1. unfold objects_remove at 1, modify at 1.
    destruct (IH (remove_object (ob_id x) s) rs) as (s' & E & Hobjs).
    exists s'. split; [exact E|]. rewrite Hobjs.
    cbn [objects remove_object]. clear.
    induction (objects s) as [|o os IHo]; [reflexivity|].
    cbn [filter existsb].
    destruct (ob_id o =? ob_id x)%nat; cbn [negb orb filter];
      [exact IHo|].
    destruct (negb (existsb (fun x0 => (ob_id o =? ob_id x0)%nat) l));
      rewrite IHo; reflexivity.
Qed.

Lemma copy_name_not_final (o : Object) :
  is_copy o = true -> name o <> "shapekey_object".
Proof.
  unfold is_copy, PyStr.startswith. intros H E. rewrite E in H. discriminate H.
Qed.

Lemma cleanup_run (s : Blend) (copy1 : Object) (others : list Object) :
  sorted_copies (objects s) = copy1 :: others ->
  exists s' msg,
    run GEO_OT_RenameAndDelete.execute s = mkOutcome FINISHED [(INFO, msg)] s' /\
    objects s'
    = filter (fun o => negb (existsb (fun x => (ob_id o =? ob_id x)%nat) others))
        (update_object (ob_id copy1)
           (with_name
              (unique_name
                 (map name
                    (filter (fun o => negb (ob_id o =? ob_id copy1)%nat)
                            (objects s)))
                 "shapekey_object"))
           (objects s)).
Proof.
  intros Hsorted.
  unfold run, GEO_OT_RenameAndDelete.execute, bind, gets.
  destruct (filter is_copy (scene_objects s)) as [|c0 cs] eqn:Hfilter.
  { unfold sorted_copies in Hsorted. fold (scene_objects s) in Hsorted.
    rewrite Hfilter in Hsorted. discriminate Hsorted. }
  rewrite <- Hfilter.
  change (sort_by idx (filter is_copy (scene_objects s)))
    with (sorted_copies (objects s)).
  rewrite Hsorted.
  unfold set_name, modify.
  match goal with
  | |- context [for_each others _ ?s1 ?rs1] =>
      destruct (remove_loop_objects others s1 rs1) as (s2 & E2 & Hobjs)
  end.
  rewrite E2.
  unfold report, return_. cbn [outcome].
  exists s2. eexists. split; [reflexivity | exact Hobjs].
Qed.

(** C6 (amended). With at least one snapshot in the scene, names being
    ASCII, and no object of the file named "shapekey_object" already, the
    cleanup operator finishes; the snapshot of lowest index, the first in
    scene order of those with that index, is renamed "shapekey_object",
    every other snapshot is removed from the file, and the objects that are
    no snapshots of the scene stay as they are.  With a single snapshot no
    object is removed. *)
Theorem cleanup_keeps_lowest_copy (s : Blend) :
  NoDup (map ob_id (objects s)) ->
  (forall o, In o (objects s) -> ascii_only (name o) = true) ->
  filter is_copy (scene_objects s) <> [] ->
  ~ In "shapekey_object" (map name (objects s)) ->
  exists before copy1 after,
    filter is_copy (scene_objects s) = (before ++ copy1 :: after)%list /\
    (forall o, In o before -> idx copy1 < idx o) /\
    (forall o, In o after -> idx copy1 <= idx o) /\
    status (run GEO_OT_RenameAndDelete.execute s) = FINISHED /\
    objects (final (run GEO_OT_RenameAndDelete.execute s))
    = flat_map (fun o =>
                  if linked o && is_copy o
                  then if (ob_id o =? ob_id copy1)%nat
                       then [with_name "shapekey_object" o]
                       else []
                  else [o]) (objects s) /\
    ((before ++ after)%list = [] ->
     List.length (objects (final (run GEO_OT_RenameAndDelete.execute s)))
       = List.length (objects s)).
Proof.
  intros Hnd _ Hne Hfree.
  destruct (sorted_copies (objects s)) as [|copy1 others] eqn:Hsorted.
  { exfalso. apply Hne.
    apply Permutation_nil. rewrite <- Hsorted. apply sorted_copies_perm. }
  destruct (sort_by_head idx _ _ _ Hsorted) as (before & after & Hsplit & Hb & Ha).
  fold (scene_objects s) in Hsplit.
  assert (Hin1 : In copy1 (objects s) /\ linked copy1 = true /\ is_copy copy1 = true).
  { apply sorted_copies_in. rewrite Hsorted. left. reflexivity. }
  assert (Hndc : NoDup (map ob_id (copy1 :: others))).
  { apply (Permutation_NoDup
             (l := map ob_id (filter is_copy (filter linked (objects s))))).
    - rewrite <- Hsorted.
      apply Permutation_map, Permutation_sym, sorted_copies_perm.
    - apply NoDup_map_filter, NoDup_map_filter. exact Hnd. }
  cbn [map] in Hndc. apply NoDup_cons_iff in Hndc. destruct Hndc as (Hnot1 & _).
  assert (Hothers : forall o, In o others ->
            In o (objects s) /\ linked o = true /\ is_copy o = true).
  { intros o Ho. apply sorted_copies_in. rewrite Hsorted. right. exact Ho. }
  exists before, copy1, after.
  split; [exact Hsplit|]. split; [exact Hb|]. split; [exact Ha|].
  destruct (cleanup_run s copy1 others Hsorted) as (s2 & msg & Hrun & Hobjs).
  rewrite Hrun. cbn [status final].
  split; [reflexivity|].
  assert (Hflat : objects s2
    = flat_map (fun o =>
                  if linked o && is_copy o
                  then if (ob_id o =? ob_id copy1)%nat
                       then [with_name "shapekey_object" o]
                       else []
                  else [o]) (objects s)).
  { rewrite Hobjs. unfold update_object.
    rewrite unique_name_free.
    2:{ intros Hin. apply Hfree. apply in_map_iff in Hin.
        destruct Hin as (o & E & Ho). apply filter_In in Ho.
        apply in_map_iff. exists o. tauto. }
    apply filter_map_flat_map. intros o Ho.
    destruct (linked o && is_copy o) eqn:Hc.
    - apply andb_prop in Hc. destruct Hc as (Hl & Hc).
      destruct (Nat.eqb_spec (ob_id o) (ob_id copy1)) as [Eid | Nid].
      + cbn [ob_id with_name].
        destruct (existsb (fun x => (ob_id o =? ob_id x)%nat) others) eqn:Ex;
          [|reflexivity].
        exfalso. apply existsb_exists in Ex. destruct Ex as (x & Hx & Ex).
        apply Nat.eqb_eq in Ex. apply Hnot1. rewrite <- Eid, Ex.
        apply in_map. exact Hx.
      + assert (Hin : In o (copy1 :: others))
          by (rewrite <- Hsorted; apply sorted_copies_in; tauto).
        destruct Hin as [<- | Hin]; [congruence|].
        assert (Ex : existsb (fun x => (ob_id o =? ob_id x)%nat) others = true).
        { apply existsb_exists. exists o. split; [exact Hin | apply Nat.eqb_refl]. }
        rewrite Ex. reflexivity.
    - destruct (Nat.eqb_spec (ob_id o) (ob_id copy1)) as [Eid | Nid].
      + exfalso.
        assert (o = copy1)
          by (apply (NoDup_map_eq ob_id (objects s)); tauto).
        subst o. destruct Hin1 as (_ & Hl1 & Hc1). rewrite Hl1, Hc1 in Hc.
        discriminate Hc.
      + destruct (existsb (fun x => (ob_id o =? ob_id x)%nat) others) eqn:Ex;
          [|reflexivity].
        exfalso. apply existsb_exists in Ex. destruct Ex as (x & Hx & Ex).
        apply Nat.eqb_eq in Ex. destruct (Hothers x Hx) as (Hxin & Hxl & Hxc).
        assert (o = x)
          by (apply (NoDup_map_eq ob_id (objects s)); assumption).
        subst o. rewrite Hxl, Hxc in Hc. discriminate Hc. }
  split; [exact Hflat|].
  intros Hone. rewrite Hflat.
  apply app_eq_nil in Hone. destruct Hone as (-> & ->). cbn [List.app] in Hsplit.
  assert (Honly : forall o, In o (objects s) -> linked o && is_copy o = true ->
                            ob_id o = ob_id copy1).
  { intros o Ho Hc. apply andb_prop in Hc. destruct Hc as (Hl & Hc).
    assert (Hin : In o [copy1]).
    { rewrite <- Hsplit. apply filter_In. split; [|exact Hc].
      apply filter_In. tauto. }
    destruct Hin as [<- | []]. reflexivity. }
  clear - Honly. induction (objects s) as [|o os IH]; [reflexivity|].
  cbn [flat_map]. rewrite length_app. cbn [List.length].
  rewrite IH by (intros x Hx; apply Honly; right; exact Hx).
  destruct (linked o && is_copy o) eqn:Hc; [|reflexivity].
  rewrite (Honly o (or_introl eq_refl) Hc), Nat.eqb_refl. reflexivity.
Qed.

Lemma cleanup_keeps_lowest_copy_witness :
  exists before copy1 after,
    filter is_copy (scene_objects Scenes.shuffled_scene)
      = (before ++ copy1 :: after)%list /\
    (forall o, In o before -> idx copy1 < idx o) /\
    (forall o, In o after -> idx copy1 <= idx o) /\
    status (run GEO_OT_RenameAndDelete.execute Scenes.shuffled_scene) = FINISHED /\
    objects (final (run GEO_OT_RenameAndDelete.execute Scenes.shuffled_scene))
    = flat_map (fun o =>
                  if linked o && is_copy o
                  then if (ob_id o =? ob_id copy1)%nat
                       then [with_name "shapekey_object" o]
                       else []
                  else [o]) (objects Scenes.shuffled_scene) /\
    ((before ++ after)%list = [] ->
     List.length
       (objects (final (run GEO_OT_RenameAndDelete.execute Scenes.shuffled_scene)))
       = List.length (objects Scenes.shuffled_scene)).
Proof.
  apply (cleanup_keeps_lowest_copy Scenes.shuffled_scene).
  - cbn. repeat (apply NoDup_cons;
                 [cbn [In]; intros H;
                  repeat (destruct H as [H | H]; [discriminate H|]); exact H|]).
    apply NoDup_nil.
  - intros o H. cbn in H.
    repeat (destruct H as [<- | H]; [reflexivity|]). destruct H.
  - cbn. discriminate.
  - cbn. intros H.
    repeat (destruct H as [H | H]; [discriminate H|]). exact H.
Defined.

(** Of the copies created as copy3, copy1, copy2, the one kept is "copy1"
    (reference 2); the two others are removed. *)
Example cleanup_shuffled :
  map ident
      (objects (final (run GEO_OT_RenameAndDelete.execute Scenes.shuffled_scene)))
  = [(1%nat, "Cube"); (2%nat, "shapekey_object")].
Proof. reflexivity. Qed.

(** Only "copy1" in the scene: it is renamed and nothing is removed. *)
Example cleanup_single_copy :
  map ident (objects (final (run GEO_OT_RenameAndDelete.execute Scenes.one_copy)))
  = [(1%nat, "Cube"); (2%nat, "shapekey_object")].
Proof. reflexivity. Qed.

(** C6 as stated fails on a scene that holds the result of an earlier run:
    the cleanup operator finishes, removes "copy2", and the object that was
    "copy1" is not named "shapekey_object" afterwards, for the host gives it
    a free name. *)
Lemma cleanup_name_taken_counterexample :
  filter is_copy (objects Scenes.second_run) <> [] /\
  status (run GEO_OT_RenameAndDelete.execute Scenes.second_run) = FINISHED /\
  map ident (objects (final (run GEO_OT_RenameAndDelete.execute Scenes.second_run)))
    = [(5%nat, "shapekey_object"); (2%nat, "shapekey_object.001")] /\
  ~ (exists o,
       In o (objects (final (run GEO_OT_RenameAndDelete.execute Scenes.second_run)))
       /\ ob_id o = 2%nat /\ name o = "shapekey_object").
Proof.
  split; [cbn; discriminate|]. split; [reflexivity|]. split; [reflexivity|].
  intros (o & Hin & Hid & Hname).
  apply (in_map ident) in Hin. unfold ident at 1 in Hin.
  rewrite Hid, Hname in Hin.
  change (map ident
            (objects (final (run GEO_OT_RenameAndDelete.execute Scenes.second_run))))
    with [(5%nat, "shapekey_object"); (2%nat, "shapekey_object.001")] in Hin.
  destruct Hin as [H|[H|[]]]; discriminate H.
Qed.

(** ** The merge operator: what it does to the scene *)

Lemma merge_enter (s : Blend) :
  (if negb (mode_eqb (mode s) OBJECT) then mode_set OBJECT else ret tt) s []
  = Next tt (set_mode OBJECT s) [].
Proof.
  destruct (mode s) eqn:Hm; cbn [mode_eqb negb]; try reflexivity.
  unfold ret. rewrite (set_mode_same s Hm). reflexivity.
Qed.

(** Past its validation the merge operator joins the copies and ends as the
    animation of the key of the base ends. *)
Lemma merge_run (s : Blend) (copy1 : Object) (rest : list Object)
    (R : option AnimData -> Prop) :
  sorted_copies (objects s) = copy1 :: rest -> rest <> [] ->
  R (match GEO_OT_MergeToShapeKeys.shape_keys_of (ob_id copy1) s with
     | Some k0 => animation_data k0
     | None => None
     end) ->
  exists s5,
    joined (ob_id copy1) (set_mode OBJECT s) R s5 /\
    run GEO_OT_MergeToShapeKeys.execute s
    = outcome
        (zoom (GEO_OT_MergeToShapeKeys.shape_keys_of (ob_id copy1))
              (GEO_OT_MergeToShapeKeys.set_shape_keys (ob_id copy1))
              AttributeError
              (GEO_OT_MergeToShapeKeys.animate (ipo_new s)
                 (GEO_Props.use_relative (props s))
                 (List.length (copy1 :: rest)) (List.length rest) (name copy1))
              s5 []).
Proof.
  intros Hsorted Hrest HR.
  assert (Hin : In copy1 (objects (set_mode OBJECT s))).
  { cbn [objects set_mode]. apply sorted_copies_in. rewrite Hsorted.
    left. reflexivity. }
  destruct (join_copies_joined copy1 rest (set_mode OBJECT s) [] R Hin HR)
    as (s5 & E5 & H5).
  exists s5. split; [exact H5|].
  unfold run, GEO_OT_MergeToShapeKeys.execute.
  unfold bind at 1. unfold gets at 1.
  unfold bind at 1. rewrite merge_enter.
  unfold bind at 1. unfold gets at 1.
  unfold bind at 1. unfold gets at 1.
  cbn [props set_mode].
  change (scene_objects (set_mode OBJECT s)) with (scene_objects s).
  assert (Hlen : (List.length (filter is_copy (scene_objects s)) <? 2)%nat = false).
  { apply Nat.ltb_ge. unfold scene_objects.
    rewrite <- (Permutation_length (sorted_copies_perm (objects s))), Hsorted.
    destruct rest; [congruence | cbn [List.length]; lia]. }
  rewrite Hlen.
  change (sort_by idx (filter is_copy (scene_objects s)))
    with (sorted_copies (objects s)).
  rewrite Hsorted.
  unfold bind at 1. rewrite E5.
  unfold bind at 1. unfold gets at 1.
  destruct H5 as (_ & _ & _ & _ & _ & Hipo & _). rewrite Hipo.
  reflexivity.
Qed.

Lemma two_copies_sorted (s : Blend) :
  (2 <= List.length (filter is_copy (scene_objects s)))%nat ->
  exists copy1 rest, sorted_copies (objects s) = copy1 :: rest /\ rest <> [].
Proof.
  intros Hlen. unfold scene_objects in Hlen.
  rewrite <- (Permutation_length (sorted_copies_perm (objects s))) in Hlen.
  destruct (sorted_copies (objects s)) as [|c1 [|c2 rest]];
    cbn [List.length] in Hlen; try lia.
  exists c1, (c2 :: rest). split; [reflexivity | discriminate].
Qed.



(** ** Keyframes on a key *)

Lemma nth_error_combine_seq {A} (l : list A) :
  forall a n, nth_error (combine (seq a (List.length l)) l) n
              = option_map (pair (a + n)%nat) (nth_error l n).
Proof.
  induction l as [|x l IH]; intros a n.
  - destruct n; reflexivity.
  - cbn [List.length seq combine]. destruct n as [|n]; cbn [nth_error option_map].
    + rewrite Nat.add_0_r. reflexivity.
    + rewrite IH. replace (S a + n)%nat with (a + S n)%nat by lia. reflexivity.
Qed.

Lemma map_snd_combine_seq {A B} (g : A -> B) (l : list A) :
  forall a, map (fun p => g (snd p)) (combine (seq a (List.length l)) l) = map g l.
Proof.
  induction l as [|x l IH]; intros a; [reflexivity|].
  cbn [List.length seq combine map snd]. rewrite IH. reflexivity.
Qed.

Lemma set_block_value_spec (b : nat) (v : Z) (k : Key) (rs : list Report) :
  (b < List.length (key_blocks k))%nat ->
  exists k',
    set_block_value b v k rs = Next tt k' rs /\
    path_value (DP_key_block_value b) k' = Some v /\
    map sk_name (key_blocks k') = map sk_name (key_blocks k) /\
    animation_data k' = animation_data k.
Proof.
  intros Hb. eexists. split; [reflexivity|].
  cbn [path_value key_blocks set_key_blocks animation_data].
  split; [|split; [|reflexivity]].
  - rewrite nth_error_map. unfold enumerate.
    rewrite (nth_error_combine_seq (key_blocks k) 0 b).
    destruct (nth_error (key_blocks k) b) as [x|] eqn:E.
    + cbn. rewrite Nat.eqb_refl. reflexivity.
    + apply nth_error_None in E. lia.
  - rewrite map_map. unfold enumerate.
    rewrite <- (map_snd_combine_seq sk_name (key_blocks k) 0).
    apply map_ext. intros (i, sk). cbn [snd].
    destruct (i =? b)%nat; reflexivity.
Qed.

Lemma keyframe_insert_spec (ipo : Interpolation) (p : DataPath) (frame v : Z)
    (k : Key) (rs : list Report) :
  path_value p k = Some v ->
  keyframe_insert ipo p frame k rs
  = Next tt
      (set_animation_data
         (Some (mkAnimData
            (Some (fcurves_insert p (mkKeyframe frame v ipo) (fcurves_of k))))) k)
      rs.
Proof. intros H. unfold keyframe_insert, modify. rewrite H. reflexivity. Qed.

Lemma force_linear_spec (sel : DataPath -> bool) (fcs : list FCurve) (k : Key)
    (rs : list Report) :
  animation_data k = Some (mkAnimData (Some fcs)) ->
  force_linear sel k rs
  = Next tt
      (set_animation_data
         (Some (mkAnimData (Some
            (map (fun fcu =>
                    if sel (data_path fcu)
                    then mkFCurve (data_path fcu) (map linear (keyframe_points fcu))
                    else fcu) fcs)))) k)
      rs.
Proof.
  intros H. unfold force_linear, action_fcurves, bind, gets. rewrite H.
  reflexivity.
Qed.

Lemma fcurves_insert_new (p : DataPath) (kp : Keyframe) (fcs : list FCurve) :
  Forall (fun f => path_eqb (data_path f) p = false) fcs ->
  fcurves_insert p kp fcs = (fcs ++ [mkFCurve p [kp]])%list.
Proof.
  induction 1 as [|f fcs Hf _ IH]; [reflexivity|].
  cbn [fcurves_insert app]. rewrite Hf, IH. reflexivity.
Qed.

Lemma path_eqb_refl (p : DataPath) : path_eqb p p = true.
Proof. destruct p; cbn; [reflexivity | apply Nat.eqb_refl]. Qed.

Lemma fcurves_insert_last (p : DataPath) (kp : Keyframe) (pre : list FCurve)
    (kps : list Keyframe) :
  Forall (fun f => path_eqb (data_path f) p = false) pre ->
  fcurves_insert p kp (pre ++ [mkFCurve p kps])
  = (pre ++ [mkFCurve p (insert_keyframe kp kps)])%list.
Proof.
  induction 1 as [|f fcs Hf _ IH]; simpl.
  - rewrite path_eqb_refl. reflexivity.
  - rewrite Hf, IH. reflexivity.
Qed.

Lemma insert_keyframe_after (kp : Keyframe) (l : list Keyframe) :
  Forall (fun k => kf_frame k < kf_frame kp) l ->
  insert_keyframe kp l = (l ++ [kp])%list.
Proof.
  induction 1 as [|k l Hk _ IH]; [reflexivity|].
  cbn [insert_keyframe app].
  destruct (Z.ltb_spec (kf_frame kp) (kf_frame k)); [lia|].
  destruct (Z.eqb_spec (kf_frame kp) (kf_frame k)); [lia|].
  rewrite IH. reflexivity.
Qed.

Lemma force_linear_keeps (sel : DataPath -> bool) (fcs : list FCurve) :
  all_linear fcs ->
  map (fun fcu =>
         if sel (data_path fcu)
         then mkFCurve (data_path fcu) (map linear (keyframe_points fcu))
         else fcu) fcs = fcs.
Proof.
  induction 1 as [|f fcs Hf _ IH]; [reflexivity|].
  cbn [map]. rewrite IH. f_equal.
  destruct (sel (data_path f)); [|reflexivity].
  destruct f as [p kps]. cbn [data_path keyframe_points] in *. f_equal.
  induction Hf as [|kp kps Hkp _ IHk]; [reflexivity|].
  cbn [map]. rewrite IHk. f_equal.
  destruct kp as [fr v ip]. cbn in Hkp. subst ip. reflexivity.
Qed.

Lemma triangle_linear (i K : nat) :
  Forall (fun kp => interpolation kp = LINEAR) (triangle i K).
Proof.
  unfold triangle. destruct (Z.of_nat i <? Z.of_nat K - 1);
    repeat constructor.
Qed.

(** One pass of the loop on a block that has no curve yet: the curve of the
    block is made, after the curves there are, with the keyframes of the
    triangle; the other curves stay as they are. *)
Lemma keyframe_values_fresh (ipo : Interpolation) (K m : nat) (nm : string)
    (i b : nat) (k : Key) (rs : list Report) :
  all_linear (fcurves_of k) -> not_animated b (fcurves_of k) ->
  (b < List.length (key_blocks k))%nat ->
  exists k' rs',
    GEO_OT_MergeToShapeKeys.keyframe_values ipo 10 K m nm (i, b) k rs
      = Next tt k' rs' /\
    animation_data k'
      = Some (mkAnimData (Some
          (fcurves_of k ++ [mkFCurve (DP_key_block_value b) (triangle i K)])%list)) /\
    map sk_name (key_blocks k') = map sk_name (key_blocks k).
Proof.
  intros Hlin Hnot Hb.
  set (pre := fcurves_of k) in *.
  set (p := DP_key_block_value b).
  unfold GEO_OT_MergeToShapeKeys.keyframe_values. cbv zeta.
  (* value 0 at the start *)
  destruct (set_block_value_spec b 0 k rs Hb) as (k1 & E1 & V1 & N1 & A1).
  unfold bind at 1. rewrite E1.
  unfold bind at 1. rewrite (keyframe_insert_spec ipo p _ 0 k1 rs V1).
  assert (F1 : fcurves_of k1 = pre) by (unfold fcurves_of; rewrite A1; reflexivity).
  rewrite F1, (fcurves_insert_new p _ pre Hnot).
  unfold bind at 1.
  match goal with
  | |- context [set_block_value b 1 ?k2 rs] =>
      assert (Hb2 : (b < List.length (key_blocks k2))%nat)
        by (cbn [key_blocks set_animation_data];
            rewrite <- (length_map sk_name), N1, length_map; exact Hb);
      destruct (set_block_value_spec b 1 k2 rs Hb2) as (k3 & E3 & V3 & N3 & A3)
  end.
  cbn [key_blocks set_animation_data animation_data] in N3, A3.
  (* value 1 at the peak *)
  rewrite E3.
  unfold bind at 1. rewrite (keyframe_insert_spec ipo p _ 1 k3 rs V3).
  assert (F3 : fcurves_of k3
               = (pre ++ [mkFCurve p [mkKeyframe (Z.of_nat i * 10) 0 ipo]])%list)
    by (unfold fcurves_of; rewrite A3; reflexivity).
  rewrite F3, (fcurves_insert_last p _ pre _ Hnot).
  rewrite insert_keyframe_after
    by (repeat constructor; cbn [kf_frame]; lia).
  cbn [app].
  assert (Hb4 : (b < List.length (key_blocks k3))%nat)
    by (rewrite <- (length_map sk_name), N3, N1, length_map; exact Hb).
  unfold triangle.
  destruct (Z.of_nat i <? Z.of_nat K - 1).
  - (* value 0 at the end *)
    unfold bind at 1. unfold bind at 1.
    match goal with
    | |- context [set_block_value b 0 ?k4 rs] =>
        assert (Hb5 : (b < List.length (key_blocks k4))%nat)
          by (cbn [key_blocks set_animation_data]; exact Hb4);
        destruct (set_block_value_spec b 0 k4 rs Hb5) as (k5 & E5 & V5 & N5 & A5)
    end.
    cbn [key_blocks set_animation_data animation_data] in N5, A5.
    rewrite E5.
    rewrite (keyframe_insert_spec ipo p _ 0 k5 rs V5).
    assert (F5 : fcurves_of k5
                 = (pre ++ [mkFCurve p [mkKeyframe (Z.of_nat i * 10) 0 ipo;
                                        mkKeyframe (Z.of_nat i * 10 + 10) 1 ipo]])%list)
      by (unfold fcurves_of; rewrite A5; reflexivity).
    rewrite F5, (fcurves_insert_last p _ pre _ Hnot).
    rewrite insert_keyframe_after
      by (repeat constructor; cbn [kf_frame]; lia).
    cbn [app].
    unfold bind at 1.
    erewrite force_linear_spec by reflexivity.
    unfold report. eexists. eexists. split; [reflexivity|].
    cbn [animation_data set_animation_data key_blocks].
    split; [|congruence].
    rewrite map_app, (force_linear_keeps _ pre Hlin). reflexivity.
  - unfold bind at 1. unfold ret at 1.
    unfold bind at 1.
    erewrite force_linear_spec by reflexivity.
    unfold report. eexists. eexists. split; [reflexivity|].
    cbn [animation_data set_animation_data key_blocks].
    split; [|congruence].
    rewrite map_app, (force_linear_keeps _ pre Hlin). reflexivity.
Qed.

Lemma keyframe_values_loop (ipo : Interpolation) (K m : nat) (nm : string)
    (ts : list nat) :
  forall (a : nat) (k : Key) (rs : list Report),
    all_linear (fcurves_of k) ->
    Forall (fun b => not_animated b (fcurves_of k) /\
                     (b < List.length (key_blocks k))%nat) ts ->
    NoDup ts ->
    exists k' rs',
      for_each (combine (seq a (List.length ts)) ts)
               (GEO_OT_MergeToShapeKeys.keyframe_values ipo 10 K m nm) k rs
        = Next tt k' rs' /\
      fcurves_of k'
        = (fcurves_of k ++
           map (fun it => mkFCurve (DP_key_block_value (snd it))
                                   (triangle (fst it) K))
               (combine (seq a (List.length ts)) ts))%list /\
      map sk_name (key_blocks k') = map sk_name (key_blocks k).
Proof.
  induction ts as [|b ts IH]; intros a k rs Hlin Hts Hnd.
  - exists k, rs. cbn. rewrite app_nil_r. repeat split.
  - apply Forall_cons_iff in Hts. destruct Hts as ((Hnot & Hb) & Hts).
    apply NoDup_cons_iff in Hnd. destruct Hnd as (Hnotin & Hnd).
    destruct (keyframe_values_fresh ipo K m nm a b k rs Hlin Hnot Hb)
      as (k1 & rs1 & E1 & A1 & N1).
    assert (F1 : fcurves_of k1
                 = (fcurves_of k ++
                    [mkFCurve (DP_key_block_value b) (triangle a K)])%list)
      by (unfold fcurves_of at 1; rewrite A1; reflexivity).
    destruct (IH (S a) k1 rs1) as (k2 & rs2 & E2 & F2 & N2).
    + rewrite F1. apply Forall_app. split; [exact Hlin|].
      constructor; [apply triangle_linear | constructor].
    + rewrite F1. rewrite Forall_forall in Hts |- *. intros b' Hb'.
      destruct (Hts b' Hb') as (Hnot' & Hlt'). split.
      * apply Forall_app. split; [exact Hnot'|].
        constructor; [|constructor]. cbn [data_path path_eqb].
        apply Nat.eqb_neq. intros ->. contradiction.
      * rewrite <- (length_map sk_name), N1, length_map. exact Hlt'.
    + exact Hnd.
    + exists k2, rs2. cbn [List.length seq combine map for_each fst snd].
      split; [|split].
      * unfold bind. rewrite E1. exact E2.
      * rewrite F2, F1, <- app_assoc. reflexivity.
      * congruence.
Qed.

Lemma non_basis_lt (bs : list ShapeKey) (b : nat) :
  In b (non_basis bs) -> (b < List.length bs)%nat.
Proof.
  unfold non_basis, enumerate. intros H. apply in_map_iff in H.
  destruct H as ((i, sk) & <- & H). apply filter_In in H. destruct H as (H & _).
  apply in_combine_l in H. apply in_seq in H. cbn [fst]. lia.
Qed.

Lemma map_fst_combine_seq {A} (l : list A) :
  forall a, map fst (combine (seq a (List.length l)) l) = seq a (List.length l).
Proof.
  induction l as [|x l IH]; intros a; [reflexivity|].
  cbn [List.length seq combine map fst]. rewrite IH. reflexivity.
Qed.

Lemma non_basis_NoDup (bs : list ShapeKey) : NoDup (non_basis bs).
Proof.
  unfold non_basis, enumerate. apply NoDup_map_filter.
  rewrite map_fst_combine_seq. apply seq_NoDup.
Qed.

Lemma non_basis_names (bs : list ShapeKey) :
  forall bs', map sk_name bs = map sk_name bs' -> non_basis bs = non_basis bs'.
Proof.
  unfold non_basis, enumerate. generalize 0%nat.
  induction bs as [|x bs IH]; intros a [|y bs'] E; try discriminate E;
    [reflexivity|].
  cbn [map] in E. injection E as Exy E.
  cbn [List.length seq combine filter snd]. rewrite Exy.
  destruct (negb (String.eqb (sk_name y) "Basis")); cbn [map fst];
    rewrite (IH (S a) bs' E); reflexivity.
Qed.

(** The relative branch and the loop on a key that is not animated yet: the
    operator finishes and leaves one curve for each block that is not the
    basis, with the keyframes of its triangle. *)
Lemma animate_relative_fresh (ipo : Interpolation) (n m : nat) (nm : string)
    (k : Key) (rs : list Report) :
  animation_data k = None ->
  exists k' rs',
    GEO_OT_MergeToShapeKeys.animate ipo true n m nm k rs = Stop FINISHED k' rs' /\
    fcurves_of k'
      = map (fun it => mkFCurve (DP_key_block_value (snd it))
                         (triangle (fst it)
                                   (List.length (non_basis (key_blocks k)))))
            (enumerate (non_basis (key_blocks k))) /\
    map sk_name (key_blocks k') = map sk_name (key_blocks k).
Proof.
  intros Hnone.
  unfold GEO_OT_MergeToShapeKeys.animate. cbn [negb].
  unfold bind at 1. unfold bind at 1. unfold gets at 1. rewrite Hnone.
  unfold bind at 1. unfold animation_data_create at 1, modify at 1. rewrite Hnone.
  unfold bind at 1. unfold gets at 1. unfold ret at 1.
  cbn [key_blocks set_animation_data]. cbv zeta.
  unfold bind at 1. unfold ret at 1.
  set (k0 := set_animation_data (Some (mkAnimData None)) k).
  set (ts := non_basis (key_blocks k)).
  destruct (keyframe_values_loop ipo (List.length ts) m nm ts 0 k0 rs)
    as (k' & rs' & E & F & N).
  - constructor.
  - apply Forall_forall. intros b Hb. split; [constructor|].
    apply non_basis_lt. exact Hb.
  - apply non_basis_NoDup.
  - exists k', rs'. unfold bind. unfold enumerate. rewrite E.
    split; [reflexivity|]. split; [exact F | exact N].
Qed.

Lemma find_triangle (K : nat) (ts : list nat) :
  forall (a i b : nat),
    NoDup ts -> nth_error ts i = Some b ->
    find (fun f => path_eqb (data_path f) (DP_key_block_value b))
         (map (fun it => mkFCurve (DP_key_block_value (snd it))
                                  (triangle (fst it) K))
              (combine (seq a (List.length ts)) ts))
    = Some (mkFCurve (DP_key_block_value b) (triangle (a + i) K)).
Proof.
  induction ts as [|t ts IH]; intros a i b Hnd Hi.
  - destruct i; discriminate Hi.
  - apply NoDup_cons_iff in Hnd. destruct Hnd as (Hnotin & Hnd).
    cbn [List.length seq combine map find data_path path_eqb fst snd].
    destruct i as [|i]; cbn [nth_error] in Hi.
    + injection Hi as ->. rewrite Nat.eqb_refl, Nat.add_0_r. reflexivity.
    + destruct (Nat.eqb_spec t b) as [-> | _].
      { exfalso. apply Hnotin. eapply nth_error_In. exact Hi. }
      rewrite (IH (S a) i b Hnd Hi).
      replace (S a + i)%nat with (a + S i)%nat by lia. reflexivity.
Qed.

(** The absolute branch: the key is made absolute and the driving curve is
    keyed and made linear; then the loop is reached with [shape_keys]
    unbound. *)
Lemma animate_absolute (ipo : Interpolation) (n m : nat) (nm : string)
    (k : Key) (rs : list Report) :
  exists k' rs',
    GEO_OT_MergeToShapeKeys.animate ipo false n m nm k rs
      = Stop (RAISED UnboundLocalError) k' rs' /\
    use_relative k' = false /\
    (animation_data k = None -> (2 <= n)%nat ->
     fcurves_of k'
     = [mkFCurve DP_eval_time
          [mkKeyframe 1 0 LINEAR;
           mkKeyframe ((Z.of_nat n - 1) * 24) ((Z.of_nat n - 1) * 10) LINEAR]]).
Proof.
  destruct k as [ur et bs [[[fcs|]]|]];
    (eexists; eexists; split; [reflexivity|]; split; [reflexivity|]);
    intros Hnone Hn; try discriminate Hnone.
  cbn.
  destruct (Z.ltb_spec ((Z.of_nat n - 1) * 24) 1); [lia|].
  destruct (Z.eqb_spec ((Z.of_nat n - 1) * 24) 1); [lia|].
  reflexivity.
Qed.

(** ** The merge operator: the animation it authors *)

Lemma shape_keys_of_set (id : nat) (k k' : Key) (s : Blend) :
  GEO_OT_MergeToShapeKeys.shape_keys_of id s = Some k ->
  GEO_OT_MergeToShapeKeys.shape_keys_of id
    (GEO_OT_MergeToShapeKeys.set_shape_keys id k' s) = Some k'.
Proof.
  intros Hk. unfold GEO_OT_MergeToShapeKeys.shape_keys_of in Hk.
  destruct (get_object id (objects s)) as [o|] eqn:Hget; [|discriminate Hk].
  unfold GEO_OT_MergeToShapeKeys.set_shape_keys.
  rewrite (shape_keys_of_with_data id
             (fun o => mkMesh (vertices (data o)) (Some k')) s o Hget).
  reflexivity.
Qed.

(** In relative mode, on copies that pass the validation and a base copy
    whose key, if it has one, is not animated yet, the merge operator
    finishes and leaves, for the key at ordinal i among the K keys of the
    base other than "Basis", a curve with the keyframes of its triangle and
    no other. *)
Lemma merge_relative_fresh_curves (s : Blend) (copy1 : Object)
    (rest : list Object) :
  GEO_Props.use_relative (props s) = true ->
  sorted_copies (objects s) = copy1 :: rest -> rest <> [] ->
  (forall k0, GEO_OT_MergeToShapeKeys.shape_keys_of (ob_id copy1) s = Some k0 ->
              animation_data k0 = None) ->
  exists k,
    GEO_OT_MergeToShapeKeys.shape_keys_of (ob_id copy1)
      (final (run GEO_OT_MergeToShapeKeys.execute s)) = Some k /\
    forall (i b : nat),
      nth_error (non_basis (key_blocks k)) i = Some b ->
      value_curve b k
      = Some (triangle i (List.length (non_basis (key_blocks k)))).
Proof.
  intros Hrel Hsorted Hrest Hfresh.
  destruct (merge_run s copy1 rest (fun a => a = None) Hsorted Hrest)
    as (s5 & H5 & E).
  { destruct (GEO_OT_MergeToShapeKeys.shape_keys_of (ob_id copy1) s) as [k0|];
      [apply Hfresh|]; reflexivity. }
  destruct H5 as (_ & _ & _ & _ & _ & _ & k5 & Hk5 & Hnone).
  rewrite E, Hrel. unfold zoom. rewrite Hk5.
  destruct (animate_relative_fresh (ipo_new s) (List.length (copy1 :: rest))
              (List.length rest) (name copy1) k5 [] Hnone)
    as (k' & rs' & Ea & F & N).
  rewrite Ea. cbn [outcome status final].
  exists k'.
  split; [apply (shape_keys_of_set _ k5); exact Hk5|].
  intros i b Hi.
  rewrite (non_basis_names _ _ N) in *.
  unfold value_curve. rewrite F. unfold enumerate.
  rewrite (find_triangle _ _ 0 i b (non_basis_NoDup _) Hi).
  reflexivity.
Qed.

(** Three copies in relative mode: two targets, the first with its whole
    triangle, the last without the return to 0. *)
Example merge_relative_three_copies :
  option_map
    (fun k => (map sk_name (key_blocks k), value_curve 1 k, value_curve 2 k))
    (GEO_OT_MergeToShapeKeys.shape_keys_of 2
       (final (run GEO_OT_MergeToShapeKeys.execute (Scenes.three_copies true))))
  = Some (["Basis"; "copy2"; "copy3"],
          Some [mkKeyframe 0 0 LINEAR; mkKeyframe 10 1 LINEAR;
                mkKeyframe 20 0 LINEAR],
          Some [mkKeyframe 10 0 LINEAR; mkKeyframe 20 1 LINEAR]).
Proof. reflexivity. Qed.

(** C1, the code against the claim.  In absolute mode, on copies that pass
    the validation (K of them, K >= 2) and a base copy whose key, if it has
    one, is not animated yet, the merge operator makes the key of the base
    absolute and leaves exactly one curve, on eval_time, with the two linear
    keyframes (1, 0) and ((K-1)*24, (K-1)*10), and no curve on the value of a
    shape key; but it does not complete: it reaches the loop over
    [shape_keys], a name that only the relative branch binds, and the
    invocation ends with UnboundLocalError instead of FINISHED. *)
Theorem merge_absolute_stops_unbound (s : Blend) (copy1 : Object)
    (rest : list Object) :
  GEO_Props.use_relative (props s) = false ->
  sorted_copies (objects s) = copy1 :: rest -> rest <> [] ->
  (forall k0, GEO_OT_MergeToShapeKeys.shape_keys_of (ob_id copy1) s = Some k0 ->
              animation_data k0 = None) ->
  status (run GEO_OT_MergeToShapeKeys.execute s) = RAISED UnboundLocalError /\
  exists k,
    GEO_OT_MergeToShapeKeys.shape_keys_of (ob_id copy1)
      (final (run GEO_OT_MergeToShapeKeys.execute s)) = Some k /\
    use_relative k = false /\
    fcurves_of k
    = [mkFCurve DP_eval_time
         [mkKeyframe 1 0 LINEAR;
          mkKeyframe ((Z.of_nat (List.length (copy1 :: rest)) - 1) * 24)
                     ((Z.of_nat (List.length (copy1 :: rest)) - 1) * 10) LINEAR]] /\
    forall b, value_curve b k = None.
Proof.
  intros Habs Hsorted Hrest Hfresh.
  destruct (merge_run s copy1 rest (fun a => a = None) Hsorted Hrest)
    as (s5 & H5 & E).
  { destruct (GEO_OT_MergeToShapeKeys.shape_keys_of (ob_id copy1) s) as [k0|];
      [apply Hfresh|]; reflexivity. }
  destruct H5 as (_ & _ & _ & _ & _ & _ & k5 & Hk5 & Hnone).
  rewrite E, Habs. unfold zoom. rewrite Hk5.
  destruct (animate_absolute (ipo_new s) (List.length (copy1 :: rest))
              (List.length rest) (name copy1) k5 [])
    as (k' & rs' & Ea & Hur & F).
  rewrite Ea. cbn [outcome status final].
  split; [reflexivity|]. exists k'.
  split; [apply (shape_keys_of_set _ k5); exact Hk5|].
  split; [exact Hur|].
  assert (Hlen : (2 <= List.length (copy1 :: rest))%nat)
    by (destruct rest; [congruence | cbn [List.length]; lia]).
  split; [exact (F Hnone Hlen)|].
  intros b. unfold value_curve. rewrite (F Hnone Hlen). reflexivity.
Qed.

Lemma merge_absolute_stops_unbound_witness :
  status (run GEO_OT_MergeToShapeKeys.execute (Scenes.three_copies false))
    = RAISED UnboundLocalError /\
  exists k,
    GEO_OT_MergeToShapeKeys.shape_keys_of 2
      (final (run GEO_OT_MergeToShapeKeys.execute (Scenes.three_copies false)))
      = Some k /\
    use_relative k = false /\
    fcurves_of k
    = [mkFCurve DP_eval_time
         [mkKeyframe 1 0 LINEAR; mkKeyframe ((3 - 1) * 24) ((3 - 1) * 10) LINEAR]] /\
    forall b, value_curve b k = None.
Proof.
  apply (merge_absolute_stops_unbound (Scenes.three_copies false)
           (Scenes.snapshot 2 "copy1" 0)
           [Scenes.snapshot 3 "copy2" 10; Scenes.snapshot 4 "copy3" 20]).
  - reflexivity.
  - reflexivity.
  - discriminate.
  - intros k0 H. discriminate H.
Defined.

(** Three copies in absolute mode, run: the key is absolute, eval_time is
    keyed at (1, 0) and (48, 20), the merge is reported, and the invocation
    ends with the exception. *)
Example merge_absolute_three_copies :
  status (run GEO_OT_MergeToShapeKeys.execute (Scenes.three_copies false))
    = RAISED UnboundLocalError /\
  reports (run GEO_OT_MergeToShapeKeys.execute (Scenes.three_copies false))
    = [(INFO, "Merged 2 copies into 'copy1', eval_time keyed @ 1 → 48")] /\
  option_map
    (fun k => (use_relative k, map sk_name (key_blocks k), fcurves_of k))
    (GEO_OT_MergeToShapeKeys.shape_keys_of 2
       (final (run GEO_OT_MergeToShapeKeys.execute (Scenes.three_copies false))))
  = Some (false, ["Basis"; "copy2"; "copy3"],
          [mkFCurve DP_eval_time
             [mkKeyframe 1 0 LINEAR; mkKeyframe 48 20 LINEAR]]).
Proof. repeat split. Qed.

(** ** The three operators in a row *)

(** Three samples of the cube, merged in relative mode and cleaned up: the
    scene is left with the cube and the result, which carries the basis and
    one shape key for each of the other two samples. *)
Example workflow_three_samples :
  let baked := final (run GEO_OT_GeoNodesPrep.execute Scenes.fresh) in
  let merged := final (run GEO_OT_MergeToShapeKeys.execute baked) in
  let cleaned := final (run GEO_OT_RenameAndDelete.execute merged) in
  map ident (objects baked)
    = [(1%nat, "Cube"); (2%nat, "copy1"); (3%nat, "copy2"); (4%nat, "copy3")] /\
  frame_current baked = 20 /\
  map ident (objects cleaned) = [(1%nat, "Cube"); (2%nat, "shapekey_object")] /\
  option_map (fun k => map sk_name (key_blocks k))
             (GEO_OT_MergeToShapeKeys.shape_keys_of 2 cleaned)
    = Some ["Basis"; "copy2"; "copy3"].
Proof. repeat split. Qed.

(** ** The relative loop on any key *)

Lemma insert_keyframe_has (f v : Z) (ipo : Interpolation) (l : list Keyframe) :
  exists ipo', In (mkKeyframe f v ipo') (insert_keyframe (mkKeyframe f v ipo) l).
Proof.
  induction l as [|k l IH]; cbn [insert_keyframe kf_frame kf_value].
  - exists ipo. left. reflexivity.
  - destruct (f <? kf_frame k); [exists ipo; left; reflexivity|].
    destruct (Z.eqb_spec f (kf_frame k)) as [-> | _].
    + exists (interpolation k). left. reflexivity.
    + destruct IH as (ipo' & H). exists ipo'. right. exact H.
Qed.

Lemma insert_keyframe_keeps (kp kp' : Keyframe) (l : list Keyframe) :
  kf_frame kp' <> kf_frame kp -> In kp' l -> In kp' (insert_keyframe kp l).
Proof.
  intros Hne. induction l as [|k l IH]; intros Hin; [destruct Hin|].
  cbn [insert_keyframe].
  destruct (kf_frame kp <? kf_frame k); [right; exact Hin|].
  destruct (Z.eqb_spec (kf_frame kp) (kf_frame k)) as [E | _].
  - destruct Hin as [<- | Hin]; [congruence | right; exact Hin].
  - destruct Hin as [<- | Hin]; [left; reflexivity | right; apply IH, Hin].
Qed.

Lemma find_fcurves_insert (p : DataPath) (kp : Keyframe) (fcs : list FCurve) :
  find (fun f => path_eqb (data_path f) p) (fcurves_insert p kp fcs)
  = Some (mkFCurve p (insert_keyframe kp (points p fcs))).
Proof.
  unfold points. induction fcs as [|f fcs IH]; cbn [fcurves_insert find].
  - cbn [data_path]. rewrite path_eqb_refl. reflexivity.
  - destruct (path_eqb (data_path f) p) eqn:E; cbn [find data_path].
    + rewrite path_eqb_refl. reflexivity.
    + rewrite E. exact IH.
Qed.

Lemma path_eqb_eq (p q : DataPath) : path_eqb p q = true -> p = q.
Proof.
  destruct p, q; cbn; intros H; try discriminate H; [reflexivity|].
  apply Nat.eqb_eq in H. subst. reflexivity.
Qed.

Lemma find_fcurves_insert_other (p q : DataPath) (kp : Keyframe)
    (fcs : list FCurve) :
  p <> q ->
  find (fun f => path_eqb (data_path f) q) (fcurves_insert p kp fcs)
  = find (fun f => path_eqb (data_path f) q) fcs.
Proof.
  intros Hne. induction fcs as [|f fcs IH]; cbn [fcurves_insert find].
  - cbn [data_path]. destruct (path_eqb p q) eqn:E; [|reflexivity].
    apply path_eqb_eq in E. contradiction.
  - destruct (path_eqb (data_path f) p) eqn:E; cbn [find data_path].
    + apply path_eqb_eq in E. rewrite E.
      destruct (path_eqb p q) eqn:E'; [|reflexivity].
      apply path_eqb_eq in E'. contradiction.
    + rewrite IH. reflexivity.
Qed.

Lemma points_insert (p : DataPath) (kp : Keyframe) (fcs : list FCurve) :
  points p (fcurves_insert p kp fcs) = insert_keyframe kp (points p fcs).
Proof. unfold points at 1. rewrite find_fcurves_insert. reflexivity. Qed.

Lemma find_linearise (b : nat) (fcs : list FCurve) :
  option_map keyframe_points
    (find (fun f => path_eqb (data_path f) (DP_key_block_value b)) (linearise fcs))
  = option_map (fun f => map linear (keyframe_points f))
      (find (fun f => path_eqb (data_path f) (DP_key_block_value b)) fcs).
Proof.
  unfold linearise. induction fcs as [|f fcs IH]; [reflexivity|].
  cbn [map find].
  assert (E : data_path
                (if is_value_path (data_path f)
                 then mkFCurve (data_path f) (map linear (keyframe_points f))
                 else f) = data_path f)
    by (destruct (is_value_path (data_path f)); reflexivity).
  rewrite E.
  destruct (path_eqb (data_path f) (DP_key_block_value b)) eqn:Ep; [|exact IH].
  apply path_eqb_eq in Ep. rewrite Ep. reflexivity.
Qed.

Lemma map_linear_id (c : list Keyframe) :
  Forall (fun kp => interpolation kp = LINEAR) c -> map linear c = c.
Proof.
  induction 1 as [|kp c Hkp _ IH]; [reflexivity|].
  cbn [map]. rewrite IH. f_equal.
  destruct kp as [fr v ip]. cbn in Hkp. subst ip. reflexivity.
Qed.

Lemma map_linear_all (c : list Keyframe) :
  Forall (fun kp => interpolation kp = LINEAR) (map linear c).
Proof. induction c; constructor; [reflexivity | assumption]. Qed.

Lemma in_map_linear (f v : Z) (ipo : Interpolation) (c : list Keyframe) :
  In (mkKeyframe f v ipo) c -> keyed f v (map linear c).
Proof.
  intros H. unfold keyed.
  change (mkKeyframe f v LINEAR) with (linear (mkKeyframe f v ipo)).
  apply in_map. exact H.
Qed.

(** The value curve of the block after the inserts of its pass. *)
Lemma value_curve_pass (ipo : Interpolation) (i K b : nat) (fcs : list FCurve) :
  exists c,
    find (fun f => path_eqb (data_path f) (DP_key_block_value b))
         (pass_inserts ipo i K b fcs)
    = Some (mkFCurve (DP_key_block_value b) c) /\
    keyed (Z.of_nat i * 10) 0 (map linear c) /\
    keyed (Z.of_nat i * 10 + 10) 1 (map linear c) /\
    (Z.of_nat i < Z.of_nat K - 1 ->
     keyed (Z.of_nat i * 10 + 20) 0 (map linear c)).
Proof.
  unfold pass_inserts. cbv zeta.
  set (p := DP_key_block_value b).
  set (k1 := mkKeyframe (Z.of_nat i * 10) 0 ipo).
  set (k2 := mkKeyframe (Z.of_nat i * 10 + 10) 1 ipo).
  set (k3 := mkKeyframe (Z.of_nat i * 10 + 20) 0 ipo).
  set (c0 := points p fcs).
  destruct (insert_keyframe_has (Z.of_nat i * 10) 0 ipo c0) as (ip1 & H1).
  fold k1 in H1.
  destruct (insert_keyframe_has (Z.of_nat i * 10 + 10) 1 ipo
              (insert_keyframe k1 c0)) as (ip2 & H2).
  fold k2 in H2.
  assert (H12 : In (mkKeyframe (Z.of_nat i * 10) 0 ip1)
                   (insert_keyframe k2 (insert_keyframe k1 c0))).
  { apply insert_keyframe_keeps; [cbn; lia | exact H1]. }
  destruct (Z.ltb_spec (Z.of_nat i) (Z.of_nat K - 1)) as [Hlt | Hge].
  - eexists. split; [apply find_fcurves_insert|].
    rewrite !points_insert. fold c0.
    destruct (insert_keyframe_has (Z.of_nat i * 10 + 20) 0 ipo
                (insert_keyframe k2 (insert_keyframe k1 c0))) as (ip3 & H3).
    fold k3 in H3.
    split; [|split; [|intros _]].
    + apply (in_map_linear _ _ ip1).
      apply insert_keyframe_keeps; [cbn; lia | exact H12].
    + apply (in_map_linear _ _ ip2).
      apply insert_keyframe_keeps; [cbn; lia | exact H2].
    + apply (in_map_linear _ _ ip3). exact H3.
  - eexists. split; [apply find_fcurves_insert|].
    rewrite !points_insert. fold c0.
    split; [|split; [|intros Hlt; lia]].
    + apply (in_map_linear _ _ ip1). exact H12.
    + apply (in_map_linear _ _ ip2). exact H2.
Qed.

Lemma value_curve_pass_other (ipo : Interpolation) (i K b b' : nat)
    (fcs : list FCurve) :
  b <> b' ->
  find (fun f => path_eqb (data_path f) (DP_key_block_value b'))
       (pass_inserts ipo i K b fcs)
  = find (fun f => path_eqb (data_path f) (DP_key_block_value b')) fcs.
Proof.
  intros Hne. unfold pass_inserts. cbv zeta.
  assert (Hp : DP_key_block_value b <> DP_key_block_value b')
    by (intros E; injection E as E; contradiction).
  destruct (Z.of_nat i <? Z.of_nat K - 1);
    rewrite !find_fcurves_insert_other by exact Hp; reflexivity.
Qed.

(** One pass of the loop, whatever curves the key has: the pass inserts its
    keyframes and makes the value curves linear. *)
Lemma keyframe_values_pass (ipo : Interpolation) (K m : nat) (nm : string)
    (i b : nat) (k : Key) (rs : list Report) :
  (b < List.length (key_blocks k))%nat ->
  exists k' rs',
    GEO_OT_MergeToShapeKeys.keyframe_values ipo 10 K m nm (i, b) k rs
      = Next tt k' rs' /\
    fcurves_of k' = linearise (pass_inserts ipo i K b (fcurves_of k)) /\
    map sk_name (key_blocks k') = map sk_name (key_blocks k).
Proof.
  intros Hb.
  set (p := DP_key_block_value b).
  unfold GEO_OT_MergeToShapeKeys.keyframe_values, pass_inserts. cbv zeta.
  fold p.
  destruct (set_block_value_spec b 0 k rs Hb) as (k1 & E1 & V1 & N1 & A1).
  unfold bind at 1. rewrite E1.
  unfold bind at 1. rewrite (keyframe_insert_spec ipo p _ 0 k1 rs V1).
  assert (F1 : fcurves_of k1 = fcurves_of k)
    by (unfold fcurves_of; rewrite A1; reflexivity).
  rewrite F1.
  unfold bind at 1.
  match goal with
  | |- context [set_block_value b 1 ?k2 rs] =>
      assert (Hb2 : (b < List.length (key_blocks k2))%nat)
        by (cbn [key_blocks set_animation_data];
            rewrite <- (length_map sk_name), N1, length_map; exact Hb);
      destruct (set_block_value_spec b 1 k2 rs Hb2) as (k3 & E3 & V3 & N3 & A3)
  end.
  cbn [key_blocks set_animation_data animation_data] in N3, A3.
  rewrite E3.
  unfold bind at 1. rewrite (keyframe_insert_spec ipo p _ 1 k3 rs V3).
  match type of A3 with
  | _ = Some (mkAnimData (Some ?fcs1)) =>
      assert (F3 : fcurves_of k3 = fcs1)
        by (unfold fcurves_of; rewrite A3; reflexivity)
  end.
  rewrite F3.
  assert (Hb4 : (b < List.length (key_blocks k3))%nat)
    by (rewrite <- (length_map sk_name), N3, N1, length_map; exact Hb).
  destruct (Z.of_nat i <? Z.of_nat K - 1).
  - unfold bind at 1. unfold bind at 1.
    match goal with
    | |- context [set_block_value b 0 ?k4 rs] =>
        assert (Hb5 : (b < List.length (key_blocks k4))%nat)
          by (cbn [key_blocks set_animation_data]; exact Hb4);
        destruct (set_block_value_spec b 0 k4 rs Hb5) as (k5 & E5 & V5 & N5 & A5)
    end.
    cbn [key_blocks set_animation_data animation_data] in N5, A5.
    rewrite E5.
    rewrite (keyframe_insert_spec ipo p _ 0 k5 rs V5).
    match type of A5 with
    | _ = Some (mkAnimData (Some ?fcs2)) =>
        assert (F5 : fcurves_of k5 = fcs2)
          by (unfold fcurves_of; rewrite A5; reflexivity)
    end.
    rewrite F5.
    unfold bind at 1.
    erewrite force_linear_spec by reflexivity.
    unfold report. eexists. eexists. split; [reflexivity|].
    cbn [animation_data set_animation_data key_blocks].
    split; [reflexivity | congruence].
  - unfold bind at 1. unfold ret at 1.
    unfold bind at 1.
    erewrite force_linear_spec by reflexivity.
    unfold report. eexists. eexists. split; [reflexivity|].
    cbn [animation_data set_animation_data key_blocks].
    split; [reflexivity | congruence].
Qed.

(** One pass of the loop: the curve of its block holds the triangle, and
    the other value curves keep their keyframes, made linear. *)
Lemma pass_curves (ipo : Interpolation) (K m : nat) (nm : string)
    (i b : nat) (k : Key) (rs : list Report) :
  (b < List.length (key_blocks k))%nat ->
  exists k' rs',
    GEO_OT_MergeToShapeKeys.keyframe_values ipo 10 K m nm (i, b) k rs
      = Next tt k' rs' /\
    map sk_name (key_blocks k') = map sk_name (key_blocks k) /\
    (exists c, value_curve b k' = Some c /\ holds_triangle i K c) /\
    (forall b', b <> b' ->
       value_curve b' k' = option_map (map linear) (value_curve b' k)).
Proof.
  intros Hb.
  destruct (keyframe_values_pass ipo K m nm i b k rs Hb)
    as (k' & rs' & E & F & N).
  exists k', rs'. split; [exact E|]. split; [exact N|]. split.
  - destruct (value_curve_pass ipo i K b (fcurves_of k))
      as (c & Hfind & H1 & H2 & H3).
    exists (map linear c). split.
    + unfold value_curve. rewrite F, find_linearise, Hfind. reflexivity.
    + split; [apply map_linear_all|]. split; [exact H1|].
      split; [exact H2 | exact H3].
  - intros b' Hne. unfold value_curve.
    rewrite F, find_linearise, (value_curve_pass_other _ _ _ _ _ _ Hne).
    destruct (find _ (fcurves_of k)); reflexivity.
Qed.

(** The loop over the targets, whatever curves the key has: it runs to its
    end, and the curve of every target holds its triangle. *)
Lemma keyframe_values_loop_any (ipo : Interpolation) (K m : nat) (nm : string)
    (ts : list nat) :
  forall (a : nat) (k : Key) (rs : list Report),
    (forall b, In b ts -> (b < List.length (key_blocks k))%nat) ->
    NoDup ts ->
    exists k' rs',
      for_each (combine (seq a (List.length ts)) ts)
               (GEO_OT_MergeToShapeKeys.keyframe_values ipo 10 K m nm) k rs
        = Next tt k' rs' /\
      map sk_name (key_blocks k') = map sk_name (key_blocks k) /\
      (forall j b, nth_error ts j = Some b ->
         exists c, value_curve b k' = Some c /\ holds_triangle (a + j) K c) /\
      (forall b', ~ In b' ts ->
         forall c, value_curve b' k = Some c ->
                   Forall (fun kp => interpolation kp = LINEAR) c ->
                   value_curve b' k' = Some c).
Proof.
  induction ts as [|b ts IH]; intros a k rs Hlt Hnd.
  - exists k, rs. split; [reflexivity|]. split; [reflexivity|].
    split; [intros [|j] b H; discriminate H|]. intros b' _ c Hc _. exact Hc.
  - apply NoDup_cons_iff in Hnd. destruct Hnd as (Hnotin & Hnd).
    destruct (pass_curves ipo K m nm a b k rs (Hlt b (or_introl eq_refl)))
      as (k1 & rs1 & E1 & N1 & (c1 & Hc1 & Ht1) & Hother).
    destruct (IH (S a) k1 rs1) as (k2 & rs2 & E2 & N2 & Hts & Hkeep).
    + intros b' Hb'. rewrite <- (length_map sk_name), N1, length_map.
      apply Hlt. right. exact Hb'.
    + exact Hnd.
    + exists k2, rs2. cbn [List.length seq combine for_each].
      split; [unfold bind; rewrite E1; exact E2|].
      split; [congruence|]. split.
      * intros [|j] b' Hj; cbn [nth_error] in Hj.
        -- injection Hj as <-. rewrite Nat.add_0_r. exists c1. split; [|exact Ht1].
           apply Hkeep; [exact Hnotin | exact Hc1 | apply Ht1].
        -- replace (a + S j)%nat with (S a + j)%nat by lia. apply Hts. exact Hj.
      * intros b' Hb' c Hc Hlin. apply Hkeep.
        -- intros Hin. apply Hb'. right. exact Hin.
        -- rewrite Hother, Hc by (intros ->; apply Hb'; left; reflexivity).
           cbn [option_map]. rewrite (map_linear_id c Hlin). reflexivity.
        -- exact Hlin.
Qed.

(** The relative branch and the loop on any key: the operator finishes, and
    the curve of every block other than "Basis" holds its triangle. *)
Lemma animate_relative_any (ipo : Interpolation) (n m : nat) (nm : string)
    (k : Key) (rs : list Report) :
  exists k' rs',
    GEO_OT_MergeToShapeKeys.animate ipo true n m nm k rs = Stop FINISHED k' rs' /\
    map sk_name (key_blocks k') = map sk_name (key_blocks k) /\
    forall j b, nth_error (non_basis (key_blocks k)) j = Some b ->
      exists c, value_curve b k' = Some c /\
                holds_triangle j (List.length (non_basis (key_blocks k))) c.
Proof.
  set (ts := non_basis (key_blocks k)).
  assert (Hloop : forall k0, key_blocks k0 = key_blocks k ->
            exists k' rs',
              for_each (enumerate ts)
                (GEO_OT_MergeToShapeKeys.keyframe_values ipo 10
                   (List.length ts) m nm) k0 rs = Next tt k' rs' /\
              map sk_name (key_blocks k') = map sk_name (key_blocks k) /\
              forall j b, nth_error ts j = Some b ->
                exists c, value_curve b k' = Some c /\
                          holds_triangle j (List.length ts) c).
  { intros k0 Hk0.
    destruct (keyframe_values_loop_any ipo (List.length ts) m nm ts 0 k0 rs)
      as (k' & rs' & E & N & Hts & _).
    - intros b Hb. rewrite Hk0. apply non_basis_lt. exact Hb.
    - apply non_basis_NoDup.
    - exists k', rs'. split; [exact E|]. rewrite Hk0 in N.
      split; [exact N | exact Hts]. }
  unfold GEO_OT_MergeToShapeKeys.animate. cbn [negb].
  unfold bind at 1. unfold bind at 1. unfold gets at 1.
  destruct (animation_data k) as [ad|] eqn:Had.
  - unfold bind at 1. unfold ret at 1.
    unfold bind at 1. unfold gets at 1. unfold ret at 1. cbv zeta.
    unfold bind at 1. unfold ret at 1. fold ts.
    destruct (Hloop k eq_refl) as (k' & rs' & E & N & Hts).
    exists k', rs'. unfold bind. rewrite E. split; [reflexivity|].
    split; [exact N | exact Hts].
  - unfold bind at 1. unfold animation_data_create at 1, modify at 1. rewrite Had.
    unfold bind at 1. unfold gets at 1. unfold ret at 1.
    cbn [key_blocks set_animation_data]. cbv zeta.
    unfold bind at 1. unfold ret at 1. fold ts.
    destruct (Hloop (set_animation_data (Some (mkAnimData None)) k) eq_refl)
      as (k' & rs' & E & N & Hts).
    exists k', rs'. unfold bind. rewrite E. split; [reflexivity|].
    split; [exact N | exact Hts].
Qed.

(** ** Targets by position *)

Lemma non_basis_from (bs : list ShapeKey) :
  forall (a b : nat) (sk : ShapeKey),
    nth_error bs b = Some sk -> is_target sk = true ->
    nth_error
      (map fst (filter (fun p => is_target (snd p))
                       (combine (seq a (List.length bs)) bs)))
      (ordinal b bs)
    = Some (a + b)%nat.
Proof.
  induction bs as [|x bs IH]; intros a b sk Hb Ht.
  - destruct b; discriminate Hb.
  - cbn [List.length seq combine filter snd]. unfold ordinal.
    destruct b as [|b]; cbn [nth_error firstn filter] in *.
    + injection Hb as ->. rewrite Ht. cbn. rewrite Nat.add_0_r. reflexivity.
    + specialize (IH (S a) b sk Hb Ht). unfold ordinal in IH.
      replace (a + S b)%nat with (S a + b)%nat by lia.
      destruct (is_target x); cbn [map fst List.length nth_error]; exact IH.
Qed.

Lemma non_basis_ordinal (bs : list ShapeKey) (b : nat) (sk : ShapeKey) :
  nth_error bs b = Some sk -> is_target sk = true ->
  nth_error (non_basis bs) (ordinal b bs) = Some b.
Proof. intros Hb Ht. apply (non_basis_from bs 0 b sk Hb Ht). Qed.

Lemma non_basis_count (bs : list ShapeKey) :
  List.length (non_basis bs) = targets bs.
Proof.
  unfold non_basis, targets, enumerate. generalize 0%nat.
  induction bs as [|x bs IH]; intros a; [reflexivity|].
  cbn [List.length seq combine filter snd].
  change (negb (sk_name x =? "Basis")%string) with (is_target x).
  destruct (is_target x); cbn [map List.length]; rewrite IH; reflexivity.
Qed.

(** C2. In relative mode, on copies that pass the validation, the merge
    operator finishes, and every shape key of the base other than "Basis"
    has a value curve afterwards; with i the ordinal of the key among those
    K keys (0-based, in the order of the blocks), the curve is linear and
    holds the keyframes (10 i, 0) and (10 i + 10, 1), and (10 i + 20, 0) when
    i < K - 1.  When the key of the base, if it has one, was not animated
    before, these are all the keyframes of the curve: the last target has
    none at frame 10 i + 20. *)
Theorem merge_relative_keyframes (s : Blend) (copy1 : Object)
    (rest : list Object) :
  GEO_Props.use_relative (props s) = true ->
  sorted_copies (objects s) = copy1 :: rest -> rest <> [] ->
  status (run GEO_OT_MergeToShapeKeys.execute s) = FINISHED /\
  exists k,
    GEO_OT_MergeToShapeKeys.shape_keys_of (ob_id copy1)
      (final (run GEO_OT_MergeToShapeKeys.execute s)) = Some k /\
    forall (b : nat) (sk : ShapeKey),
      nth_error (key_blocks k) b = Some sk -> sk_name sk <> "Basis" ->
      exists curve,
        value_curve b k = Some curve /\
        Forall (fun kp => interpolation kp = LINEAR) curve /\
        In (mkKeyframe (Z.of_nat (ordinal b (key_blocks k)) * 10) 0 LINEAR)
           curve /\
        In (mkKeyframe (Z.of_nat (ordinal b (key_blocks k)) * 10 + 10) 1 LINEAR)
           curve /\
        (Z.of_nat (ordinal b (key_blocks k))
           < Z.of_nat (targets (key_blocks k)) - 1 ->
         In (mkKeyframe (Z.of_nat (ordinal b (key_blocks k)) * 10 + 20) 0 LINEAR)
            curve) /\
        ((forall k0,
            GEO_OT_MergeToShapeKeys.shape_keys_of (ob_id copy1) s = Some k0 ->
            animation_data k0 = None) ->
         curve
         = ([mkKeyframe (Z.of_nat (ordinal b (key_blocks k)) * 10) 0 LINEAR;
             mkKeyframe (Z.of_nat (ordinal b (key_blocks k)) * 10 + 10) 1 LINEAR]
            ++ (if Z.of_nat (ordinal b (key_blocks k))
                   <? Z.of_nat (targets (key_blocks k)) - 1
                then [mkKeyframe
                        (Z.of_nat (ordinal b (key_blocks k)) * 10 + 20) 0 LINEAR]
                else []))%list).
Proof.
  intros Hrel Hsorted Hrest.
  destruct (merge_run s copy1 rest (fun _ => True) Hsorted Hrest I)
    as (s5 & H5 & E).
  destruct H5 as (_ & _ & _ & _ & _ & _ & k5 & Hk5 & _).
  destruct (animate_relative_any (ipo_new s) (List.length (copy1 :: rest))
              (List.length rest) (name copy1) k5 [])
    as (k' & rs' & Ea & N & Hcurves).
  assert (Hfinal : GEO_OT_MergeToShapeKeys.shape_keys_of (ob_id copy1)
                     (final (run GEO_OT_MergeToShapeKeys.execute s)) = Some k').
  { rewrite E, Hrel. unfold zoom. rewrite Hk5, Ea. cbn [outcome final].
    apply (shape_keys_of_set _ k5). exact Hk5. }
  split.
  { rewrite E, Hrel. unfold zoom. rewrite Hk5, Ea. reflexivity. }
  exists k'. split; [exact Hfinal|].
  intros b sk Hb Hname.
  assert (Ht : is_target sk = true).
  { unfold is_target. destruct (String.eqb_spec (sk_name sk) "Basis");
      [contradiction | reflexivity]. }
  pose proof (non_basis_ordinal _ _ _ Hb Ht) as Hord.
  pose proof (non_basis_count (key_blocks k')) as Hcount.
  rewrite (non_basis_names _ _ N) in Hord, Hcount.
  destruct (Hcurves _ _ Hord) as (c & Hc & Hlin & H1 & H2 & H3).
  rewrite Hcount in H3.
  exists c. split; [exact Hc|]. split; [exact Hlin|]. split; [exact H1|].
  split; [exact H2|]. split; [exact H3|].
  intros Hfresh.
  destruct (merge_relative_fresh_curves s copy1 rest Hrel Hsorted Hrest Hfresh)
    as (k'' & Hk'' & Hexact).
  rewrite Hfinal in Hk''. injection Hk'' as <-.
  rewrite <- (non_basis_names _ _ N) in Hord.
  specialize (Hexact _ _ Hord). rewrite Hc in Hexact. injection Hexact as ->.
  rewrite non_basis_count. reflexivity.
Qed.

Lemma merge_relative_keyframes_witness :
  status (run GEO_OT_MergeToShapeKeys.execute (Scenes.three_copies true))
    = FINISHED /\
  exists k,
    GEO_OT_MergeToShapeKeys.shape_keys_of 2
      (final (run GEO_OT_MergeToShapeKeys.execute (Scenes.three_copies true)))
      = Some k /\
    forall (b : nat) (sk : ShapeKey),
      nth_error (key_blocks k) b = Some sk -> sk_name sk <> "Basis" ->
      exists curve,
        value_curve b k = Some curve /\
        Forall (fun kp => interpolation kp = LINEAR) curve /\
        In (mkKeyframe (Z.of_nat (ordinal b (key_blocks k)) * 10) 0 LINEAR)
           curve /\
        In (mkKeyframe (Z.of_nat (ordinal b (key_blocks k)) * 10 + 10) 1 LINEAR)
           curve /\
        (Z.of_nat (ordinal b (key_blocks k))
           < Z.of_nat (targets (key_blocks k)) - 1 ->
         In (mkKeyframe (Z.of_nat (ordinal b (key_blocks k)) * 10 + 20) 0 LINEAR)
            curve) /\
        ((forall k0,
            GEO_OT_MergeToShapeKeys.shape_keys_of 2 (Scenes.three_copies true)
              = Some k0 ->
            animation_data k0 = None) ->
         curve
         = ([mkKeyframe (Z.of_nat (ordinal b (key_blocks k)) * 10) 0 LINEAR;
             mkKeyframe (Z.of_nat (ordinal b (key_blocks k)) * 10 + 10) 1 LINEAR]
            ++ (if Z.of_nat (ordinal b (key_blocks k))
                   <? Z.of_nat (targets (key_blocks k)) - 1
                then [mkKeyframe
                        (Z.of_nat (ordinal b (key_blocks k)) * 10 + 20) 0 LINEAR]
                else []))%list).
Proof.
  apply (merge_relative_keyframes (Scenes.three_copies true)
           (Scenes.snapshot 2 "copy1" 0)
           [Scenes.snapshot 3 "copy2" 10; Scenes.snapshot 4 "copy3" 20]).
  - reflexivity.
  - reflexivity.
  - discriminate.
Defined.


(** * Further properties of the operators *)

(** ** Statements that keep a part of the state *)

Lemma keeps_ret {St A B} (f : St -> B) (a : A) : keeps f (ret a).
Proof. intros s rs. reflexivity. Qed.

Lemma keeps_gets {St A B} (f : St -> B) (g : St -> A) : keeps f (gets g).
Proof. intros s rs. reflexivity. Qed.

Lemma keeps_report {St B} (f : St -> B) (ty : ReportType) (msg : string) :
  keeps f (report ty msg).
Proof. intros s rs. reflexivity. Qed.

Lemma keeps_return {St A B} (f : St -> B) (st : Status) :
  keeps f (@return_ St A st).
Proof. intros s rs. reflexivity. Qed.

Lemma keeps_raise {St A B} (f : St -> B) (e : Exception) :
  keeps f (@raise St A e).
Proof. intros s rs. reflexivity. Qed.

Lemma keeps_modify {St B} (f : St -> B) (g : St -> St) :
  (forall s, f (g s) = f s) -> keeps f (modify g).
Proof. intros H s rs. apply H. Qed.

Lemma keeps_bind {St A A' B} (f : St -> B) (m : Op St A) (k : A -> Op St A') :
  keeps f m -> (forall a, keeps f (k a)) -> keeps f (bind m k).
Proof.
  intros Hm Hk s rs. unfold bind. specialize (Hm s rs).
  destruct (m s rs) as [a s1 rs1 | st s1 rs1]; cbn [state_of] in *.
  - rewrite Hk. exact Hm.
  - exact Hm.
Qed.

Lemma keeps_for_each {St A B} (f : St -> B) (body : A -> Op St unit)
    (l : list A) :
  (forall x, keeps f (body x)) -> keeps f (for_each l body).
Proof.
  intros Hbody. induction l as [|x l IH]; cbn [for_each].
  - apply keeps_ret.
  - apply keeps_bind; [apply Hbody | intros _; exact IH].
Qed.

Lemma keeps_zoom {St Sub A B} (f : St -> B) (get : St -> option Sub)
    (set : Sub -> St -> St) (e : Exception) (m : Op Sub A) :
  (forall sub s, f (set sub s) = f s) -> keeps f (zoom get set e m).
Proof.
  intros Hset s rs. unfold zoom.
  destruct (get s) as [sub|]; [|reflexivity].
  destruct (m sub rs); cbn [state_of]; apply Hset.
Qed.

Lemma keeps_if {St A B} (f : St -> B) (c : bool) (m1 m2 : Op St A) :
  keeps f m1 -> keeps f m2 -> keeps f (if c then m1 else m2).
Proof. destruct c; auto. Qed.

Lemma final_run (m : Op Blend Status) (s : Blend) :
  final (run m s) = state_of (m s []).
Proof. unfold run, outcome. destruct (m s []); reflexivity. Qed.

(** ** The cleanup operator without snapshots *)

Lemma cleanup_without_copies (s : Blend) :
  filter is_copy (scene_objects s) = [] ->
  run GEO_OT_RenameAndDelete.execute s
  = mkOutcome CANCELLED [(ERROR, no_copies_message)] s.
Proof.
  intros H. unfold run, GEO_OT_RenameAndDelete.execute, bind, gets.
  rewrite H. reflexivity.
Qed.




(** ** What the operators never change *)

Ltac keeps_step :=
  first
    [ apply keeps_ret | apply keeps_gets | apply keeps_report
    | apply keeps_return | apply keeps_raise
    | apply keeps_for_each; intros ?
    | apply keeps_bind; [|intros ?]
    | apply keeps_if
    | match goal with
      | |- keeps _ (match ?x with _ => _ end) => destruct x
      | |- keeps _ (let (_, _) := ?x in _) => destruct x
      end ].

Ltac keeps_tac := repeat keeps_step.

Lemma keeps_join_shapes {B} (f : Blend -> B) :
  (forall objs s, f (set_objects objs s) = f s) -> keeps f join_shapes.
Proof.
  intros H. unfold join_shapes. keeps_tac.
  apply keeps_modify. intros s.
  destruct (get_object _ (objects s)); [|reflexivity].
  match goal with |- f (match ?l with _ => _ end) = _ => destruct l end;
    [reflexivity | apply H].
Qed.

Lemma keeps_shape_key_add {B} (f : Blend -> B) :
  (forall objs s, f (set_objects objs s) = f s) -> keeps f shape_key_add.
Proof.
  intros H. unfold shape_key_add. keeps_tac.
  apply keeps_modify. intros s. apply H.
Qed.

Lemma keeps_select_set {B} (f : Blend -> B) (id : nat) (b : bool) :
  (forall objs s, f (set_objects objs s) = f s) -> keeps f (select_set id b).
Proof. intros H. apply keeps_modify. intros s. apply H. Qed.

Lemma keeps_join_copies {B} (f : Blend -> B) (copy1 : Object)
    (rest : list Object) :
  (forall objs s, f (set_objects objs s) = f s) ->
  (forall a s, f (set_active a s) = f s) ->
  keeps f (GEO_OT_MergeToShapeKeys.join_copies copy1 rest).
Proof.
  intros Hobjs Hact. unfold GEO_OT_MergeToShapeKeys.join_copies.
  apply keeps_bind; [apply keeps_modify; intros s; apply Hobjs | intros _].
  apply keeps_bind; [apply keeps_select_set, Hobjs | intros _].
  apply keeps_bind; [apply keeps_modify; intros s; apply Hact | intros _].
  apply keeps_bind; [apply keeps_shape_key_add, Hobjs | intros _].
  apply keeps_for_each. intros o.
  apply keeps_bind; [apply keeps_select_set, Hobjs | intros _].
  apply keeps_bind; [apply keeps_join_shapes, Hobjs | intros _].
  apply keeps_select_set, Hobjs.
Qed.

(** The merge operator past the switch to Object mode. *)
Lemma keeps_merge_body {B} (f : Blend -> B) (k : Mode -> Op Blend unit) :
  (forall objs s, f (set_objects objs s) = f s) ->
  (forall a s, f (set_active a s) = f s) ->
  (forall m, keeps f (k m)) ->
  keeps f (bind (gets mode) (fun m => bind (k m) (fun _ =>
    props <- gets props ;;
    let use_relative := GEO_Props.use_relative props in
    copies <- gets (fun s => filter is_copy (scene_objects s)) ;;
    if (List.length copies <? 2)%nat then
      report ERROR "Need at least copy1 and copy2 present." ;;
      return_ CANCELLED
    else
      let copies := sort_by idx copies in
      match copies with
      | [] => raise IndexError
      | copy1 :: rest =>
          GEO_OT_MergeToShapeKeys.join_copies copy1 rest ;;
          ipo <- gets ipo_new ;;
          zoom (GEO_OT_MergeToShapeKeys.shape_keys_of (ob_id copy1))
               (GEO_OT_MergeToShapeKeys.set_shape_keys (ob_id copy1))
               AttributeError
               (GEO_OT_MergeToShapeKeys.animate ipo use_relative
                  (List.length copies) (List.length rest) (name copy1))
      end)))%op.
Proof.
  intros Hobjs Hact Hk.
  apply keeps_bind; [apply keeps_gets | intros m].
  apply keeps_bind; [apply Hk | intros _].
  apply keeps_bind; [apply keeps_gets | intros p].
  apply keeps_bind; [apply keeps_gets | intros copies].
  destruct (List.length copies <? 2)%nat.
  - keeps_tac.
  - cbv zeta. destruct (sort_by idx copies) as [|copy1 rest].
    + apply keeps_raise.
    + apply keeps_bind; [apply keeps_join_copies; assumption | intros _].
      apply keeps_bind; [apply keeps_gets | intros ipo].
      apply keeps_zoom. intros sub s.
      unfold GEO_OT_MergeToShapeKeys.set_shape_keys. apply Hobjs.
Qed.

(** X2. Whatever the scene and however the invocation ends (cancelled,
    finished or stopped by an exception), the merge operator leaves the
    current frame and the settings as they were, and the host in Object
    mode. *)
Theorem merge_keeps_frame_and_settings (s : Blend) :
  frame_current (final (run GEO_OT_MergeToShapeKeys.execute s)) = frame_current s /\
  props (final (run GEO_OT_MergeToShapeKeys.execute s)) = props s /\
  mode (final (run GEO_OT_MergeToShapeKeys.execute s)) = OBJECT.
Proof.
  rewrite final_run. split; [|split].
  - apply (keeps_merge_body frame_current); try reflexivity.
    intros m. apply keeps_if; [apply keeps_modify; reflexivity | apply keeps_ret].
  - apply (keeps_merge_body props); try reflexivity.
    intros m. apply keeps_if; [apply keeps_modify; reflexivity | apply keeps_ret].
  - pose proof (keeps_merge_body mode (fun _ => ret tt)
                  (fun _ _ => eq_refl) (fun _ _ => eq_refl)
                  (fun _ => keeps_ret mode tt) (set_mode OBJECT s) []) as H.
    unfold GEO_OT_MergeToShapeKeys.execute.
    unfold bind at 1. unfold gets at 1. unfold bind at 1.
    rewrite merge_enter. exact H.
Qed.

(** ** The names the host gives *)

Lemma name_taken_in (used : list string) (n : string) :
  name_taken used n = true <-> In n used.
Proof.
  unfold name_taken. rewrite existsb_exists. split.
  - intros (x & Hx & E). apply String.eqb_eq in E. subst x. exact Hx.
  - intros H. exists n. split; [exact H | apply String.eqb_refl].
Qed.

Lemma first_free_suffix (used : list string) (base : string) (fuel : nat) :
  forall k, exists suffix, first_free used base k fuel = base ++ suffix.
Proof.
  induction fuel as [|fuel IH]; intros k; cbn [first_free].
  - eexists. reflexivity.
  - destruct (name_taken used (base ++ "." ++ pad3 k)); [apply IH|].
    eexists. reflexivity.
Qed.

(** The name given begins with the name asked for. *)
Lemma unique_name_suffix (used : list string) (n : string) :
  exists suffix, unique_name used n = n ++ suffix.
Proof.
  unfold unique_name. destruct (name_taken used n).
  - apply first_free_suffix.
  - exists "". clear. induction n as [|c n IH]; cbn; [|rewrite <- IH]; reflexivity.
Qed.

Lemma first_free_cases (used : list string) (base : string) (fuel : nat) :
  forall k,
    ~ In (first_free used base k fuel) used \/
    (forall j, (k <= j < k + fuel)%nat -> In (base ++ "." ++ pad3 j) used).
Proof.
  induction fuel as [|fuel IH]; intros k; cbn [first_free].
  - right. intros j Hj. lia.
  - destruct (name_taken used (base ++ "." ++ pad3 k)) eqn:E.
    + destruct (IH (S k)) as [H | H]; [left; exact H | right].
      intros j Hj. destruct (Nat.eq_dec j k) as [-> | Hne].
      * apply name_taken_in. exact E.
      * apply H. lia.
    + left. intros H. apply name_taken_in in H. congruence.
Qed.

Lemma append_same_head (s a b : string) : s ++ a = s ++ b -> a = b.
Proof.
  induction s as [|c s IH]; cbn; intros H; [exact H|].
  injection H as H. apply IH. exact H.
Qed.

Lemma append_not_longer (s t : string) : s ++ t = s -> t = "".
Proof.
  induction s as [|c s IH]; cbn; intros H; [exact H|].
  injection H as H. apply IH. exact H.
Qed.

Lemma digits_pad3 (n : nat) :
  PyStr.digits_acc 0 false (pad3 n) = Some (Z.of_nat n).
Proof.
  assert (H : forall prev, PyStr.digits_acc 0 prev (PyStr.str_nat n)
                           = Some (Z.of_nat n)).
  { intros prev. rewrite Digits.str_nat_uint.
    pose proof (Digits.digits_acc_uint (Nat.to_uint n) 0 prev
                  (or_introl (Digits.to_uint_nonnil n))) as E.
    change (Z.of_nat 0) with 0 in E.
    fold (Nat.of_uint (Nat.to_uint n)) in E.
    rewrite Unsigned.of_to in E. exact E. }
  unfold pad3. destruct (n <? 10)%nat; [|destruct (n <? 100)%nat];
    cbn [append PyStr.digits_acc]; apply H.
Qed.

Lemma pad3_inj (a b : nat) : pad3 a = pad3 b -> a = b.
Proof.
  intros E. apply (f_equal (PyStr.digits_acc 0 false)) in E.
  rewrite !digits_pad3 in E. injection E as E. lia.
Qed.

Lemma NoDup_map_injective {A B} (g : A -> B) (xs : list A) :
  (forall a b, g a = g b -> a = b) -> NoDup xs -> NoDup (map g xs).
Proof.
  intros Hg. induction 1 as [|x xs Hx _ IH]; cbn [map]; constructor; [|exact IH].
  intros Hin. apply in_map_iff in Hin. destruct Hin as (y & E & Hy).
  apply Hg in E. subst y. contradiction.
Qed.

(** The name given is never a name in use. *)
Lemma unique_name_fresh (used : list string) (n : string) :
  ~ In (unique_name used n) used.
Proof.
  unfold unique_name. destruct (name_taken used n) eqn:E.
  2:{ intros H. apply name_taken_in in H. congruence. }
  destruct (first_free_cases used n (List.length used) 1) as [H | H];
    [exact H|]. exfalso.
  apply name_taken_in in E.
  set (cands := map (fun j => n ++ "." ++ pad3 j) (seq 1 (List.length used))).
  assert (Hnd : NoDup (n :: cands)).
  { constructor.
    - intros Hin. apply in_map_iff in Hin. destruct Hin as (j & Ej & _).
      apply append_not_longer in Ej. discriminate Ej.
    - apply NoDup_map_injective; [|apply seq_NoDup].
      intros a b Eab. apply append_same_head in Eab.
      injection Eab as Eab. apply pad3_inj. exact Eab. }
  assert (Hincl : incl (n :: cands) used).
  { intros x [<- | Hx]; [exact E|].
    apply in_map_iff in Hx. destruct Hx as (j & <- & Hj).
    apply in_seq in Hj. apply H. lia. }
  pose proof (NoDup_incl_length Hnd Hincl) as Hlen.
  cbn [List.length] in Hlen. unfold cands in Hlen.
  rewrite length_map, length_seq in Hlen. lia.
Qed.

Lemma copy_name_given_is_copy (used : list string) (i : Z) (o : Object) :
  name o = unique_name used (copy_name i) -> is_copy o = true.
Proof.
  intros E. unfold is_copy, PyStr.startswith. rewrite E.
  destruct (unique_name_suffix used (copy_name i)) as (suffix & ->).
  unfold copy_name.
  destruct (PyStr.str (i + 1)) as [|c t]; destruct suffix; reflexivity.
Qed.

(** ** More on the prep operator *)

Lemma fresh_id_new (objs : list Object) : ~ In (fresh_id objs) (map ob_id objs).
Proof.
  unfold fresh_id. intros H.
  assert (Hle : Forall (fun k => (k <= list_max (map ob_id objs))%nat)
                       (map ob_id objs))
    by (apply list_max_le; lia).
  rewrite Forall_forall in Hle. apply Hle in H. lia.
Qed.

Lemma NoDup_snoc {A} (xs : list A) (x : A) :
  NoDup xs -> ~ In x xs -> NoDup (xs ++ [x]).
Proof.
  intros Hnd Hx. apply NoDup_app; [exact Hnd | repeat constructor; intros [] |].
  intros a Ha [<- | []]. contradiction.
Qed.

(** The state a finished prep invocation leaves is the state its loop
    leaves. *)
Lemma prep_final_loop (s : Blend) (base : Object) :
  selected s = Some base -> In NODES (modifiers base) ->
  final (run GEO_OT_GeoNodesPrep.execute s)
  = state_of (for_each (range (GEO_Props.total_frames (props s)))
                       (GEO_OT_GeoNodesPrep.bake base) s []).
Proof.
  intros Hsel Hmod.
  destruct (prep_run s base Hsel Hmod) as (created & E & _).
  destruct (bake_loop base (Z.to_nat (GEO_Props.total_frames (props s))) 0 s [])
    as (created' & E' & _).
  unfold range. rewrite E'. cbn [state_of].
  destruct (find_is_nodes_some _ Hmod) as (gm & Hgm).
  unfold run, GEO_OT_GeoNodesPrep.execute, bind, gets, range.
  rewrite Hsel, Hgm, E'.
  destruct (active s) as [a|] eqn:Ha;
    unfold modify, ret, report, return_, set_active, set_objects,
      set_frame_current;
    cbn [objects frame_current active mode props ipo_new app outcome final];
    rewrite ?Ha; reflexivity.
Qed.

(** What every pass of the loop keeps true: the objects there were are still
    there, in front, and those added are snapshots, bare, with references
    and names of their own. *)
Lemma bake_loop_distinct (base : Object) (l : list Z) (s0 : Blend) :
  NoDup (map ob_id (objects s0)) -> NoDup (map name (objects s0)) ->
  forall rs,
  exists s' rs',
    for_each l (GEO_OT_GeoNodesPrep.bake base) s0 rs = Next tt s' rs' /\
    NoDup (map ob_id (objects s')) /\ NoDup (map name (objects s')) /\
    exists created,
      objects s' = (objects s0 ++ created)%list /\
      Forall (fun o => is_copy o = true /\ bare o) created.
Proof.
  intros Hid Hname rs.
  apply (for_each_invariant
           (fun s' _ =>
              NoDup (map ob_id (objects s')) /\ NoDup (map name (objects s')) /\
              exists created,
                objects s' = (objects s0 ++ created)%list /\
                Forall (fun o => is_copy o = true /\ bare o) created)).
  - intros i s1 rs1 _ (Hid1 & Hname1 & created & Hobjs & Hall).
    rewrite bake_step. eexists. eexists. split; [reflexivity|].
    cbn [objects set_objects].
    rewrite !map_app. cbn [map ob_id name].
    split; [apply NoDup_snoc; [exact Hid1 | apply fresh_id_new]|].
    split; [apply NoDup_snoc; [exact Hname1 | apply unique_name_fresh]|].
    eexists. split; [rewrite Hobjs, <- app_assoc; reflexivity|].
    apply Forall_app. split; [exact Hall|].
    constructor; [|constructor]. split.
    + eapply copy_name_given_is_copy. reflexivity.
    + repeat split.
  - split; [exact Hid|]. split; [exact Hname|].
    exists []. split; [rewrite app_nil_r; reflexivity | constructor].
Qed.

(** X3. Whatever the scene and however it ends, the prep operator leaves
    the interaction mode, the settings and the active object as they were,
    and every object there was stays in the scene unchanged, in its place:
    the operator only appends objects (and moves the frame). *)
Theorem prep_keeps_context (s : Blend) :
  mode (final (run GEO_OT_GeoNodesPrep.execute s)) = mode s /\
  props (final (run GEO_OT_GeoNodesPrep.execute s)) = props s /\
  active (final (run GEO_OT_GeoNodesPrep.execute s)) = active s /\
  exists created,
    objects (final (run GEO_OT_GeoNodesPrep.execute s))
    = (objects s ++ created)%list.
Proof.
  destruct (selected s) as [base|] eqn:Hsel.
  - destruct (in_dec (fun a b : ModifierType =>
                        ltac:(decide equality) : {a = b} + {a <> b})
                     NODES (modifiers base)) as [Hmod | Hmod].
    + destruct (prep_run s base Hsel Hmod) as (created & E & _).
      rewrite E. cbn [final]. repeat split. exists created. reflexivity.
    + rewrite (prep_no_modifier s base Hsel Hmod). cbn [final].
      repeat split. exists []. rewrite app_nil_r. reflexivity.
  - rewrite (prep_no_selection s Hsel). cbn [final].
    repeat split. exists []. rewrite app_nil_r. reflexivity.
Qed.

(** X4. On a scene whose objects have distinct references and distinct
    names, a prep invocation on a source with a Geometry Nodes modifier
    finishes with the single report "Prepared N copies with evaluated
    meshes." and leaves references and names distinct; every object it adds
    has a name that starts with "copy" (whatever names were taken), is not
    selected, and has no modifier and no shape key. *)
Theorem prep_copies_distinct (s : Blend) (base : Object) :
  selected s = Some base -> In NODES (modifiers base) ->
  NoDup (map ob_id (objects s)) -> NoDup (map name (objects s)) ->
  status (run GEO_OT_GeoNodesPrep.execute s) = FINISHED /\
  reports (run GEO_OT_GeoNodesPrep.execute s)
    = [(INFO, "Prepared " ++ PyStr.str (GEO_Props.total_frames (props s))
              ++ " copies with evaluated meshes.")] /\
  NoDup (map ob_id (objects (final (run GEO_OT_GeoNodesPrep.execute s)))) /\
  NoDup (map name (objects (final (run GEO_OT_GeoNodesPrep.execute s)))) /\
  exists created,
    objects (final (run GEO_OT_GeoNodesPrep.execute s))
      = (objects s ++ created)%list /\
    Forall (fun o => is_copy o = true /\ select o = false /\
                     modifiers o = [] /\ shape_keys (data o) = None) created.
Proof.
  intros Hsel Hmod Hid Hname.
  destruct (prep_run s base Hsel Hmod) as (created0 & E & _).
  split; [rewrite E; reflexivity|]. split; [rewrite E; reflexivity|].
  rewrite (prep_final_loop s base Hsel Hmod).
  destruct (bake_loop_distinct base
              (range (GEO_Props.total_frames (props s))) s Hid Hname [])
    as (s' & rs' & El & Hid' & Hname' & created & Hobjs & Hall).
  rewrite El. cbn [state_of].
  split; [exact Hid'|]. split; [exact Hname'|].
  exists created. split; [exact Hobjs|]. exact Hall.
Qed.

Lemma prep_copies_distinct_witness :
  status (run GEO_OT_GeoNodesPrep.execute Scenes.leftover) = FINISHED /\
  reports (run GEO_OT_GeoNodesPrep.execute Scenes.leftover)
    = [(INFO, "Prepared "
              ++ PyStr.str (GEO_Props.total_frames (props Scenes.leftover))
              ++ " copies with evaluated meshes.")] /\
  NoDup (map ob_id
           (objects (final (run GEO_OT_GeoNodesPrep.execute Scenes.leftover)))) /\
  NoDup (map name
           (objects (final (run GEO_OT_GeoNodesPrep.execute Scenes.leftover)))) /\
  exists created,
    objects (final (run GEO_OT_GeoNodesPrep.execute Scenes.leftover))
      = (objects Scenes.leftover ++ created)%list /\
    Forall (fun o => is_copy o = true /\ select o = false /\
                     modifiers o = [] /\ shape_keys (data o) = None) created.
Proof.
  apply (prep_copies_distinct Scenes.leftover Scenes.cube).
  - reflexivity.
  - left. reflexivity.
  - cbn. apply NoDup_cons; [intros [H|[]]; discriminate H|].
    apply NoDup_cons; [intros []|]. apply NoDup_nil.
  - cbn. apply NoDup_cons; [intros [H|[]]; discriminate H|].
    apply NoDup_cons; [intros []|]. apply NoDup_nil.
Defined.

(** ** Snapshots of equal index *)

(** X5. A merge invocation on a scene with two snapshots or more takes as
    its base, whichever way it ends, the first in scene order of the
    snapshots of lowest index: the snapshots before it in the scene have a
    greater index, those after it no smaller one, and it is the base that is
    left active and that carries the shape keys.  (All the names without an
    integer after "copy" share the index 0, so that "copy1.001" comes before
    "copy1".) *)
Theorem merge_base_first_of_lowest (s : Blend) :
  (2 <= List.length (filter is_copy (scene_objects s)))%nat ->
  exists before base after,
    filter is_copy (scene_objects s) = (before ++ base :: after)%list /\
    (forall o, In o before -> idx base < idx o) /\
    (forall o, In o after -> idx base <= idx o) /\
    active (final (run GEO_OT_MergeToShapeKeys.execute s)) = Some (ob_id base) /\
    exists k,
      GEO_OT_MergeToShapeKeys.shape_keys_of (ob_id base)
        (final (run GEO_OT_MergeToShapeKeys.execute s)) = Some k.
Proof.
  intros Hlen.
  destruct (two_copies_sorted s Hlen) as (copy1 & rest & Hsorted & Hrest).
  destruct (sort_by_head idx _ _ _ Hsorted) as (before & after & Hsplit & Hb & Ha).
  exists before, copy1, after.
  split; [exact Hsplit|]. split; [exact Hb|]. split; [exact Ha|].
  destruct (merge_run s copy1 rest (fun _ => True) Hsorted Hrest I)
    as (s5 & H5 & E).
  destruct H5 as (Hact & _ & _ & _ & _ & _ & k & Hk & _).
  rewrite E. unfold zoom. rewrite Hk.
  destruct (GEO_OT_MergeToShapeKeys.animate _ _ _ _ _ k []) as [st k' rs | st k' rs];
    cbn [outcome final];
    (split; [exact Hact | exists k'; apply (shape_keys_of_set _ k); exact Hk]).
Qed.

Lemma merge_base_first_of_lowest_witness :
  exists before base after,
    filter is_copy (scene_objects Scenes.ties) = (before ++ base :: after)%list /\
    (forall o, In o before -> idx base < idx o) /\
    (forall o, In o after -> idx base <= idx o) /\
    active (final (run GEO_OT_MergeToShapeKeys.execute Scenes.ties))
      = Some (ob_id base) /\
    exists k,
      GEO_OT_MergeToShapeKeys.shape_keys_of (ob_id base)
        (final (run GEO_OT_MergeToShapeKeys.execute Scenes.ties)) = Some k.
Proof.
  apply (merge_base_first_of_lowest Scenes.ties). cbn. lia.
Defined.

(** Next to "copy2", "copy1" and "copy1.001" the base is "copy1.002", the
    first in the scene of the two names of index 0. *)
Example merge_base_among_ties :
  active (final (run GEO_OT_MergeToShapeKeys.execute Scenes.ties)) = Some 3%nat.
Proof. reflexivity. Qed.

(** ** More on the cleanup operator *)

Lemma given_final_name_no_copy (used : list string) (o : Object) :
  is_copy (with_name (unique_name used "shapekey_object") o) = false.
Proof.
  unfold is_copy, PyStr.startswith. cbn [name with_name].
  destruct (unique_name_suffix used "shapekey_object") as (suffix & ->).
  reflexivity.
Qed.

Lemma cleanup_objects_no_copy (s : Blend) (copy1 : Object)
    (others : list Object) (n : string) :
  sorted_copies (objects s) = copy1 :: others ->
  (forall o, is_copy (with_name n o) = false) ->
  filter is_copy
    (filter linked
       (filter (fun o => negb (existsb (fun x => (ob_id o =? ob_id x)%nat) others))
               (update_object (ob_id copy1) (with_name n) (objects s)))) = [].
Proof.
  intros Hsorted Hn.
  apply filter_none. intros o' Ho'.
  apply filter_In in Ho'. destruct Ho' as (Ho' & Hl).
  apply filter_In in Ho'. destruct Ho' as (Ho' & Hp).
  unfold update_object in Ho'. apply in_map_iff in Ho'.
  destruct Ho' as (o & <- & Ho).
  destruct (Nat.eqb_spec (ob_id o) (ob_id copy1)) as [Eid | Nid]; [apply Hn|].
  destruct (is_copy o) eqn:Hc; [exfalso | reflexivity].
  assert (Hin : In o (copy1 :: others))
    by (rewrite <- Hsorted; apply sorted_copies_in; tauto).
  destruct Hin as [<- | Hin]; [congruence|].
  assert (Ex : existsb (fun x => (ob_id o =? ob_id x)%nat) others = true).
  { apply existsb_exists. exists o. split; [exact Hin | apply Nat.eqb_refl]. }
  rewrite Ex in Hp. discriminate Hp.
Qed.

Lemma keeps_cleanup_mode : keeps mode GEO_OT_RenameAndDelete.execute.
Proof.
  unfold GEO_OT_RenameAndDelete.execute. keeps_tac.
  - unfold set_name. apply keeps_modify. reflexivity.
  - unfold objects_remove. apply keeps_modify. reflexivity.
Qed.

(** X6. A cleanup invocation on a scene with at least one snapshot finishes
    and leaves no snapshot in the scene, whatever names are taken: no object
    of the scene has a name that starts with "copy" afterwards.  Hence a
    second cleanup run right after it is cancelled with its error report and
    changes nothing, and a merge run right after it is cancelled with its
    error report and changes nothing but the interaction mode, which the
    cleanup has left as it was and the merge sets to Object mode. *)
Theorem cleanup_leaves_no_snapshot (s : Blend) :
  filter is_copy (scene_objects s) <> [] ->
  status (run GEO_OT_RenameAndDelete.execute s) = FINISHED /\
  mode (final (run GEO_OT_RenameAndDelete.execute s)) = mode s /\
  filter is_copy (scene_objects (final (run GEO_OT_RenameAndDelete.execute s)))
    = [] /\
  run GEO_OT_RenameAndDelete.execute
      (final (run GEO_OT_RenameAndDelete.execute s))
  = mkOutcome CANCELLED
      [(ERROR, "No objects named 'copy1', 'copy2', etc. found.")]
      (final (run GEO_OT_RenameAndDelete.execute s)) /\
  run GEO_OT_MergeToShapeKeys.execute
      (final (run GEO_OT_RenameAndDelete.execute s))
  = mkOutcome CANCELLED
      [(ERROR, "Need at least copy1 and copy2 present.")]
      (set_mode OBJECT (final (run GEO_OT_RenameAndDelete.execute s))) /\
  (mode s = OBJECT ->
   final (run GEO_OT_MergeToShapeKeys.execute
            (final (run GEO_OT_RenameAndDelete.execute s)))
   = final (run GEO_OT_RenameAndDelete.execute s)).
Proof.
  intros Hne.
  assert (Hmode : mode (final (run GEO_OT_RenameAndDelete.execute s)) = mode s).
  { rewrite final_run. apply keeps_cleanup_mode. }
  destruct (sorted_copies (objects s)) as [|copy1 others] eqn:Hsorted.
  { exfalso. apply Hne.
    apply Permutation_nil. rewrite <- Hsorted. apply sorted_copies_perm. }
  destruct (cleanup_run s copy1 others Hsorted) as (s' & msg & Hrun & Hobjs).
  rewrite Hrun in *. cbn [status final] in *.
  assert (Hnone : filter is_copy (scene_objects s') = []).
  { unfold scene_objects. rewrite Hobjs.
    apply cleanup_objects_no_copy; [exact Hsorted|].
    apply given_final_name_no_copy. }
  assert (Hmerge : run GEO_OT_MergeToShapeKeys.execute s'
                   = mkOutcome CANCELLED [(ERROR, few_copies_message)]
                       (set_mode OBJECT s')).
  { apply merge_too_few. rewrite Hnone. cbn. lia. }
  split; [reflexivity|]. split; [exact Hmode|]. split; [exact Hnone|].
  split; [apply cleanup_without_copies; exact Hnone|].
  split; [exact Hmerge|].
  intros Hobj. rewrite Hmerge. cbn [final]. apply set_mode_same. congruence.
Qed.

Lemma cleanup_leaves_no_snapshot_witness :
  status (run GEO_OT_RenameAndDelete.execute Scenes.second_run) = FINISHED /\
  mode (final (run GEO_OT_RenameAndDelete.execute Scenes.second_run))
    = mode Scenes.second_run /\
  filter is_copy
    (scene_objects (final (run GEO_OT_RenameAndDelete.execute Scenes.second_run)))
    = [] /\
  run GEO_OT_RenameAndDelete.execute
      (final (run GEO_OT_RenameAndDelete.execute Scenes.second_run))
  = mkOutcome CANCELLED
      [(ERROR, "No objects named 'copy1', 'copy2', etc. found.")]
      (final (run GEO_OT_RenameAndDelete.execute Scenes.second_run)) /\
  run GEO_OT_MergeToShapeKeys.execute
      (final (run GEO_OT_RenameAndDelete.execute Scenes.second_run))
  = mkOutcome CANCELLED
      [(ERROR, "Need at least copy1 and copy2 present.")]
      (set_mode OBJECT (final (run GEO_OT_RenameAndDelete.execute Scenes.second_run))) /\
  (mode Scenes.second_run = OBJECT ->
   final (run GEO_OT_MergeToShapeKeys.execute
            (final (run GEO_OT_RenameAndDelete.execute Scenes.second_run)))
   = final (run GEO_OT_RenameAndDelete.execute Scenes.second_run)).
Proof.
  apply (cleanup_leaves_no_snapshot Scenes.second_run). cbn. discriminate.
Defined.

Lemma remove_loop_state (l : list Object) :
  forall (s : Blend) (rs : list Report),
    for_each l (fun obj => objects_remove (ob_id obj)) s rs
    = Next tt (fold_left (fun s' o => remove_object (ob_id o) s') l s) rs.
Proof.
  induction l as [|x l IH]; intros s rs; [reflexivity|].
  cbn [for_each fold_left]. unfold bind at 1.
  unfold objects_remove at 1, modify at 1. apply IH.
Qed.

Lemma clear_pointer_cleared (x : Object) (l : list Object) (p : option nat) :
  cleared l (clear_pointer (ob_id x) p) = cleared (x :: l) p.
Proof.
  destruct p as [a|]; [|reflexivity]. cbn [clear_pointer cleared existsb].
  destruct (a =? ob_id x)%nat; reflexivity.
Qed.

Lemma remove_all_state (l : list Object) :
  forall s,
    let s' := fold_left (fun s' o => remove_object (ob_id o) s') l s in
    active s' = cleared l (active s) /\
    GEO_Props.selected_object (props s')
      = cleared l (GEO_Props.selected_object (props s)) /\
    GEO_Props.total_frames (props s') = GEO_Props.total_frames (props s) /\
    GEO_Props.use_relative (props s') = GEO_Props.use_relative (props s) /\
    frame_current s' = frame_current s /\ mode s' = mode s.
Proof.
  induction l as [|x l IH]; intros s; cbn zeta.
  - cbn [fold_left cleared existsb].
    repeat split; destruct (active s), (GEO_Props.selected_object (props s));
      reflexivity.
  - cbn [fold_left].
    destruct (IH (remove_object (ob_id x) s)) as (Ha & Hs & Ht & Hu & Hf & Hm).
    cbn [remove_object active props frame_current mode
         GEO_Props.selected_object GEO_Props.total_frames
         GEO_Props.use_relative] in *.
    rewrite Ha, Hs, !clear_pointer_cleared. repeat split; assumption.
Qed.

(** X7. The cleanup operator leaves no reference to an object it removed:
    the active object and the object selected in the settings are cleared
    when they pointed at a removed snapshot and are kept otherwise (also
    when they point at the snapshot that is renamed); the sample count, the
    relative toggle, the current frame and the mode are left as they
    were. *)
Theorem cleanup_clears_references (s : Blend) (copy1 : Object)
    (others : list Object) :
  sorted_copies (objects s) = copy1 :: others ->
  active (final (run GEO_OT_RenameAndDelete.execute s))
    = cleared others (active s) /\
  GEO_Props.selected_object (props (final (run GEO_OT_RenameAndDelete.execute s)))
    = cleared others (GEO_Props.selected_object (props s)) /\
  GEO_Props.total_frames (props (final (run GEO_OT_RenameAndDelete.execute s)))
    = GEO_Props.total_frames (props s) /\
  GEO_Props.use_relative (props (final (run GEO_OT_RenameAndDelete.execute s)))
    = GEO_Props.use_relative (props s) /\
  frame_current (final (run GEO_OT_RenameAndDelete.execute s)) = frame_current s /\
  mode (final (run GEO_OT_RenameAndDelete.execute s)) = mode s.
Proof.
  intros Hsorted.
  assert (E : final (run GEO_OT_RenameAndDelete.execute s)
              = fold_left (fun s' o => remove_object (ob_id o) s') others
                  (state_of (set_name (ob_id copy1) "shapekey_object" s []))).
  { unfold run, GEO_OT_RenameAndDelete.execute, bind, gets.
    destruct (filter is_copy (scene_objects s)) as [|c0 cs] eqn:Hfilter.
    { unfold sorted_copies in Hsorted. fold (scene_objects s) in Hsorted.
      rewrite Hfilter in Hsorted. discriminate Hsorted. }
    rewrite <- Hfilter.
    change (sort_by idx (filter is_copy (scene_objects s)))
      with (sorted_copies (objects s)).
    rewrite Hsorted.
    unfold set_name, modify. rewrite remove_loop_state. reflexivity. }
  rewrite E.
  apply (remove_all_state others
           (state_of (set_name (ob_id copy1) "shapekey_object" s []))).
Qed.

Lemma cleanup_clears_references_witness :
  active (final (run GEO_OT_RenameAndDelete.execute
                   (set_active (Some 3%nat) (Scenes.three_copies true))))
    = cleared [Scenes.snapshot 3 "copy2" 10; Scenes.snapshot 4 "copy3" 20]
              (Some 3%nat) /\
  GEO_Props.selected_object
    (props (final (run GEO_OT_RenameAndDelete.execute
                     (set_active (Some 3%nat) (Scenes.three_copies true)))))
    = cleared [Scenes.snapshot 3 "copy2" 10; Scenes.snapshot 4 "copy3" 20]
              (Some 1%nat) /\
  GEO_Props.total_frames
    (props (final (run GEO_OT_RenameAndDelete.execute
                     (set_active (Some 3%nat) (Scenes.three_copies true))))) = 3 /\
  GEO_Props.use_relative
    (props (final (run GEO_OT_RenameAndDelete.execute
                     (set_active (Some 3%nat) (Scenes.three_copies true))))) = true /\
  frame_current (final (run GEO_OT_RenameAndDelete.execute
                          (set_active (Some 3%nat) (Scenes.three_copies true)))) = 7 /\
  mode (final (run GEO_OT_RenameAndDelete.execute
                 (set_active (Some 3%nat) (Scenes.three_copies true)))) = OBJECT.
Proof.
  apply (cleanup_clears_references
           (set_active (Some 3%nat) (Scenes.three_copies true))
           (Scenes.snapshot 2 "copy1" 0)
           [Scenes.snapshot 3 "copy2" 10; Scenes.snapshot 4 "copy3" 20]).
  reflexivity.
Defined.

(** The active "copy2" is removed and the reference to it cleared; the
    selected cube stays selected. *)
Example cleanup_clears_active :
  active (final (run GEO_OT_RenameAndDelete.execute
                   (set_active (Some 3%nat) (Scenes.three_copies true)))) = None /\
  GEO_Props.selected_object
    (props (final (run GEO_OT_RenameAndDelete.execute
                     (set_active (Some 3%nat) (Scenes.three_copies true)))))
    = Some 1%nat.
Proof. split; reflexivity. Qed.

(** ** The joining loop in closed form *)

Lemma get_object_NoDup (c : Object) (l : list Object) :
  NoDup (map ob_id l) -> In c l -> get_object (ob_id c) l = Some c.
Proof.
  intros Hnd Hin. destruct (get_object_in c l Hin) as (o & Ho).
  rewrite Ho. f_equal.
  apply (NoDup_map_eq ob_id l); try assumption.
  - unfold get_object in Ho. apply find_some in Ho. tauto.
  - apply (get_object_id _ _ _ Ho).
Qed.

Lemma get_object_map (id : nat) (h : Object -> Object) (l : list Object) :
  (forall o, ob_id (h o) = ob_id o) ->
  get_object id (map h l) = option_map h (get_object id l).
Proof.
  intros Hh. unfold get_object. induction l as [|o l IH]; [reflexivity|].
  cbn [map find]. rewrite Hh.
  destruct (ob_id o =? id)%nat; [reflexivity | exact IH].
Qed.

Lemma filter_by_id (o : Object) (l : list Object) :
  NoDup (map ob_id l) -> In o l ->
  filter (fun x => (ob_id x =? ob_id o)%nat) l = [o].
Proof.
  induction l as [|x l IH]; intros Hnd Hin; [destruct Hin|].
  cbn [map] in Hnd. apply NoDup_cons_iff in Hnd. destruct Hnd as (Hnot & Hnd).
  cbn [filter]. destruct Hin as [-> | Hin].
  - rewrite Nat.eqb_refl. f_equal.
    clear IH Hnd. induction l as [|y l IHl]; [reflexivity|].
    cbn [filter]. destruct (Nat.eqb_spec (ob_id y) (ob_id o)) as [E | _].
    + exfalso. apply Hnot. left. exact E.
    + apply IHl. intros H. apply Hnot. right. exact H.
  - destruct (Nat.eqb_spec (ob_id x) (ob_id o)) as [E | _].
    + exfalso. apply Hnot. rewrite E. apply in_map. exact Hin.
    + apply IH; assumption.
Qed.

Lemma filter_both {A} (keep also : A -> bool) (xs : list A) :
  filter also (filter keep xs) = filter (fun x => keep x && also x) xs.
Proof.
  induction xs as [|x xs IH]; [reflexivity|]. cbn [filter].
  destruct (keep x); cbn [filter andb]; [destruct (also x)|]; rewrite IH;
    reflexivity.
Qed.

Lemma mesh_shape_key_add_vertices (m : Mesh) :
  vertices (mesh_shape_key_add m) = vertices m.
Proof. unfold mesh_shape_key_add. destruct (shape_keys m); reflexivity. Qed.

Lemma mesh_join_shape_vertices (m : Mesh) (src : Object) :
  vertices (mesh_join_shape m src) = vertices m.
Proof.
  unfold mesh_join_shape.
  destruct (shape_keys m) eqn:E; cbn [shape_keys].
  - rewrite E. reflexivity.
  - unfold mesh_shape_key_add. rewrite E. reflexivity.
Qed.

Lemma joined_mesh_vertices (copy1 : Object) (done : list Object) :
  vertices (joined_mesh copy1 done) = vertices (data copy1).
Proof.
  unfold joined_mesh.
  generalize (filter (count_fits copy1) done) as l.
  assert (H : forall l m, vertices (fold_left mesh_join_shape l m) = vertices m).
  { induction l as [|x l IH]; intros m; [reflexivity|].
    cbn [fold_left]. rewrite IH. apply mesh_join_shape_vertices. }
  intros l. rewrite H. apply mesh_shape_key_add_vertices.
Qed.

Lemma joined_mesh_snoc (copy1 : Object) (done : list Object) (o : Object) :
  joined_mesh copy1 (done ++ [o])
  = if count_fits copy1 o
    then mesh_join_shape (joined_mesh copy1 done) o
    else joined_mesh copy1 done.
Proof.
  unfold joined_mesh. rewrite filter_app. cbn [filter].
  destruct (count_fits copy1 o).
  - rewrite fold_left_app. reflexivity.
  - rewrite app_nil_r. reflexivity.
Qed.

(** One pass of the joining loop. *)
Lemma join_one (copy1 o : Object) (done : list Object) (objs0 : list Object)
    (s : Blend) (rs : list Report) :
  NoDup (map ob_id objs0) -> In copy1 objs0 -> In o objs0 ->
  ob_id o <> ob_id copy1 ->
  objects s = joined_objects copy1 done objs0 ->
  active s = Some (ob_id copy1) ->
  (select_set (ob_id o) true ;; join_shapes ;; select_set (ob_id o) false)%op s rs
  = Next tt (set_objects (joined_objects copy1 (done ++ [o]) objs0) s) rs.
Proof.
  intros Hnd Hin1 Hino Hne Hobjs Hact.
  set (M := joined_mesh copy1 done).
  assert (HM : vertices M = vertices (data copy1))
    by apply joined_mesh_vertices.
  set (h := fun x : Object =>
              if (ob_id x =? ob_id copy1)%nat
              then with_select true (with_data M x)
              else if (ob_id x =? ob_id o)%nat then with_select true x
                   else with_select false x).
  assert (Hh : forall x, ob_id (h x) = ob_id x).
  { intros x. unfold h.
    destruct (ob_id x =? ob_id copy1)%nat; [reflexivity|].
    destruct (ob_id x =? ob_id o)%nat; reflexivity. }
  (* the copy is selected *)
  unfold bind at 1. unfold select_set at 1, modify at 1.
  assert (E1 : update_object (ob_id o) (with_select true) (objects s)
               = map h objs0).
  { rewrite Hobjs. unfold joined_objects, update_object. rewrite map_map.
    apply map_ext. intros x. unfold h. fold M.
    destruct (Nat.eqb_spec (ob_id x) (ob_id copy1)) as [E | N];
      cbn [ob_id with_select with_data].
    - destruct (Nat.eqb_spec (ob_id x) (ob_id o)); [congruence | reflexivity].
    - destruct (ob_id x =? ob_id o)%nat; reflexivity. }
  rewrite E1.
  (* the shapes are joined *)
  unfold bind at 1. unfold join_shapes, bind, gets.
  cbn [active set_objects]. rewrite Hact. unfold modify at 1.
  cbn [objects set_objects].
  rewrite (get_object_map _ h objs0 Hh), (get_object_NoDup copy1 objs0 Hnd Hin1).
  cbn [option_map].
  assert (Hh1 : h copy1 = with_select true (with_data M copy1))
    by (unfold h; rewrite Nat.eqb_refl; reflexivity).
  rewrite Hh1. cbn [data with_select with_data].
  assert (Hfilter :
    filter (fun x => select x && negb (ob_id x =? ob_id copy1)%nat
                     && (List.length (vertices (data x))
                         =? List.length (vertices M))%nat) (map h objs0)
    = map h (filter (count_fits copy1) [o])).
  { rewrite filter_map_swap.
    rewrite <- (filter_by_id o objs0 Hnd Hino), filter_both.
    f_equal. apply filter_ext. intros x. unfold h.
    rewrite HM. unfold count_fits.
    destruct (Nat.eqb_spec (ob_id x) (ob_id copy1)) as [E | N];
      cbn [select with_select with_data data ob_id negb andb].
    - rewrite E, Nat.eqb_refl. cbn [negb andb].
      destruct (Nat.eqb_spec (ob_id copy1) (ob_id o)); [congruence|].
      reflexivity.
    - apply Nat.eqb_neq in N.
      destruct (ob_id x =? ob_id o)%nat;
        cbn [select with_select data ob_id andb negb];
        rewrite ?N; reflexivity. }
  rewrite Hfilter. cbn [filter].
  assert (Hho : h o = with_select true o).
  { unfold h. apply Nat.eqb_neq in Hne. rewrite Hne, Nat.eqb_refl. reflexivity. }
  (* the copy is deselected *)
  unfold select_set, modify.
  unfold joined_objects. rewrite joined_mesh_snoc. fold M.
  assert (Hjoin : mesh_join_shape M (h o) = mesh_join_shape M o)
    by (rewrite Hho; reflexivity).
  destruct (count_fits copy1 o); cbn [map fold_left objects set_objects];
    rewrite ?Hjoin; unfold set_objects;
    cbn [objects frame_current active mode props ipo_new];
    f_equal; f_equal; unfold update_object; rewrite ?map_map;
    apply map_ext; intros x; unfold h.
  - destruct (Nat.eqb_spec (ob_id x) (ob_id copy1)) as [E | N];
      cbn [ob_id with_select with_data].
    + rewrite E, Nat.eqb_refl. cbn [ob_id with_select with_data].
      rewrite ?E.
      destruct (Nat.eqb_spec (ob_id copy1) (ob_id o)); [congruence|].
      reflexivity.
    + destruct (Nat.eqb_spec (ob_id x) (ob_id o)) as [Eo | No];
        cbn [ob_id with_select with_data];
        apply Nat.eqb_neq in N; rewrite N;
        cbn [ob_id with_select with_data].
      * rewrite ?Eo, ?Nat.eqb_refl. reflexivity.
      * apply Nat.eqb_neq in No. rewrite ?No. reflexivity.
  - destruct (Nat.eqb_spec (ob_id x) (ob_id copy1)) as [E | N];
      cbn [ob_id with_select with_data].
    + rewrite E. destruct (Nat.eqb_spec (ob_id copy1) (ob_id o)); [congruence|].
      reflexivity.
    + destruct (Nat.eqb_spec (ob_id x) (ob_id o)) as [Eo | No];
        cbn [ob_id with_select with_data].
      * rewrite Eo, Nat.eqb_refl. reflexivity.
      * apply Nat.eqb_neq in No. rewrite No. reflexivity.
Qed.

Lemma set_objects_same (s : Blend) : set_objects (objects s) s = s.
Proof. destruct s; reflexivity. Qed.

Lemma join_loop (copy1 : Object) (objs0 : list Object) (rest : list Object) :
  NoDup (map ob_id objs0) -> In copy1 objs0 ->
  forall (done : list Object) (s : Blend) (rs : list Report),
    (forall o, In o rest -> In o objs0 /\ ob_id o <> ob_id copy1) ->
    objects s = joined_objects copy1 done objs0 ->
    active s = Some (ob_id copy1) ->
    for_each rest
      (fun o => select_set (ob_id o) true ;; join_shapes ;;
                select_set (ob_id o) false)%op s rs
    = Next tt (set_objects (joined_objects copy1 (done ++ rest) objs0) s) rs.
Proof.
  intros Hnd Hin1. induction rest as [|o rest IH]; intros done s rs Hrest Hobjs Hact.
  - cbn [for_each]. unfold ret. rewrite app_nil_r, <- Hobjs, set_objects_same.
    reflexivity.
  - cbn [for_each]. unfold bind at 1.
    destruct (Hrest o (or_introl eq_refl)) as (Hino & Hne).
    rewrite (join_one copy1 o done objs0 s rs Hnd Hin1 Hino Hne Hobjs Hact).
    rewrite (IH (done ++ [o])%list); try reflexivity.
    + rewrite <- app_assoc. reflexivity.
    + intros x Hx. apply Hrest. right. exact Hx.
    + exact Hact.
Qed.

(** The joining of the copies, in closed form: the base is the active
    object, selected, with the joined mesh; every other object is
    deselected and otherwise as it was. *)
Lemma join_copies_closed (copy1 : Object) (rest : list Object) (s : Blend)
    (rs : list Report) :
  NoDup (map ob_id (objects s)) -> In copy1 (objects s) ->
  (forall o, In o rest -> In o (objects s) /\ ob_id o <> ob_id copy1) ->
  GEO_OT_MergeToShapeKeys.join_copies copy1 rest s rs
  = Next tt
      (set_objects (joined_objects copy1 rest (objects s))
                   (set_active (Some (ob_id copy1)) s)) rs.
Proof.
  intros Hnd Hin1 Hrest.
  unfold GEO_OT_MergeToShapeKeys.join_copies.
  unfold bind at 1. unfold select_all_deselect at 1, modify at 1.
  unfold bind at 1. unfold select_set at 1, modify at 1.
  unfold bind at 1. unfold modify at 1.
  unfold bind at 1. unfold shape_key_add, bind, gets.
  cbn [active set_active set_objects objects frame_current mode props ipo_new].
  unfold modify at 1.
  cbn [active set_active set_objects objects frame_current mode props ipo_new].
  match goal with
  | |- for_each rest _ ?s4 rs = _ =>
      pose proof (join_loop copy1 (objects s) rest Hnd Hin1 [] s4 rs Hrest) as HL
  end.
  etransitivity; [apply HL|].
  - cbn [objects set_objects]. unfold joined_objects, update_object.
    rewrite !map_map. apply map_ext_in. intros x Hx.
    cbn [ob_id with_select with_data].
    destruct (Nat.eqb_spec (ob_id x) (ob_id copy1)) as [E | N];
      cbn [ob_id with_select with_data].
    + rewrite E, Nat.eqb_refl.
      assert (x = copy1) by (apply (NoDup_map_eq ob_id (objects s)); assumption).
      subst x. reflexivity.
    + apply Nat.eqb_neq in N. rewrite N. reflexivity.
  - reflexivity.
  - reflexivity.
Qed.

(** Past its validation the merge operator ends as the animation of the key
    ends, from the state the joining leaves. *)
Lemma merge_unfold (s : Blend) (copy1 : Object) (rest : list Object)
    (s5 : Blend) :
  sorted_copies (objects s) = copy1 :: rest -> rest <> [] ->
  GEO_OT_MergeToShapeKeys.join_copies copy1 rest (set_mode OBJECT s) []
    = Next tt s5 [] ->
  run GEO_OT_MergeToShapeKeys.execute s
  = outcome
      (zoom (GEO_OT_MergeToShapeKeys.shape_keys_of (ob_id copy1))
            (GEO_OT_MergeToShapeKeys.set_shape_keys (ob_id copy1))
            AttributeError
            (GEO_OT_MergeToShapeKeys.animate (ipo_new s5)
               (GEO_Props.use_relative (props s))
               (List.length (copy1 :: rest)) (List.length rest) (name copy1))
            s5 []).
Proof.
  intros Hsorted Hrest E5.
  unfold run, GEO_OT_MergeToShapeKeys.execute.
  unfold bind at 1. unfold gets at 1.
  unfold bind at 1. rewrite merge_enter.
  unfold bind at 1. unfold gets at 1.
  unfold bind at 1. unfold gets at 1.
  cbn [props set_mode].
  change (scene_objects (set_mode OBJECT s)) with (scene_objects s).
  assert (Hlen : (List.length (filter is_copy (scene_objects s)) <? 2)%nat = false).
  { apply Nat.ltb_ge. unfold scene_objects.
    rewrite <- (Permutation_length (sorted_copies_perm (objects s))), Hsorted.
    destruct rest; [congruence | cbn [List.length]; lia]. }
  rewrite Hlen.
  change (sort_by idx (filter is_copy (scene_objects s)))
    with (sorted_copies (objects s)).
  rewrite Hsorted.
  unfold bind at 1. rewrite E5.
  unfold bind at 1. unfold gets at 1. reflexivity.
Qed.

Lemma zoom_final {Sub} (get : Blend -> option Sub) (set : Sub -> Blend -> Blend)
    (e : Exception) (m : Op Sub Status) (s : Blend) (sub : Sub) :
  get s = Some sub ->
  final (outcome (zoom get set e m s [])) = set (state_of (m sub [])) s.
Proof.
  intros H. unfold zoom. rewrite H. destruct (m sub []); reflexivity.
Qed.

(** The copies that follow the base are objects of the scene with
    references other than the base's. *)
Lemma rest_of_copies (objs : list Object) (copy1 : Object) (rest : list Object) :
  NoDup (map ob_id objs) -> sorted_copies objs = copy1 :: rest ->
  In copy1 objs /\
  forall o, In o rest -> In o objs /\ ob_id o <> ob_id copy1.
Proof.
  intros Hnd Hsorted.
  assert (Hin : forall o, In o (copy1 :: rest) -> In o objs /\ is_copy o = true).
  { intros o Ho. rewrite <- Hsorted in Ho. apply sorted_copies_in in Ho. tauto. }
  assert (Hndc : NoDup (map ob_id (copy1 :: rest))).
  { apply (Permutation_NoDup
             (l := map ob_id (filter is_copy (filter linked objs)))).
    - rewrite <- Hsorted.
      apply Permutation_map, Permutation_sym, sorted_copies_perm.
    - apply NoDup_map_filter, NoDup_map_filter. exact Hnd. }
  cbn [map] in Hndc. apply NoDup_cons_iff in Hndc. destruct Hndc as (Hnot & _).
  split; [apply Hin; left; reflexivity|].
  intros o Ho. split; [apply Hin; right; exact Ho|].
  intros E. apply Hnot. rewrite <- E. apply in_map. exact Ho.
Qed.

Lemma joined_mesh_has_key (copy1 : Object) (done : list Object) :
  exists k, shape_keys (joined_mesh copy1 done) = Some k.
Proof.
  unfold joined_mesh.
  destruct (mesh_shape_key_add_key (data copy1)) as (k0 & Hk0 & _).
  destruct (fold_join_shape_key (filter (count_fits copy1) done) _ k0 Hk0)
    as (k & Hk & _).
  exists k. exact Hk.
Qed.

Lemma shape_keys_of_joined (copy1 : Object) (done : list Object) (s s' : Blend) :
  NoDup (map ob_id (objects s)) -> In copy1 (objects s) ->
  GEO_OT_MergeToShapeKeys.shape_keys_of (ob_id copy1)
    (set_objects (joined_objects copy1 done (objects s)) s')
  = shape_keys (joined_mesh copy1 done).
Proof.
  intros Hnd Hin. unfold GEO_OT_MergeToShapeKeys.shape_keys_of.
  cbn [objects set_objects]. unfold joined_objects.
  rewrite get_object_map, (get_object_NoDup copy1 _ Hnd Hin).
  - cbn [option_map]. rewrite Nat.eqb_refl. reflexivity.
  - intros o. destruct (ob_id o =? ob_id copy1)%nat; reflexivity.
Qed.

(** X8. A merge invocation that passes its validation, on a scene with
    distinct object references, leaves the base copy as the active object
    and as the only selected object, whichever way it ends: every other
    object of the scene is deselected. *)
Theorem merge_selects_base_only (s : Blend) (copy1 : Object)
    (rest : list Object) :
  NoDup (map ob_id (objects s)) ->
  sorted_copies (objects s) = copy1 :: rest -> rest <> [] ->
  active (final (run GEO_OT_MergeToShapeKeys.execute s)) = Some (ob_id copy1) /\
  forall o, In o (objects (final (run GEO_OT_MergeToShapeKeys.execute s))) ->
            select o = (ob_id o =? ob_id copy1)%nat.
Proof.
  intros Hnd Hsorted Hrest.
  destruct (rest_of_copies _ _ _ Hnd Hsorted) as (Hin1 & Hothers).
  pose proof (join_copies_closed copy1 rest (set_mode OBJECT s) [] Hnd Hin1 Hothers)
    as E5.
  rewrite (merge_unfold s copy1 rest _ Hsorted Hrest E5).
  destruct (joined_mesh_has_key copy1 rest) as (k & Hk).
  erewrite zoom_final
    by (rewrite (shape_keys_of_joined copy1 rest (set_mode OBJECT s) _ Hnd Hin1);
        exact Hk).
  unfold GEO_OT_MergeToShapeKeys.set_shape_keys.
  cbn [active objects set_objects set_active set_mode].
  split; [reflexivity|].
  intros o Ho. unfold update_object, joined_objects in Ho.
  rewrite map_map in Ho. apply in_map_iff in Ho. destruct Ho as (x & <- & _).
  destruct (Nat.eqb_spec (ob_id x) (ob_id copy1)) as [E | N];
    cbn [ob_id with_select with_data].
  - rewrite E, Nat.eqb_refl. cbn [select ob_id with_data with_select].
    rewrite E, Nat.eqb_refl. reflexivity.
  - apply Nat.eqb_neq in N. rewrite N. cbn [select ob_id with_select].
    rewrite N. reflexivity.
Qed.

Lemma merge_selects_base_only_witness :
  active (final (run GEO_OT_MergeToShapeKeys.execute (Scenes.three_copies false)))
    = Some 2%nat /\
  forall o, In o (objects (final (run GEO_OT_MergeToShapeKeys.execute
                                    (Scenes.three_copies false)))) ->
            select o = (ob_id o =? 2)%nat.
Proof.
  apply (merge_selects_base_only (Scenes.three_copies false)
           (Scenes.snapshot 2 "copy1" 0)
           [Scenes.snapshot 3 "copy2" 10; Scenes.snapshot 4 "copy3" 20]).
  - cbn. repeat (apply NoDup_cons; [cbn; intuition discriminate|]).
    apply NoDup_nil.
  - reflexivity.
  - discriminate.
Defined.

(** ** The shape keys the merge makes *)

Lemma set_block_value_blocks (b : nat) (v : Z) (bs : list ShapeKey) :
  map name_and_data
    (map (fun '(i, sk) =>
            if (i =? b)%nat then mkShapeKey (sk_name sk) v (sk_data sk) else sk)
         (enumerate bs))
  = map name_and_data bs.
Proof.
  rewrite map_map. unfold enumerate.
  rewrite <- (map_snd_combine_seq name_and_data bs 0).
  apply map_ext. intros (i, sk). cbn [snd].
  destruct (i =? b)%nat; reflexivity.
Qed.

Lemma keeps_blocks_set_value (b : nat) (v : Z) :
  keeps (fun k => map name_and_data (key_blocks k)) (set_block_value b v).
Proof.
  apply keeps_modify. intros k. cbn [key_blocks set_key_blocks].
  apply set_block_value_blocks.
Qed.

Lemma keeps_blocks_keyframe_insert (ipo : Interpolation) (p : DataPath)
    (frame : Z) :
  keeps (fun k => map name_and_data (key_blocks k)) (keyframe_insert ipo p frame).
Proof.
  apply keeps_modify. intros k. destruct (path_value p k); reflexivity.
Qed.

Lemma keeps_blocks_force_linear (sel : DataPath -> bool) :
  keeps (fun k => map name_and_data (key_blocks k)) (force_linear sel).
Proof.
  unfold force_linear, action_fcurves. keeps_tac.
  apply keeps_modify. reflexivity.
Qed.

Lemma keeps_blocks_create :
  keeps (fun k => map name_and_data (key_blocks k)) animation_data_create.
Proof.
  apply keeps_modify. intros k. destruct (animation_data k); reflexivity.
Qed.

(** The animation changes neither the names nor the geometry of the shape
    keys, in either mode and however it ends. *)
Lemma keeps_blocks_animate (ipo : Interpolation) (ur : bool) (n m : nat)
    (nm : string) :
  keeps (fun k => map name_and_data (key_blocks k))
        (GEO_OT_MergeToShapeKeys.animate ipo ur n m nm).
Proof.
  unfold GEO_OT_MergeToShapeKeys.animate.
  apply keeps_bind.
  - destruct ur; cbn [negb].
    + apply keeps_bind; [apply keeps_gets | intros ad].
      apply keeps_bind;
        [destruct ad; [apply keeps_ret | apply keeps_blocks_create] | intros _].
      keeps_tac.
    + apply keeps_bind; [apply keeps_modify; reflexivity | intros _].
      apply keeps_bind; [apply keeps_gets | intros ad].
      apply keeps_bind;
        [destruct ad; [apply keeps_ret | apply keeps_blocks_create] | intros _].
      apply keeps_bind; [apply keeps_modify; reflexivity | intros _].
      apply keeps_bind; [apply keeps_blocks_keyframe_insert | intros _].
      apply keeps_bind; [apply keeps_modify; reflexivity | intros _].
      apply keeps_bind; [apply keeps_blocks_keyframe_insert | intros _].
      apply keeps_bind; [apply keeps_blocks_force_linear | intros _].
      keeps_tac.
  - intros shape_keys. cbv zeta.
    apply keeps_bind; [destruct shape_keys; [apply keeps_ret | apply keeps_raise]
                      | intros l].
    apply keeps_bind; [|intros _; apply keeps_return].
    apply keeps_for_each. intros (i, sk).
    unfold GEO_OT_MergeToShapeKeys.keyframe_values.
    apply keeps_bind; [apply keeps_blocks_set_value | intros _].
    apply keeps_bind; [apply keeps_blocks_keyframe_insert | intros _].
    apply keeps_bind; [apply keeps_blocks_set_value | intros _].
    apply keeps_bind; [apply keeps_blocks_keyframe_insert | intros _].
    apply keeps_bind.
    { apply keeps_if; [|apply keeps_ret].
      apply keeps_bind; [apply keeps_blocks_set_value | intros _].
      apply keeps_blocks_keyframe_insert. }
    intros _.
    apply keeps_bind; [apply keeps_blocks_force_linear | intros _].
    apply keeps_report.
Qed.

Lemma fold_join_shape_blocks (srcs : list Object) :
  forall (m : Mesh) (k : Key),
    shape_keys m = Some k ->
    NoDup (map sk_name (key_blocks k) ++ map name srcs) ->
    exists k',
      shape_keys (fold_left mesh_join_shape srcs m) = Some k' /\
      map name_and_data (key_blocks k')
      = (map name_and_data (key_blocks k)
         ++ map (fun o => (name o, vertices (data o))) srcs)%list.
Proof.
  induction srcs as [|src srcs IH]; intros m k Hk Hnd.
  - exists k. split; [exact Hk|]. cbn [map]. rewrite app_nil_r. reflexivity.
  - cbn [fold_left].
    assert (Hfree : ~ In (name src) (map sk_name (key_blocks k))).
    { intros Hin. cbn [map] in Hnd. apply NoDup_remove_2 in Hnd.
      apply Hnd. apply in_or_app. left. exact Hin. }
    assert (Hm : shape_keys (mesh_join_shape m src)
                 = Some (add_block (mkShapeKey (name src) 0 (vertices (data src))) k)).
    { unfold mesh_join_shape. rewrite Hk. cbn [shape_keys]. rewrite Hk.
      rewrite (unique_name_free _ _ Hfree). reflexivity. }
    destruct (IH _ _ Hm) as (k' & Hk' & Hblocks).
    + cbn [add_block key_blocks]. rewrite map_app. cbn [map sk_name].
      rewrite <- app_assoc. exact Hnd.
    + exists k'. split; [exact Hk'|]. rewrite Hblocks.
      cbn [add_block key_blocks]. rewrite map_app, <- app_assoc. reflexivity.
Qed.

(** The shape keys a merge leaves on a base that had none: "Basis", then a
    key for each other copy that fits, in the order the copies are taken. *)
Lemma merge_blocks_joined (s : Blend) (copy1 : Object)
    (rest : list Object) :
  NoDup (map ob_id (objects s)) -> NoDup (map name (objects s)) ->
  sorted_copies (objects s) = copy1 :: rest -> rest <> [] ->
  shape_keys (data copy1) = None ->
  exists k,
    GEO_OT_MergeToShapeKeys.shape_keys_of (ob_id copy1)
      (final (run GEO_OT_MergeToShapeKeys.execute s)) = Some k /\
    map name_and_data (key_blocks k)
    = ("Basis", vertices (data copy1))
      :: map (fun o => (name o, vertices (data o)))
             (filter (fun o => (List.length (vertices (data o))
                                =? List.length (vertices (data copy1)))%nat)
                     rest).
Proof.
  intros Hnd Hnames Hsorted Hrest Hnone.
  destruct (rest_of_copies _ _ _ Hnd Hsorted) as (Hin1 & Hothers).
  pose proof (join_copies_closed copy1 rest (set_mode OBJECT s) [] Hnd Hin1 Hothers)
    as E5.
  rewrite (merge_unfold s copy1 rest _ Hsorted Hrest E5).
  (* the key the joining leaves *)
  assert (Hk0 : exists k0,
    shape_keys (joined_mesh copy1 rest) = Some k0 /\
    map name_and_data (key_blocks k0)
    = ("Basis", vertices (data copy1))
      :: map (fun o => (name o, vertices (data o)))
             (filter (count_fits copy1) rest)).
  { unfold joined_mesh.
    assert (Hadd : shape_keys (mesh_shape_key_add (data copy1))
                   = Some (mkKey true 0
                             [mkShapeKey "Basis" 0 (vertices (data copy1))] None))
      by (unfold mesh_shape_key_add; rewrite Hnone; reflexivity).
    destruct (fold_join_shape_blocks (filter (count_fits copy1) rest) _ _ Hadd)
      as (k0 & Hk0 & Hblocks).
    - cbn [key_blocks map sk_name app]. constructor.
      + intros Hin. apply in_map_iff in Hin. destruct Hin as (o & E & Ho).
        apply filter_In in Ho. destruct Ho as (Ho & _).
        assert (Hc : is_copy o = true).
        { apply (sorted_copies_in (objects s)). rewrite Hsorted.
          right. exact Ho. }
        unfold is_copy, PyStr.startswith in Hc. rewrite E in Hc.
        discriminate Hc.
      + apply NoDup_map_filter.
        assert (Hall : NoDup (map name (copy1 :: rest))).
        { apply (Permutation_NoDup
                   (l := map name (filter is_copy (filter linked (objects s))))).
          - rewrite <- Hsorted.
            apply Permutation_map, Permutation_sym, sorted_copies_perm.
          - apply NoDup_map_filter, NoDup_map_filter. exact Hnames. }
        cbn [map] in Hall. apply NoDup_cons_iff in Hall. tauto.
    - exists k0. split; [exact Hk0 | exact Hblocks]. }
  destruct Hk0 as (k0 & Hk0 & Hblocks).
  assert (Hget : GEO_OT_MergeToShapeKeys.shape_keys_of (ob_id copy1)
                   (set_objects (joined_objects copy1 rest (objects (set_mode OBJECT s)))
                      (set_active (Some (ob_id copy1)) (set_mode OBJECT s)))
                 = Some k0).
  { rewrite (shape_keys_of_joined copy1 rest (set_mode OBJECT s) _ Hnd Hin1).
    exact Hk0. }
  rewrite (zoom_final _ _ _ _ _ k0 Hget).
  eexists. split; [apply (shape_keys_of_set _ k0); exact Hget|].
  rewrite (keeps_blocks_animate _ _ _ _ _ k0 []). exact Hblocks.
Qed.


(** X9. On a scene with distinct object references and names, when the
    base copy has no shape key yet, a merge invocation that passes its
    validation leaves the base, in either mode, with the shape keys "Basis"
    (the geometry of the base) followed by one key for each other copy that
    has the vertex count of the base, in ascending index order, named after
    the copy and holding its geometry; a copy with another vertex count is
    passed over without an error. *)
Theorem merge_shape_keys_in_order (s : Blend) (copy1 : Object)
    (rest : list Object) :
  NoDup (map ob_id (objects s)) -> NoDup (map name (objects s)) ->
  sorted_copies (objects s) = copy1 :: rest -> rest <> [] ->
  shape_keys (data copy1) = None ->
  exists k,
    GEO_OT_MergeToShapeKeys.shape_keys_of (ob_id copy1)
      (final (run GEO_OT_MergeToShapeKeys.execute s)) = Some k /\
    map name_and_data (key_blocks k)
    = ("Basis", vertices (data copy1))
      :: map (fun o => (name o, vertices (data o)))
             (filter (fun o => (List.length (vertices (data o))
                                =? List.length (vertices (data copy1)))%nat)
                     rest).
Proof. exact (merge_blocks_joined s copy1 rest). Qed.

Lemma merge_shape_keys_in_order_witness :
  exists k,
    GEO_OT_MergeToShapeKeys.shape_keys_of 2
      (final (run GEO_OT_MergeToShapeKeys.execute (Scenes.three_copies true)))
      = Some k /\
    map name_and_data (key_blocks k)
    = ("Basis", vertices (data (Scenes.snapshot 2 "copy1" 0)))
      :: map (fun o => (name o, vertices (data o)))
             (filter (fun o => (List.length (vertices (data o))
                                =? List.length
                                     (vertices (data (Scenes.snapshot 2 "copy1" 0))))%nat)
                     [Scenes.snapshot 3 "copy2" 10; Scenes.snapshot 4 "copy3" 20]).
Proof.
  apply (merge_shape_keys_in_order (Scenes.three_copies true)
           (Scenes.snapshot 2 "copy1" 0)
           [Scenes.snapshot 3 "copy2" 10; Scenes.snapshot 4 "copy3" 20]).
  - cbn. repeat (apply NoDup_cons; [cbn; intuition discriminate|]).
    apply NoDup_nil.
  - cbn. repeat (apply NoDup_cons; [cbn; intuition discriminate|]).
    apply NoDup_nil.
  - reflexivity.
  - discriminate.
  - reflexivity.
Defined.

(** ** The order in which the two operators take the snapshots *)

(** C7 (amended). The index of a snapshot is read off its name alone: for
    "copy<n>" it is n, and a name that leaves no integer once "copy" is taken
    out, such as "copy1.001", has index 0.  On a scene with two snapshots or
    more, names being ASCII and distinct, both operators take the snapshots,
    each once, in ascending order of index and, among snapshots of one
    index, in scene order: the cleanup operator keeps the first of that
    order under the final name and removes all the others, and the merge
    operator makes the first its base and gives it the others as shape keys
    in that order (those that fit).  The order of the scene has no part in
    it when no two snapshots have the same index. *)
Theorem copies_ordered_by_numeric_suffix (s : Blend) :
  NoDup (map ob_id (objects s)) -> NoDup (map name (objects s)) ->
  (forall o, In o (objects s) -> ascii_only (name o) = true) ->
  (2 <= List.length (filter is_copy (scene_objects s)))%nat ->
  exists copy1 rest,
    Permutation (copy1 :: rest) (filter is_copy (scene_objects s)) /\
    StronglySorted
      (fun a b => idx_of_name (name a) <= idx_of_name (name b)) (copy1 :: rest) /\
    (forall v,
       filter (fun o => idx_of_name (name o) =? v) (copy1 :: rest)
       = filter (fun o => idx_of_name (name o) =? v)
                (filter is_copy (scene_objects s))) /\
    (forall o (n : nat),
       name o = "copy" ++ PyStr.str_nat n -> idx_of_name (name o) = Z.of_nat n) /\
    (forall objs',
       Permutation objs' (objects s) ->
       NoDup (map (fun o => idx_of_name (name o))
                  (filter is_copy (scene_objects s))) ->
       sorted_copies objs' = copy1 :: rest) /\
    objects (final (run GEO_OT_RenameAndDelete.execute s))
    = filter (fun o => negb (existsb (fun x => (ob_id o =? ob_id x)%nat) rest))
        (update_object (ob_id copy1)
           (with_name
              (unique_name
                 (map name
                    (filter (fun o => negb (ob_id o =? ob_id copy1)%nat)
                            (objects s)))
                 "shapekey_object"))
           (objects s)) /\
    active (final (run GEO_OT_MergeToShapeKeys.execute s)) = Some (ob_id copy1) /\
    (shape_keys (data copy1) = None ->
     exists k,
       GEO_OT_MergeToShapeKeys.shape_keys_of (ob_id copy1)
         (final (run GEO_OT_MergeToShapeKeys.execute s)) = Some k /\
       map sk_name (key_blocks k)
       = "Basis"
         :: map name
              (filter (fun o => (List.length (vertices (data o))
                                 =? List.length (vertices (data copy1)))%nat)
                      rest)).
Proof.
  intros Hnd Hnames _ Hlen.
  destruct (two_copies_sorted s Hlen) as (copy1 & rest & Hsorted & Hrest).
  exists copy1, rest.
  split.
  { rewrite <- Hsorted. apply sorted_copies_perm. }
  split.
  { rewrite <- Hsorted. apply (sort_by_sorted idx). }
  split.
  { intros v. rewrite <- Hsorted. apply (filter_sort_by idx). }
  split.
  { intros o n E. rewrite E. apply idx_of_numbered. }
  split.
  { intros objs' Hp Hdistinct. rewrite <- Hsorted. symmetry.
    apply (sorted_perm_unique idx).
    - eapply Permutation_NoDup; [|exact Hdistinct].
      apply Permutation_map, Permutation_sym, sorted_copies_perm.
    - apply sort_by_sorted.
    - apply sort_by_sorted.
    - rewrite !sorted_copies_perm. apply filter_perm, filter_perm.
      symmetry. exact Hp. }
  split.
  { destruct (cleanup_run s copy1 rest Hsorted) as (s' & msg & Hrun & Hobjs).
    rewrite Hrun. exact Hobjs. }
  split.
  { destruct (merge_run s copy1 rest (fun _ => True) Hsorted Hrest I)
      as (s5 & H5 & E).
    destruct H5 as (Hact & _ & _ & _ & _ & _ & k & Hk & _).
    rewrite E. unfold zoom. rewrite Hk.
    destruct (GEO_OT_MergeToShapeKeys.animate _ _ _ _ _ k []);
      cbn [outcome final]; exact Hact. }
  intros Hnone.
  destruct (merge_blocks_joined s copy1 rest Hnd Hnames Hsorted Hrest Hnone)
    as (k & Hk & Hblocks).
  exists k. split; [exact Hk|].
  apply (f_equal (map fst)) in Hblocks.
  rewrite map_map in Hblocks. cbn [map fst] in Hblocks.
  rewrite map_map in Hblocks. exact Hblocks.
Qed.

Lemma copies_ordered_by_numeric_suffix_witness :
  exists copy1 rest,
    Permutation (copy1 :: rest)
                (filter is_copy (scene_objects Scenes.shuffled_scene)) /\
    StronglySorted
      (fun a b => idx_of_name (name a) <= idx_of_name (name b)) (copy1 :: rest) /\
    (forall v,
       filter (fun o => idx_of_name (name o) =? v) (copy1 :: rest)
       = filter (fun o => idx_of_name (name o) =? v)
                (filter is_copy (scene_objects Scenes.shuffled_scene))) /\
    (forall o (n : nat),
       name o = "copy" ++ PyStr.str_nat n -> idx_of_name (name o) = Z.of_nat n) /\
    (forall objs',
       Permutation objs' (objects Scenes.shuffled_scene) ->
       NoDup (map (fun o => idx_of_name (name o))
                  (filter is_copy (scene_objects Scenes.shuffled_scene))) ->
       sorted_copies objs' = copy1 :: rest) /\
    objects (final (run GEO_OT_RenameAndDelete.execute Scenes.shuffled_scene))
    = filter (fun o => negb (existsb (fun x => (ob_id o =? ob_id x)%nat) rest))
        (update_object (ob_id copy1)
           (with_name
              (unique_name
                 (map name
                    (filter (fun o => negb (ob_id o =? ob_id copy1)%nat)
                            (objects Scenes.shuffled_scene)))
                 "shapekey_object"))
           (objects Scenes.shuffled_scene)) /\
    active (final (run GEO_OT_MergeToShapeKeys.execute Scenes.shuffled_scene))
      = Some (ob_id copy1) /\
    (shape_keys (data copy1) = None ->
     exists k,
       GEO_OT_MergeToShapeKeys.shape_keys_of (ob_id copy1)
         (final (run GEO_OT_MergeToShapeKeys.execute Scenes.shuffled_scene))
         = Some k /\
       map sk_name (key_blocks k)
       = "Basis"
         :: map name
              (filter (fun o => (List.length (vertices (data o))
                                 =? List.length (vertices (data copy1)))%nat)
                      rest)).
Proof.
  apply (copies_ordered_by_numeric_suffix Scenes.shuffled_scene).
  - cbn. repeat (apply NoDup_cons;
                 [cbn [In]; intros H;
                  repeat (destruct H as [H | H]; [discriminate H|]); exact H|]).
    apply NoDup_nil.
  - cbn. repeat (apply NoDup_cons;
                 [cbn [In]; intros H;
                  repeat (destruct H as [H | H]; [discriminate H|]); exact H|]).
    apply NoDup_nil.
  - intros o H. cbn in H.
    repeat (destruct H as [<- | H]; [reflexivity|]). destruct H.
  - cbn. lia.
Defined.

(** Created as copy3, copy1, copy2: the merge makes "copy1" its base and
    gives it the keys "copy2" and "copy3", in that order. *)
Example merge_shuffled :
  active (final (run GEO_OT_MergeToShapeKeys.execute Scenes.shuffled_scene))
    = Some 2%nat /\
  option_map (fun k => map sk_name (key_blocks k))
    (GEO_OT_MergeToShapeKeys.shape_keys_of 2
       (final (run GEO_OT_MergeToShapeKeys.execute Scenes.shuffled_scene)))
  = Some ["Basis"; "copy2"; "copy3"].
Proof. split; reflexivity. Qed.

(** C7 as stated fails on snapshots whose names carry a suffix the host gave
    them.  Next to "copy2" and "copy1", the snapshots "copy1.002" and
    "copy1.001" both have index 0: the merge takes "copy1.002" as its base,
    before "copy1.001" and before "copy1", and the cleanup keeps it; with the
    two in the other order in the scene, and nothing else changed, it is
    "copy1.001" that both operators take first. *)
Lemma copies_suffix_order_counterexample :
  Permutation (objects Scenes.ties) (objects Scenes.ties_swapped) /\
  map name (sorted_copies (objects Scenes.ties))
    = ["copy1.002"; "copy1.001"; "copy1"; "copy2"] /\
  map name (sorted_copies (objects Scenes.ties_swapped))
    = ["copy1.001"; "copy1.002"; "copy1"; "copy2"] /\
  option_map (fun k => map sk_name (key_blocks k))
    (GEO_OT_MergeToShapeKeys.shape_keys_of 3
       (final (run GEO_OT_MergeToShapeKeys.execute Scenes.ties)))
    = Some ["Basis"; "copy1.001"; "copy1"; "copy2"] /\
  option_map (fun k => map sk_name (key_blocks k))
    (GEO_OT_MergeToShapeKeys.shape_keys_of 5
       (final (run GEO_OT_MergeToShapeKeys.execute Scenes.ties_swapped)))
    = Some ["Basis"; "copy1.002"; "copy1"; "copy2"] /\
  map ident (objects (final (run GEO_OT_RenameAndDelete.execute Scenes.ties)))
    = [(3%nat, "shapekey_object")] /\
  map ident
      (objects (final (run GEO_OT_RenameAndDelete.execute Scenes.ties_swapped)))
    = [(5%nat, "shapekey_object")].
Proof.
  split.
  { unfold Scenes.ties, Scenes.ties_swapped, Scenes.scene. cbn [objects].
    apply perm_skip.
    apply (perm_trans (l' := [Scenes.snapshot 4 "copy1" 0;
                              Scenes.snapshot 3 "copy1.002" 0;
                              Scenes.snapshot 5 "copy1.001" 0])).
    - apply perm_swap.
    - apply (perm_trans (l' := [Scenes.snapshot 4 "copy1" 0;
                                Scenes.snapshot 5 "copy1.001" 0;
                                Scenes.snapshot 3 "copy1.002" 0])).
      + apply perm_skip, perm_swap.
      + apply perm_swap. }
  repeat split; reflexivity.
Qed.

(** ** The reports of the relative merge *)

Lemma says_ret {St A} (a : A) : says [] (@ret St A a).
Proof. intros s rs. cbn. rewrite app_nil_r. reflexivity. Qed.

Lemma says_gets {St A} (g : St -> A) : says [] (gets g).
Proof. intros s rs. cbn. rewrite app_nil_r. reflexivity. Qed.

Lemma says_modify {St} (g : St -> St) : says [] (modify g).
Proof. intros s rs. cbn. rewrite app_nil_r. reflexivity. Qed.

Lemma says_report {St} (ty : ReportType) (msg : string) :
  says [(ty, msg)] (@report St ty msg).
Proof. intros s rs. reflexivity. Qed.

Lemma says_raise {St A} (l : list Report) (e : Exception) :
  says l (@raise St A e).
Proof. intros s rs. exact I. Qed.

Lemma says_bind {St A A'} (l1 l2 : list Report) (m : Op St A)
    (k : A -> Op St A') :
  says l1 m -> (forall a, says l2 (k a)) -> says (l1 ++ l2) (bind m k).
Proof.
  intros Hm Hk s rs. unfold bind. specialize (Hm s rs).
  destruct (m s rs) as [a s1 rs1 | st s1 rs1]; [|exact I].
  specialize (Hk a s1 rs1). destruct (k a s1 rs1); [|exact I].
  subst. rewrite app_assoc. reflexivity.
Qed.

Lemma says_silent_then {St A A'} (l : list Report) (m : Op St A)
    (k : A -> Op St A') :
  says [] m -> (forall a, says l (k a)) -> says l (bind m k).
Proof. intros Hm Hk. apply (says_bind [] l); assumption. Qed.

Lemma says_for_each {St A} (r : Report) (body : A -> Op St unit) (xs : list A) :
  (forall x, says [r] (body x)) ->
  says (repeat r (List.length xs)) (for_each xs body).
Proof.
  intros Hbody. induction xs as [|x xs IH]; cbn [for_each List.length repeat].
  - apply says_ret.
  - apply (says_bind [r] (repeat r (List.length xs))); [apply Hbody|].
    intros _. exact IH.
Qed.

Lemma says_force_linear (sel : DataPath -> bool) : says [] (force_linear sel).
Proof.
  unfold force_linear, action_fcurves.
  apply says_silent_then.
  - apply says_silent_then; [apply says_gets|].
    intros [[[fcs|]]|]; first [apply says_ret | apply says_raise].
  - intros fcs. apply says_modify.
Qed.

(** One pass of the loop reports once. *)
Lemma says_keyframe_values (ipo : Interpolation) (K m : nat) (nm : string)
    (item : nat * nat) :
  says [relative_report m nm]
       (GEO_OT_MergeToShapeKeys.keyframe_values ipo 10 K m nm item).
Proof.
  destruct item as (i, sk). unfold GEO_OT_MergeToShapeKeys.keyframe_values.
  cbv zeta.
  apply says_silent_then; [apply says_modify | intros _].
  apply says_silent_then; [apply says_modify | intros _].
  apply says_silent_then; [apply says_modify | intros _].
  apply says_silent_then; [apply says_modify | intros _].
  apply says_silent_then.
  { destruct (Z.of_nat i <? Z.of_nat K - 1); [|apply says_ret].
    apply says_silent_then; [apply says_modify | intros _]. apply says_modify. }
  intros _.
  apply says_silent_then; [apply says_force_linear | intros _].
  apply says_report.
Qed.

(** The relative branch on a key without animation data: the loop runs to
    its end from the key with fresh animation data, and [execute] finishes
    with what the loop leaves. *)
Lemma animate_relative_unfold (ipo : Interpolation) (n m : nat) (nm : string)
    (k : Key) (rs : list Report) :
  animation_data k = None ->
  exists k' rs',
    for_each (combine (seq 0 (List.length (non_basis (key_blocks k))))
                      (non_basis (key_blocks k)))
             (GEO_OT_MergeToShapeKeys.keyframe_values ipo 10
                (List.length (non_basis (key_blocks k))) m nm)
             (set_animation_data (Some (mkAnimData None)) k) rs
    = Next tt k' rs' /\
    GEO_OT_MergeToShapeKeys.animate ipo true n m nm k rs
    = Stop FINISHED k' rs' /\
    map sk_name (key_blocks k') = map sk_name (key_blocks k).
Proof.
  intros Hnone.
  unfold GEO_OT_MergeToShapeKeys.animate. cbn [negb].
  unfold bind at 1. unfold bind at 1. unfold gets at 1. rewrite Hnone.
  unfold bind at 1. unfold animation_data_create at 1, modify at 1. rewrite Hnone.
  unfold bind at 1. unfold gets at 1. unfold ret at 1.
  cbn [key_blocks set_animation_data]. cbv zeta.
  unfold bind at 1. unfold ret at 1.
  set (k0 := set_animation_data (Some (mkAnimData None)) k).
  set (ts := non_basis (key_blocks k)).
  destruct (keyframe_values_loop ipo (List.length ts) m nm ts 0 k0 rs)
    as (k' & rs' & E & _ & N).
  - constructor.
  - apply Forall_forall. intros b Hb. split; [constructor|].
    apply non_basis_lt. exact Hb.
  - apply non_basis_NoDup.
  - exists k', rs'. split; [exact E|]. split; [|exact N].
    unfold bind. unfold enumerate. rewrite E. reflexivity.
Qed.

Lemma animate_relative_reports (ipo : Interpolation) (n m : nat) (nm : string)
    (k : Key) (rs : list Report) :
  animation_data k = None ->
  exists k',
    GEO_OT_MergeToShapeKeys.animate ipo true n m nm k rs
    = Stop FINISHED k'
        (rs ++ repeat (relative_report m nm)
                      (List.length (non_basis (key_blocks k))))%list /\
    map sk_name (key_blocks k') = map sk_name (key_blocks k).
Proof.
  intros Hnone.
  destruct (animate_relative_unfold ipo n m nm k rs Hnone)
    as (k' & rs' & E & Ea & N).
  set (ts := non_basis (key_blocks k)) in *.
  pose proof (says_for_each (relative_report m nm)
                (GEO_OT_MergeToShapeKeys.keyframe_values ipo 10
                   (List.length ts) m nm)
                (combine (seq 0 (List.length ts)) ts)
                (says_keyframe_values ipo (List.length ts) m nm)
                (set_animation_data (Some (mkAnimData None)) k) rs) as Hs.
  rewrite E in Hs. subst rs'.
  rewrite length_combine, length_seq, Nat.min_id in Ea.
  exists k'. split; [exact Ea | exact N].
Qed.

(** X10. In relative mode, on copies that pass the validation and a base
    copy whose key, if it has one, is not animated yet, the merge operator
    makes the report "Merged <n> copies into '<base>' with relative shape
    keys" once for every shape key other than "Basis", and no other report:
    K identical reports for K targets, and none at all when there is no
    target. *)
Theorem merge_relative_reports_per_target (s : Blend) (copy1 : Object)
    (rest : list Object) :
  GEO_Props.use_relative (props s) = true ->
  sorted_copies (objects s) = copy1 :: rest -> rest <> [] ->
  (forall k0, GEO_OT_MergeToShapeKeys.shape_keys_of (ob_id copy1) s = Some k0 ->
              animation_data k0 = None) ->
  exists k,
    GEO_OT_MergeToShapeKeys.shape_keys_of (ob_id copy1)
      (final (run GEO_OT_MergeToShapeKeys.execute s)) = Some k /\
    reports (run GEO_OT_MergeToShapeKeys.execute s)
    = repeat (INFO, "Merged " ++ PyStr.str_nat (List.length rest)
                    ++ " copies into '" ++ name copy1
                    ++ "' with relative shape keys")
             (List.length (non_basis (key_blocks k))).
Proof.
  intros Hrel Hsorted Hrest Hfresh.
  destruct (merge_run s copy1 rest (fun a => a = None) Hsorted Hrest)
    as (s5 & H5 & E).
  { destruct (GEO_OT_MergeToShapeKeys.shape_keys_of (ob_id copy1) s) as [k0|];
      [apply Hfresh|]; reflexivity. }
  destruct H5 as (_ & _ & _ & _ & _ & _ & k5 & Hk5 & Hnone).
  rewrite E, Hrel. unfold zoom. rewrite Hk5.
  destruct (animate_relative_reports (ipo_new s) (List.length (copy1 :: rest))
              (List.length rest) (name copy1) k5 [] Hnone)
    as (k' & Ea & N).
  rewrite Ea. cbn [outcome reports final].
  exists k'. split; [apply (shape_keys_of_set _ k5); exact Hk5|].
  rewrite (non_basis_names _ _ N). reflexivity.
Qed.

Lemma merge_relative_reports_per_target_witness :
  exists k,
    GEO_OT_MergeToShapeKeys.shape_keys_of 2
      (final (run GEO_OT_MergeToShapeKeys.execute (Scenes.three_copies true)))
      = Some k /\
    reports (run GEO_OT_MergeToShapeKeys.execute (Scenes.three_copies true))
    = repeat (INFO, "Merged " ++ PyStr.str_nat 2
                    ++ " copies into '" ++ "copy1"
                    ++ "' with relative shape keys")
             (List.length (non_basis (key_blocks k))).
Proof.
  apply (merge_relative_reports_per_target (Scenes.three_copies true)
           (Scenes.snapshot 2 "copy1" 0)
           [Scenes.snapshot 3 "copy2" 10; Scenes.snapshot 4 "copy3" 20]).
  - reflexivity.
  - reflexivity.
  - discriminate.
  - intros k0 H. discriminate H.
Defined.

(** ** From the prep operator to the merge operator *)

(** A list whose keys go up by one from position to position is sorted, and
    no key comes twice. *)
Lemma sorted_by_position {A} (key : A -> Z) (c : Z) (l : list A) :
  forall a : nat,
    (forall k o, nth_error l k = Some o -> key o = Z.of_nat (a + k) + c) ->
    StronglySorted (le_by key) l /\ NoDup (map key l) /\
    forall o, In o l -> Z.of_nat a + c <= key o.
Proof.
  induction l as [|x l IH]; intros a Hpos.
  - split; [constructor|]. split; [constructor|]. intros o [].
  - destruct (IH (S a)) as (Hs & Hnd & Hlow).
    { intros k o Hk. rewrite (Hpos (S k) o Hk). f_equal. lia. }
    pose proof (Hpos 0%nat x eq_refl) as Hx. rewrite Nat.add_0_r in Hx.
    split; [|split].
    + constructor; [exact Hs|]. apply Forall_forall. intros o Ho.
      unfold le_by. specialize (Hlow o Ho). lia.
    + cbn [map]. constructor; [|exact Hnd]. intros Hin.
      apply in_map_iff in Hin. destruct Hin as (o & Heq & Ho).
      specialize (Hlow o Ho). lia.
    + intros o [<- | Ho]; [lia|]. specialize (Hlow o Ho). lia.
Qed.

(** On a scene without snapshots the merge operator finds the objects the
    prep operator made, in the order it made them. *)
Lemma prep_sorted_copies (s : Blend) (base : Object) (created : list Object) :
  (forall o, In o (objects s) -> is_copy o = false) ->
  (forall k o, nth_error created k = Some o ->
     baked_from base (objects s ++ firstn k created) (Z.of_nat k) o) ->
  sorted_copies (objects s ++ created) = created.
Proof.
  intros Hnone Hnth.
  assert (Hnames : forall k o, nth_error created k = Some o ->
                               name o = copy_name (Z.of_nat k)).
  { apply (baked_names_free base (objects s)); [exact Hnth|].
    intros o k Ho _ Heq.
    assert (Hc : is_copy o = true).
    { apply (copy_name_given_is_copy [] (Z.of_nat k)).
      rewrite unique_name_free by (intros []). exact Heq. }
    rewrite (Hnone o Ho) in Hc. discriminate Hc. }
  assert (Hcopy : forall o, In o created -> is_copy o = true).
  { intros o Ho. apply In_nth_error in Ho. destruct Ho as (k & Hk).
    apply (copy_name_given_is_copy [] (Z.of_nat k)).
    rewrite unique_name_free by (intros []). apply Hnames. exact Hk. }
  assert (Hlinked : forall o, In o created -> linked o = true).
  { intros o Ho. apply In_nth_error in Ho. destruct Ho as (k & Hk).
    destruct (Hnth k o Hk) as (_ & _ & _ & Hl & _). exact Hl. }
  unfold sorted_copies. rewrite !filter_app.
  rewrite (filter_all linked created Hlinked), (filter_all _ _ Hcopy).
  rewrite (filter_none is_copy (filter linked (objects s))).
  2:{ intros o Ho. apply filter_In in Ho. apply Hnone. tauto. }
  cbn [List.app].
  destruct (sorted_by_position idx 1 created 0) as (Hs & Hnd & _).
  { intros k o Hk. unfold idx. rewrite (Hnames k o Hk).
    rewrite idx_of_copy_name by lia. reflexivity. }
  symmetry. apply (sorted_perm_unique idx); [exact Hnd | exact Hs | |].
  - apply sort_by_sorted.
  - symmetry. apply sort_by_perm.
Qed.

(** X12. The prep operator followed by the merge operator.  On a scene whose
    objects have distinct references and names and none of which has a name
    that starts with "copy", with at least two samples asked for, the merge
    operator takes, of the scene the prep operator leaves, exactly the
    snapshots made, in the order they were made: the snapshot of frame 0 is
    the base, also when there are ten snapshots or more.  It passes its
    validation and ends as the mode tells: FINISHED in relative mode, and with
    an UnboundLocalError in absolute mode. *)
Theorem prep_then_merge (s : Blend) (base : Object) :
  selected s = Some base -> In NODES (modifiers base) ->
  NoDup (map ob_id (objects s)) -> NoDup (map name (objects s)) ->
  (forall o, In o (objects s) -> is_copy o = false) ->
  2 <= GEO_Props.total_frames (props s) ->
  exists copy1 rest,
    objects (final (run GEO_OT_GeoNodesPrep.execute s))
      = (objects s ++ copy1 :: rest)%list /\
    sorted_copies (objects (final (run GEO_OT_GeoNodesPrep.execute s)))
      = copy1 :: rest /\
    vertices (data copy1) = evaluated base 0 /\
    Z.of_nat (List.length (copy1 :: rest)) = GEO_Props.total_frames (props s) /\
    status (run GEO_OT_MergeToShapeKeys.execute
              (final (run GEO_OT_GeoNodesPrep.execute s)))
      = if GEO_Props.use_relative (props s) then FINISHED
        else RAISED UnboundLocalError.
Proof.
  intros Hsel Hmod Hid Hname Hnone HN.
  destruct (prep_run s base Hsel Hmod) as (created & E & Hlen & Hnth).
  pose proof (prep_sorted_copies s base created Hnone Hnth) as Hsorted.
  assert (Hid1 : NoDup (map ob_id
                   (objects (final (run GEO_OT_GeoNodesPrep.execute s))))).
  { rewrite (prep_final_loop s base Hsel Hmod).
    destruct (bake_loop_distinct base
                (range (GEO_Props.total_frames (props s))) s Hid Hname [])
      as (s' & rs' & El & Hid' & _).
    rewrite El. exact Hid'. }
  assert (Hprops : props (final (run GEO_OT_GeoNodesPrep.execute s)) = props s).
  { rewrite E. reflexivity. }
  assert (Hobjs : objects (final (run GEO_OT_GeoNodesPrep.execute s))
                  = (objects s ++ created)%list).
  { rewrite E. reflexivity. }
  set (s1 := final (run GEO_OT_GeoNodesPrep.execute s)) in *.
  clearbody s1. clear E.
  destruct created as [|copy1 [|copy2 rest]]; cbn [List.length] in Hlen;
    try lia.
  exists copy1, (copy2 :: rest).
  rewrite <- Hobjs in Hsorted.
  split; [exact Hobjs|]. split; [exact Hsorted|].
  destruct (Hnth 0%nat copy1 eq_refl) as (_ & _ & _ & _ & Hdata).
  split; [rewrite Hdata; reflexivity|].
  split; [cbn [List.length]; lia|].
  assert (Hkey : GEO_OT_MergeToShapeKeys.shape_keys_of (ob_id copy1) s1 = None).
  { unfold GEO_OT_MergeToShapeKeys.shape_keys_of.
    rewrite (get_object_NoDup copy1 (objects s1) Hid1).
    - rewrite Hdata. reflexivity.
    - rewrite Hobjs. apply in_or_app. right. left. reflexivity. }
  destruct (merge_run s1 copy1 (copy2 :: rest) (fun a => a = None) Hsorted)
    as (s5 & H5 & Em).
  { discriminate. }
  { rewrite Hkey. reflexivity. }
  destruct H5 as (_ & _ & _ & _ & _ & _ & k5 & Hk5 & Hfresh).
  rewrite Em, Hprops. unfold zoom. rewrite Hk5.
  destruct (GEO_Props.use_relative (props s)).
  - destruct (animate_relative_unfold (ipo_new s1)
                (List.length (copy1 :: copy2 :: rest))
                (List.length (copy2 :: rest)) (name copy1) k5 [] Hfresh)
      as (k' & rs' & _ & Ea & _).
    rewrite Ea. reflexivity.
  - destruct (animate_absolute (ipo_new s1)
                (List.length (copy1 :: copy2 :: rest))
                (List.length (copy2 :: rest)) (name copy1) k5 [])
      as (k' & rs' & Ea & _).
    rewrite Ea. reflexivity.
Qed.

Lemma prep_then_merge_witness :
  exists copy1 rest,
    objects (final (run GEO_OT_GeoNodesPrep.execute Scenes.fresh))
      = (objects Scenes.fresh ++ copy1 :: rest)%list /\
    sorted_copies (objects (final (run GEO_OT_GeoNodesPrep.execute Scenes.fresh)))
      = copy1 :: rest /\
    vertices (data copy1) = evaluated Scenes.cube 0 /\
    Z.of_nat (List.length (copy1 :: rest))
      = GEO_Props.total_frames (props Scenes.fresh) /\
    status (run GEO_OT_MergeToShapeKeys.execute
              (final (run GEO_OT_GeoNodesPrep.execute Scenes.fresh)))
      = if GEO_Props.use_relative (props Scenes.fresh) then FINISHED
        else RAISED UnboundLocalError.
Proof.
  apply (prep_then_merge Scenes.fresh Scenes.cube).
  - reflexivity.
  - left. reflexivity.
  - repeat constructor. intros [].
  - repeat constructor. intros [].
  - intros o [<- | []]. reflexivity.
  - cbn. lia.
Defined.

(** ** Registration and its undoing *)

Lemma is_registered_in (cls : string) (h : Registration.Bpy) :
  Registration.is_registered cls h = true <-> In cls (Registration.registered h).
Proof.
  unfold Registration.is_registered. rewrite existsb_exists. split.
  - intros (x & Hx & E). apply String.eqb_eq in E. subst x. exact Hx.
  - intros H. exists cls. split; [exact H | apply String.eqb_refl].
Qed.

Lemma is_registered_not_in (cls : string) (h : Registration.Bpy) :
  Registration.is_registered cls h = false <-> ~ In cls (Registration.registered h).
Proof.
  rewrite <- is_registered_in.
  destruct (Registration.is_registered cls h); split; intros H;
    congruence.
Qed.

(** Registering classes that are not registered yet adds them at the end,
    in order. *)
Lemma register_each_new (cs : list string) :
  forall (l : list string) (p : option string),
    NoDup cs -> (forall c, In c cs -> ~ In c l) ->
    Registration.each Registration.register_class cs (Registration.mkBpy l p)
    = Registration.Done (Registration.mkBpy (l ++ cs) p).
Proof.
  induction cs as [|c cs IH]; intros l p Hnd Hnew; cbn [Registration.each].
  - rewrite app_nil_r. reflexivity.
  - apply NoDup_cons_iff in Hnd. destruct Hnd as (Hc & Hnd).
    unfold Registration.register_class.
    assert (E : Registration.is_registered c (Registration.mkBpy l p) = false).
    { apply is_registered_not_in. apply Hnew. left. reflexivity. }
    rewrite E. cbn [Registration.registered Registration.scene_props].
    rewrite IH; [rewrite <- app_assoc; reflexivity | exact Hnd |].
    intros x Hx Hin. apply in_app_or in Hin. destruct Hin as [Hin | [<- | []]].
    + apply (Hnew x); [right; exact Hx | exact Hin].
    + apply Hc. exact Hx.
Qed.

Lemma filter_out_absent (c : string) (l : list string) :
  ~ In c l -> filter (fun x => negb (String.eqb c x)) l = l.
Proof.
  induction l as [|y l IH]; intros H; [reflexivity|]. cbn [filter].
  destruct (String.eqb_spec c y) as [-> | Hne].
  - exfalso. apply H. left. reflexivity.
  - cbn [negb]. f_equal. apply IH. intros Hin. apply H. right. exact Hin.
Qed.

(** Unregistering, last first, the classes that were added at the end gives
    the registry back. *)
Lemma unregister_each_added (cs : list string) :
  forall (l : list string) (p : option string),
    NoDup cs -> (forall c, In c cs -> ~ In c l) ->
    Registration.each Registration.unregister_class (List.rev cs)
      (Registration.mkBpy (l ++ cs) p)
    = Registration.Done (Registration.mkBpy l p).
Proof.
  induction cs as [|c cs IH] using rev_ind; intros l p Hnd Hnew.
  - cbn. rewrite app_nil_r. reflexivity.
  - rewrite rev_app_distr. cbn [List.rev List.app Registration.each].
    assert (Hc : ~ In c cs /\ NoDup cs).
    { apply NoDup_remove in Hnd. rewrite app_nil_r in Hnd. tauto. }
    destruct Hc as (Hc & Hnd').
    unfold Registration.unregister_class at 1.
    assert (E : Registration.is_registered c
                  (Registration.mkBpy (l ++ cs ++ [c]) p) = true).
    { apply is_registered_in. cbn [Registration.registered].
      apply in_or_app. right. apply in_or_app. right. left. reflexivity. }
    rewrite E. cbn [Registration.registered Registration.scene_props].
    rewrite app_assoc, filter_app. cbn [filter]. rewrite String.eqb_refl.
    cbn [negb]. rewrite app_nil_r.
    rewrite filter_out_absent.
    + apply IH; [exact Hnd'|]. intros x Hx. apply Hnew.
      apply in_or_app. left. exact Hx.
    + intros Hin. apply in_app_or in Hin. destruct Hin as [Hin | Hin].
      * apply (Hnew c); [apply in_or_app; right; left; reflexivity | exact Hin].
      * apply Hc. exact Hin.
Qed.

Lemma classes_NoDup : NoDup Registration.classes.
Proof.
  unfold Registration.classes.
  repeat (constructor;
          [cbn [In]; intros H;
           repeat (destruct H as [H | H]; [discriminate H|]); exact H|]).
  constructor.
Qed.

(** X13. [unregister] undoes [register]: on a host where none of the five
    classes of the add-on is registered and the scene type has no attribute
    [geonodes_to_shapekey_props], [register] ends normally, with the five
    classes added in the order of [classes] and the attribute pointing to
    [GEO_Props], and [unregister] after it ends normally in the registry it
    started from, the classes of the host and of other add-ons in their
    order. *)
Theorem unregister_undoes_register (h : Registration.Bpy) :
  (forall c, In c Registration.classes -> ~ In c (Registration.registered h)) ->
  Registration.scene_props h = None ->
  Registration.register h
  = Registration.Done
      (Registration.mkBpy (Registration.registered h ++ Registration.classes)
                          (Some "GEO_Props")) /\
  Registration.unregister (Registration.state (Registration.register h))
  = Registration.Done h.
Proof.
  intros Hnew Hnone. destruct h as [l p]. cbn in Hnone. subst p.
  cbn [Registration.registered] in Hnew.
  assert (E : Registration.register (Registration.mkBpy l None)
              = Registration.Done
                  (Registration.mkBpy (l ++ Registration.classes)
                                      (Some "GEO_Props"))).
  { unfold Registration.register.
    rewrite (register_each_new _ l None classes_NoDup Hnew). reflexivity. }
  split; [exact E|]. rewrite E. cbn [Registration.state].
  unfold Registration.unregister.
  cbn [Registration.scene_props Registration.registered].
  apply unregister_each_added; [apply classes_NoDup | exact Hnew].
Qed.

Lemma unregister_undoes_register_witness :
  Registration.register (Registration.mkBpy ["OBJECT_OT_add"] None)
  = Registration.Done
      (Registration.mkBpy (["OBJECT_OT_add"] ++ Registration.classes)
                          (Some "GEO_Props")) /\
  Registration.unregister
    (Registration.state
       (Registration.register (Registration.mkBpy ["OBJECT_OT_add"] None)))
  = Registration.Done (Registration.mkBpy ["OBJECT_OT_add"] None).
Proof.
  apply (unregister_undoes_register (Registration.mkBpy ["OBJECT_OT_add"] None)).
  - cbn. intros c H [E | []]. subst c.
    repeat (destruct H as [H | H]; [discriminate H|]). exact H.
  - reflexivity.
Defined.

(** X14. A [register] that meets a class that is registered already ends
    with a [ValueError] there: the classes before it in [classes] stay
    registered, the later ones are not registered, and the scene attribute is
    not set.  When the attribute was not there, [unregister] cannot clean up
    after it: it ends with an [AttributeError] at the [del], before it
    unregisters any class. *)
Theorem register_clash_leaves_part (h : Registration.Bpy)
    (before : list string) (c : string) (after : list string) :
  Registration.classes = (before ++ c :: after)%list ->
  (forall x, In x before -> ~ In x (Registration.registered h)) ->
  In c (Registration.registered h) ->
  Registration.scene_props h = None ->
  Registration.register h
  = Registration.Raised Registration.ValueError
      (Registration.mkBpy (Registration.registered h ++ before) None) /\
  Registration.unregister (Registration.state (Registration.register h))
  = Registration.Raised Registration.AttributeError
      (Registration.mkBpy (Registration.registered h ++ before) None).
Proof.
  intros Hsplit Hnew Hc Hnone. destruct h as [l p]. cbn in Hnone. subst p.
  cbn [Registration.registered] in *.
  assert (Hnd : NoDup before).
  { pose proof classes_NoDup as H. rewrite Hsplit in H.
    apply NoDup_app_remove_r in H. exact H. }
  assert (E : Registration.register (Registration.mkBpy l None)
              = Registration.Raised Registration.ValueError
                  (Registration.mkBpy (l ++ before) None)).
  { unfold Registration.register. rewrite Hsplit.
    assert (Hgo : forall cs h1 h2,
              Registration.each Registration.register_class cs h1
              = Registration.Done h2 ->
              forall rest,
                Registration.each Registration.register_class (cs ++ rest) h1
                = Registration.each Registration.register_class rest h2).
    { induction cs as [|x cs IH]; intros h1 h2 H rest; cbn in H |- *.
      - injection H as <-. reflexivity.
      - destruct (Registration.register_class x h1) as [h'|e h'];
          [apply IH; exact H | discriminate H]. }
    rewrite (Hgo before _ _ (register_each_new before l None Hnd Hnew)).
    cbn [Registration.each]. unfold Registration.register_class.
    assert (Ec : Registration.is_registered c
                   (Registration.mkBpy (l ++ before) None) = true).
    { apply is_registered_in. cbn [Registration.registered].
      apply in_or_app. left. exact Hc. }
    rewrite Ec. reflexivity. }
  split; [exact E|]. rewrite E. reflexivity.
Qed.

Lemma register_clash_leaves_part_witness :
  Registration.register
    (Registration.mkBpy ["GEO_OT_MergeToShapeKeys"] None)
  = Registration.Raised Registration.ValueError
      (Registration.mkBpy
         (["GEO_OT_MergeToShapeKeys"] ++ ["GEO_Props"; "GEO_OT_GeoNodesPrep"])
         None) /\
  Registration.unregister
    (Registration.state
       (Registration.register
          (Registration.mkBpy ["GEO_OT_MergeToShapeKeys"] None)))
  = Registration.Raised Registration.AttributeError
      (Registration.mkBpy
         (["GEO_OT_MergeToShapeKeys"] ++ ["GEO_Props"; "GEO_OT_GeoNodesPrep"])
         None).
Proof.
  apply (register_clash_leaves_part
           (Registration.mkBpy ["GEO_OT_MergeToShapeKeys"] None)
           ["GEO_Props"; "GEO_OT_GeoNodesPrep"] "GEO_OT_MergeToShapeKeys"
           ["GEO_OT_RenameAndDelete"; "GEO_PT_GeoNodesToShapeKey"]).
  - reflexivity.
  - cbn. intros x [<- | [<- | []]] [E | []]; discriminate E.
  - left. reflexivity.
  - reflexivity.
Defined.

(** ** The index of a name with a dot *)

Lemma mentions_app (c : ascii) (a b : string) :
  mentions c (a ++ b) = mentions c a || mentions c b.
Proof.
  induction a as [|x a IH]; [reflexivity|].
  cbn [append mentions]. rewrite IH, orb_assoc. reflexivity.
Qed.

Lemma prefix_split (p : string) :
  forall s, String.prefix p s = true -> exists t, s = p ++ t.
Proof.
  induction p as [|x p IH]; intros s H.
  - exists s. reflexivity.
  - destruct s as [|y s]; [discriminate H|]. cbn [String.prefix] in H.
    destruct (ascii_dec x y) as [<- | ]; [|discriminate H].
    destruct (IH s H) as (t & ->). exists t. reflexivity.
Qed.

Lemma length_after (p t : string) :
  String.length (p ++ t) = (String.length p + String.length t)%nat.
Proof. induction p as [|x p IH]; [reflexivity|]. cbn. rewrite IH. reflexivity. Qed.

(** Taking "copy" out of a name takes no dot out of it. *)
Lemma replace_copy_dot (n : nat) :
  forall s, (String.length s <= n)%nat ->
    mentions "." (PyStr.replace s "copy" "") = mentions "." s.
Proof.
  unfold PyStr.replace.
  induction n as [|n IH]; intros s Hlen.
  - destruct s; [reflexivity | cbn in Hlen; lia].
  - destruct (String.prefix "copy" s) eqn:P.
    + destruct (prefix_split _ _ P) as (t & ->).
      rewrite Digits.replace_after_copy, IH.
      * reflexivity.
      * rewrite length_after in Hlen. cbn in Hlen. lia.
    + destruct s as [|c s]; [reflexivity|].
      cbn [PyStr.replace_aux]. rewrite P. cbn [mentions].
      rewrite IH; [reflexivity | cbn in Hlen; lia].
Qed.

Lemma space_no_dot (c : ascii) : PyStr.is_space c = true -> Ascii.eqb c "." = false.
Proof.
  intros H. destruct (Ascii.eqb_spec c ".") as [-> | _]; [discriminate H|].
  reflexivity.
Qed.

Lemma lstrip_dot (s : string) : mentions "." (PyStr.lstrip s) = mentions "." s.
Proof.
  induction s as [|c s IH]; [reflexivity|]. cbn [PyStr.lstrip].
  destruct (PyStr.is_space c) eqn:E; [|reflexivity].
  cbn [mentions]. rewrite (space_no_dot c E). exact IH.
Qed.

Lemma rstrip_dot (s : string) : mentions "." (PyStr.rstrip s) = mentions "." s.
Proof.
  induction s as [|c s IH]; [reflexivity|]. cbn [PyStr.rstrip mentions].
  rewrite <- IH.
  destruct (PyStr.rstrip s) as [|y r].
  - destruct (PyStr.is_space c) eqn:E; cbn [mentions].
    + rewrite (space_no_dot c E). reflexivity.
    + reflexivity.
  - reflexivity.
Qed.

(** A dot is no part of a decimal literal. *)
Lemma digits_acc_dot (s : string) :
  forall acc prev, mentions "." s = true -> PyStr.digits_acc acc prev s = None.
Proof.
  induction s as [|c s IH]; intros acc prev H; [discriminate H|].
  cbn [mentions] in H. cbn [PyStr.digits_acc].
  destruct (Ascii.eqb_spec c ".") as [-> | Hne]; [reflexivity|].
  cbn [orb] in H.
  destruct (PyStr.digit_of c); [apply IH; exact H|].
  destruct (Ascii.eqb c "_" && prev); [apply IH; exact H | reflexivity].
Qed.

Lemma int_dot (s : string) : mentions "." s = true -> PyStr.int s = None.
Proof.
  intros H. unfold PyStr.int, PyStr.strip.
  rewrite <- lstrip_dot, <- rstrip_dot in H.
  destruct (PyStr.rstrip (PyStr.lstrip s)) as [|c r]; [discriminate H|].
  destruct (Ascii.eqb_spec c "+") as [-> | Hplus].
  { rewrite (digits_acc_dot r 0 false H). reflexivity. }
  destruct (Ascii.eqb_spec c "-") as [-> | Hminus].
  { rewrite (digits_acc_dot r 0 false H). reflexivity. }
  pose proof (digits_acc_dot (String c r) 0 false H) as Hd.
  destruct c as [[] [] [] [] [] [] [] []];
    first [exact Hd | congruence].
Qed.

(** X15. The index of a name that holds a dot is 0, wherever the dot is:
    [int] refuses the text, and the handler returns 0.  This is so for every
    name the host has given a numeric suffix, such as "copy2.001": in the
    order of the merge and the cleanup such an object comes before "copy1". *)
Theorem dotted_name_has_index_zero (a b : string) :
  idx_of_name (a ++ "." ++ b) = 0.
Proof.
  unfold idx_of_name.
  rewrite int_dot; [reflexivity|].
  rewrite (replace_copy_dot _ _ (le_n _)), mentions_app.
  cbn [append mentions Ascii.eqb]. apply orb_true_r.
Qed.
